(** * Heuristic extraction and fusion core of the scientific-PDF metadata pipeline

    A shallow embedding of [src/ensemble.ts], of the date and author-zone
    helpers of [src/parsers/pdf.ts] and of [toISODate] from [src/utils.ts],
    followed by the properties the specification states about them.

    JavaScript strings are sequences of UTF-16 code units; they are modelled
    as lists of [N].  Regular expressions are kept as syntax trees and run by
    a backtracking matcher that follows the ECMAScript matching order
    (leftmost start, alternatives left to right, greedy quantifiers), so that
    capture groups receive the same substrings as in the source. *)

From Stdlib Require Import List NArith ZArith QArith Bool String Ascii Lia Lqa.
Import ListNotations.

Set Implicit Arguments.
Close Scope Q_scope.

(** ** JavaScript strings *)

Module Js.

Definition jsstring := list N.

(** A string literal of the source (ASCII only; other code units are written
    as numbers). *)
Definition js (s : string) : jsstring :=
  List.map N_of_ascii (list_ascii_of_string s).

Definition inRange (lo hi c : N) : bool := (N.leb lo c && N.leb c hi)%bool.

Definition isDigit (c : N) : bool := inRange 48 57 c.
Definition isUpper (c : N) : bool := inRange 65 90 c.
Definition isLower (c : N) : bool := inRange 97 122 c.
Definition isLetter (c : N) : bool := (isUpper c || isLower c)%bool.

(** [\w] is [[A-Za-z0-9_]]. *)
Definition isWordChar (c : N) : bool :=
  (isLetter c || isDigit c || N.eqb c 95)%bool.

(** WhiteSpace and LineTerminator code units: the set of [\s] and of
    [String.prototype.trim]. *)
Definition isSpace (c : N) : bool :=
  (inRange 9 13 c || N.eqb c 32 || N.eqb c 160 || N.eqb c 5760
   || inRange 8192 8202 c || N.eqb c 8232 || N.eqb c 8233 || N.eqb c 8239
   || N.eqb c 8287 || N.eqb c 12288 || N.eqb c 65279)%bool.

(** Line terminators, which [.] does not match. *)
Definition isLineTerminator (c : N) : bool :=
  (N.eqb c 10 || N.eqb c 13 || N.eqb c 8232 || N.eqb c 8233)%bool.

(** The other-case variant of an ASCII letter.  Without the [u] flag a
    non-ASCII code unit never folds onto an ASCII one, so this is all the
    case folding the patterns of this program need. *)
Definition swapCase (c : N) : N :=
  if isUpper c then (c + 32)%N else if isLower c then (c - 32)%N else c.

(** [String.prototype.toLowerCase].  Exact on Basic Latin and Latin-1, and on
    the two code units outside them whose lower case contains an ASCII letter
    (U+0130 and the Kelvin sign U+212A).  Letters of other scripts (Latin
    Extended, Greek, Cyrillic, ...) are left as they are, where the language
    maps capitals to small letters.  The patterns and labels below are ASCII
    and cannot tell the difference; a comparison of whole lower-cased strings
    can, so what is proved of the key of [dedupe] is stated for text within
    Basic Latin, Latin-1 and general punctuation. *)
Definition lowerUnit (c : N) : jsstring :=
  if isUpper c then [(c + 32)%N]
  else if (inRange 192 222 c && negb (N.eqb c 215))%bool then [(c + 32)%N]
  else if N.eqb c 304 then [105; 775]%N
  else if N.eqb c 8490 then [107]%N
  else [c].

Definition toLowerCase (s : jsstring) : jsstring := flat_map lowerUnit s.

Fixpoint dropWhile (p : N -> bool) (s : jsstring) : jsstring :=
  match s with
  | [] => []
  | c :: s' => if p c then dropWhile p s' else s
  end.

Definition trimStart (s : jsstring) : jsstring := dropWhile isSpace s.
Definition trimEnd (s : jsstring) : jsstring := rev (dropWhile isSpace (rev s)).
Definition trim (s : jsstring) : jsstring := trimEnd (trimStart s).

Definition str_eqb (a b : jsstring) : bool :=
  if list_eq_dec N.eq_dec a b then true else false.

Fixpoint startsWith (p s : jsstring) : bool :=
  match p, s with
  | [], _ => true
  | _ :: _, [] => false
  | a :: p', b :: s' => (N.eqb a b && startsWith p' s')%bool
  end.

(** [s.includes(p)] *)
Fixpoint includes (s p : jsstring) : bool :=
  (startsWith p s ||
   match s with
   | [] => false
   | _ :: s' => includes s' p
   end)%bool.

(** [s.slice(a, b)] for [0 <= a <= b]. *)
Definition slice (s : jsstring) (a b : nat) : jsstring := firstn (b - a) (skipn a s).

(** [s.padStart(n, "0")] *)
Definition padStart0 (n : nat) (s : jsstring) : jsstring :=
  repeat 48%N (n - List.length s) ++ s.

(** [xs.join(sep)] *)
Fixpoint join (sep : jsstring) (xs : list jsstring) : jsstring :=
  match xs with
  | [] => []
  | [x] => x
  | x :: rest => x ++ sep ++ join sep rest
  end.

(** Decimal digits of a natural number, most significant first: [String(n)]
    for a non-negative integer. *)
Fixpoint digitsFuel (fuel : nat) (n : N) (acc : jsstring) : jsstring :=
  match fuel with
  | O => acc
  | S f =>
      let acc' := (48 + N.modulo n 10)%N :: acc in
      if N.ltb n 10 then acc' else digitsFuel f (N.div n 10) acc'
  end.

Definition stringOfN (n : N) : jsstring := digitsFuel (S (N.to_nat (N.log2 n))) n [].

(** [String(z)] for an integer. *)
Definition stringOfZ (z : Z) : jsstring :=
  match z with
  | Zneg p => 45%N :: stringOfN (Npos p)
  | _ => stringOfN (Z.to_N z)
  end.

Fixpoint digitsValue (s : jsstring) (acc : N) : N :=
  match s with
  | [] => acc
  | c :: s' => digitsValue s' (acc * 10 + (c - 48))%N
  end.

Fixpoint takeWhile (p : N -> bool) (s : jsstring) : jsstring :=
  match s with
  | [] => []
  | c :: s' => if p c then c :: takeWhile p s' else []
  end.

(** [parseInt(s, 10)]: leading white space, an optional sign, then the longest
    run of decimal digits; [None] stands for [NaN]. *)
Definition parseInt (s : jsstring) : option Z :=
  let t := trimStart s in
  let '(neg, t') :=
    match t with
    | c :: r =>
        if N.eqb c 45 then (true, r)
        else if N.eqb c 43 then (false, r) else (false, t)
    | [] => (false, t)
    end in
  match takeWhile isDigit t' with
  | [] => None
  | ds => let v := Z.of_N (digitsValue ds 0) in Some (if neg then (- v)%Z else v)
  end.

End Js.

(** ** Regular expressions *)

Module Regex.
Import Js.

(** Character sets: the atoms and classes of the pattern syntax. *)
Inductive cset : Type :=
| CChar (c : N)                 (* a literal code unit *)
| CRange (lo hi : N)            (* [lo-hi] *)
| CDigit                        (* \d *)
| CWord                         (* \w *)
| CSpace                        (* \s *)
| CDot                          (* . *)
| CUnion (a b : cset)
| CNot (a : cset).              (* [^...], \S *)

(** Membership, under the [i] flag when [ic] is set: a code unit belongs to
    the set when it or its other-case variant does. *)
Fixpoint cmem (ic : bool) (cs : cset) (c : N) : bool :=
  match cs with
  | CChar a => (N.eqb a c || (ic && N.eqb a (swapCase c)))%bool
  | CRange lo hi => (inRange lo hi c || (ic && inRange lo hi (swapCase c)))%bool
  | CDigit => isDigit c
  | CWord => isWordChar c
  | CSpace => isSpace c
  | CDot => negb (isLineTerminator c)
  | CUnion a b => (cmem ic a c || cmem ic b c)%bool
  | CNot a => negb (cmem ic a c)
  end.

Inductive regex : Type :=
| Eps
| Chr (cs : cset)
| Seq (r1 r2 : regex)
| Alt (r1 r2 : regex)
| Rep (min : nat) (max : option nat) (r : regex)   (* greedy r{min,max} *)
| Group (r : regex)                                (* capturing ( ... ) *)
| Bol                                              (* ^ *)
| Eol                                              (* $ *)
| WordB.                                           (* \b *)

Definition Star (r : regex) : regex := Rep 0 None r.
Definition Plus (r : regex) : regex := Rep 1 None r.
Definition Opt (r : regex) : regex := Rep 0 (Some 1) r.

Fixpoint litUnits (s : jsstring) : regex :=
  match s with
  | [] => Eps
  | [c] => Chr (CChar c)
  | c :: s' => Seq (Chr (CChar c)) (litUnits s')
  end.

(** A run of literal characters of the pattern. *)
Definition Lit (s : string) : regex := litUnits (js s).

Fixpoint seqs (rs : list regex) : regex :=
  match rs with
  | [] => Eps
  | [r] => r
  | r :: rs' => Seq r (seqs rs')
  end.

Fixpoint alts (rs : list regex) : regex :=
  match rs with
  | [] => Eps
  | [r] => r
  | r :: rs' => Alt r (alts rs')
  end.

Fixpoint unions (cs : list cset) : cset :=
  match cs with
  | [] => CNot (CUnion CSpace (CNot CSpace))
  | [c] => c
  | c :: cs' => CUnion c (unions cs')
  end.

(** Number of capturing groups, which fixes the index of each group: groups
    are numbered by their opening parenthesis, left to right. *)
Fixpoint ngroups (r : regex) : nat :=
  match r with
  | Seq r1 r2 | Alt r1 r2 => ngroups r1 + ngroups r2
  | Rep _ _ r1 => ngroups r1
  | Group r1 => S (ngroups r1)
  | _ => 0
  end.

(** Captures: for each group, the start and end offsets of its last match. *)
Definition caps := list (option (nat * nat)).

Fixpoint setCap (i : nat) (v : option (nat * nat)) (c : caps) : caps :=
  match i, c with
  | O, _ :: c' => v :: c'
  | O, [] => [v]
  | S i', x :: c' => x :: setCap i' v c'
  | S i', [] => None :: setCap i' v []
  end.

Fixpoint clearCaps (from n : nat) (c : caps) : caps :=
  match n with
  | O => c
  | S n' => clearCaps (S from) n' (setCap from None c)
  end.

Definition isWordOpt (p : option N) : bool :=
  match p with
  | Some c => isWordChar c
  | None => false
  end.

Definition isWordHead (s : jsstring) : bool :=
  match s with
  | c :: _ => isWordChar c
  | [] => false
  end.

Section Matcher.

Variable ic : bool.      (* the i flag *)
Variable R : Type.

(** The continuation receives the code unit before the current position (if
    any), the offset reached, the rest of the input and the captures. *)
Definition cont := option N -> nat -> jsstring -> caps -> option R.

Fixpoint run (r : regex) (base : nat) (prev : option N) (pos : nat)
    (s : jsstring) (c : caps) (k : cont) {struct r} : option R :=
  match r with
  | Eps => k prev pos s c
  | Chr cs =>
      match s with
      | a :: s' => if cmem ic cs a then k (Some a) (S pos) s' c else None
      | [] => None
      end
  | Seq r1 r2 =>
      run r1 base prev pos s c
        (fun p' pos' s' c' => run r2 (base + ngroups r1) p' pos' s' c' k)
  | Alt r1 r2 =>
      match run r1 base prev pos s c k with
      | Some x => Some x
      | None => run r2 (base + ngroups r1) prev pos s c k
      end
  | Group r1 =>
      run r1 (S base) prev pos s c
        (fun p' pos' s' c' => k p' pos' s' (setCap base (Some (pos, pos')) c'))
  | Bol => match prev with None => k prev pos s c | Some _ => None end
  | Eol => match s with [] => k prev pos s c | _ :: _ => None end
  | WordB => if xorb (isWordOpt prev) (isWordHead s) then k prev pos s c else None
  | Rep mn mx r1 =>
      (fix loop (fuel mn : nat) (mx : option nat) (prev : option N) (pos : nat)
           (s : jsstring) (c : caps) {struct fuel} : option R :=
         match fuel with
         | O => None
         | S fuel' =>
             match mx with
             | Some O => k prev pos s c
             | _ =>
                 let iter :=
                   run r1 base prev pos s (clearCaps base (ngroups r1) c)
                     (fun p' pos' s' c' =>
                        if (Nat.eqb mn 0 && Nat.eqb pos' pos)%bool then None
                        else loop fuel' (Nat.pred mn) (option_map Nat.pred mx)
                               p' pos' s' c') in
                 if Nat.ltb 0 mn then iter
                 else match iter with
                      | Some x => Some x
                      | None => k prev pos s c
                      end
             end
         end) (S (mn + List.length s)) mn mx prev pos s c
  end.

End Matcher.

(** A compiled [RegExp] object: pattern and the [i] flag. *)
Record RegExp : Type := mkRegExp { pattern : regex; ignoreCase : bool }.

Definition re (r : regex) : RegExp := mkRegExp r false.
Definition rei (r : regex) : RegExp := mkRegExp r true.

(** One attempt at the current position: the length of the match and the
    captures (offsets relative to the position). *)
Definition matchAt (x : RegExp) (prev : option N) (s : jsstring)
  : option (nat * caps) :=
  run (ignoreCase x) (pattern x) 0 prev 0 s (repeat None (ngroups (pattern x)))
    (fun _ pos _ c => Some (pos, c)).

(** The result of [exec] / [String.prototype.match] without the [g] flag:
    [index], the matched text [m[0]] and the groups [m[1]], [m[2]], ... *)
Record MatchResult : Type :=
  mkMatch { index : nat; matched : jsstring; groups : list (option jsstring) }.

Definition capText (s : jsstring) (c : option (nat * nat)) : option jsstring :=
  match c with
  | Some (a, b) => Some (slice s a b)
  | None => None
  end.

Fixpoint searchFrom (x : RegExp) (prev : option N) (s : jsstring) (idx : nat)
  : option MatchResult :=
  match matchAt x prev s with
  | Some (len, c) => Some (mkMatch idx (firstn len s) (List.map (capText s) c))
  | None =>
      match s with
      | [] => None
      | a :: s' => searchFrom x (Some a) s' (S idx)
      end
  end.

(** [s.match(x)] and [x.exec(s)] for a pattern without the [g] flag. *)
Definition exec (x : RegExp) (s : jsstring) : option MatchResult :=
  searchFrom x None s 0.

(** [x.test(s)] *)
Definition test (x : RegExp) (s : jsstring) : bool :=
  match exec x s with Some _ => true | None => false end.

(** [m[i]] for [i >= 1]; [None] is [undefined]. *)
Definition group (m : MatchResult) (i : nat) : option jsstring :=
  nth (i - 1) (groups m) None.

(** [s.replace(x, rep)] with the [g] flag and a replacement text without
    [$] patterns.  [skip] counts the code units of the current match that are
    still to be passed over. *)
Fixpoint replaceFrom (x : RegExp) (rep : jsstring) (prev : option N)
    (s : jsstring) (skip : nat) {struct s} : jsstring :=
  match s with
  | [] =>
      match skip with
      | O => match matchAt x prev [] with Some _ => rep | None => [] end
      | S _ => []
      end
  | a :: s' =>
      match skip with
      | S n => replaceFrom x rep (Some a) s' n
      | O =>
          match matchAt x prev s with
          | Some (S n, _) => rep ++ replaceFrom x rep (Some a) s' n
          | Some (O, _) => rep ++ a :: replaceFrom x rep (Some a) s' 0
          | None => a :: replaceFrom x rep (Some a) s' 0
          end
      end
  end.

Definition replaceAll (x : RegExp) (rep : jsstring) (s : jsstring) : jsstring :=
  replaceFrom x rep None s 0.

(** [s.replace(x, rep)] without the [g] flag: the first match only. *)
Definition replaceFirst (x : RegExp) (rep : jsstring) (s : jsstring) : jsstring :=
  match exec x s with
  | Some m =>
      firstn (index m) s ++ rep ++ skipn (index m + List.length (matched m)) s
  | None => s
  end.

(** [s.split(x)] for a pattern without capturing groups.  [cur] is the piece
    being collected, in reverse; a match is taken only where it is not an
    empty match at the start of the piece. *)
Fixpoint splitFrom (x : RegExp) (prev : option N) (s : jsstring) (skip : nat)
    (cur : jsstring) {struct s} : list jsstring :=
  match s with
  | [] => [rev cur]
  | a :: s' =>
      match skip with
      | S n => splitFrom x (Some a) s' n cur
      | O =>
          match matchAt x prev s with
          | Some (S n, _) => rev cur :: splitFrom x (Some a) s' n []
          | Some (O, _) =>
              match cur with
              | [] => splitFrom x (Some a) s' 0 [a]
              | _ :: _ => rev cur :: splitFrom x (Some a) s' 0 [a]
              end
          | None => splitFrom x (Some a) s' 0 (a :: cur)
          end
      end
  end.

Definition split (x : RegExp) (s : jsstring) : list jsstring :=
  match s with
  | [] => match matchAt x None [] with Some _ => [] | None => [[]] end
  | _ :: _ => splitFrom x None s 0 []
  end.

End Regex.

(** ** The built-in [Date], as far as the program uses it

    [new Date(y, m, d)] followed by [getFullYear], [getMonth] and [getDate]:
    the civil date reached after carrying month and day overflow, in the
    proleptic Gregorian calendar.  (The program builds local midnights and
    reads them back in local time, so no time zone enters.)  The built-in
    type holds the days from 20 April -271821 to 13 September 275760 and
    gives an invalid date outside them; this limit is not modelled.  The
    years the program passes have four digits, and statements about other
    years are restricted to that range. *)

Module JsDate.
Open Scope Z_scope.

Definition daysFromCivil (y m d : Z) : Z :=
  let y' := if m <=? 2 then y - 1 else y in
  let era := y' / 400 in
  let yoe := y' - era * 400 in
  let mp := if 2 <? m then m - 3 else m + 9 in
  let doy := (153 * mp + 2) / 5 + d - 1 in
  let doe := yoe * 365 + yoe / 4 - yoe / 100 + doy in
  era * 146097 + doe - 719468.

Definition civilFromDays (z : Z) : Z * Z * Z :=
  let z' := z + 719468 in
  let era := z' / 146097 in
  let doe := z' - era * 146097 in
  let yoe := (doe - doe / 1460 + doe / 36524 - doe / 146096) / 365 in
  let doy := doe - (365 * yoe + yoe / 4 - yoe / 100) in
  let mp := (5 * doy + 2) / 153 in
  let d := doy - (153 * mp + 2) / 5 + 1 in
  let m := if mp <? 10 then mp + 3 else mp - 9 in
  let y := yoe + era * 400 in
  ((if m <=? 2 then y + 1 else y), m, d).

(** The day number of [new Date(year, monthIndex, day)]; years 0..99 denote
    1900..1999. *)
Definition make (year monthIndex day : Z) : Z :=
  let year' := if (0 <=? year) && (year <=? 99) then 1900 + year else year in
  daysFromCivil (year' + monthIndex / 12) (monthIndex mod 12 + 1) 1 + day - 1.

Definition getFullYear (t : Z) : Z := fst (fst (civilFromDays t)).
Definition getMonth (t : Z) : Z := snd (fst (civilFromDays t)) - 1.
Definition getDate (t : Z) : Z := snd (civilFromDays t).

End JsDate.

(** ** Exceptions *)

Inductive JsError : Type := TypeError.

Inductive result (A : Type) : Type :=
| Ok (a : A)
| Throw (e : JsError).

Arguments Ok {A} a.
Arguments Throw {A} e.

Definition bind {A B : Type} (x : result A) (f : A -> result B) : result B :=
  match x with
  | Ok a => f a
  | Throw e => Throw e
  end.

Notation "x <- e ;; k" := (bind e (fun x => k))
  (at level 61, e at next level, right associativity).

(** ** src/types.ts *)

Import Js Regex.
Open Scope string_scope.
Open Scope list_scope.

Record Sections : Type := mkSections {
  headerText : option jsstring;
  body : option jsstring
}.

(** The provenance tags that occur: ["llm"] and the parser methods. *)
Inductive Provenance : Type := llm | heuristic | grobid | unstructured | authority.

Record Field (T : Type) : Type := mkField {
  value : option T;
  confidence : Q;
  provenance : Provenance
}.

Arguments mkField {T} value confidence provenance.

(** [Partial<Metadata>], as far as the fusion reads it; [None] is a missing or
    [null] entry. *)
Record Candidates : Type := mkCandidates {
  cand_authors : option (list jsstring);
  cand_document_date : option jsstring
}.

Record Meta : Type := mkMeta { dateFromHeader : option bool }.

Record ParsedDoc : Type := mkParsedDoc {
  method : Provenance;
  candidates : Candidates;
  meta : option Meta
}.

(** ** The language-model value, of type [any]

    Its fields are taken at the types of the [LLMResult] interface (a string,
    [null], or missing); [authors] may be an array with arbitrary elements or,
    as the interface description allows, a single string.  What the date
    step does with a [document_date] of another type is followed separately,
    for [DateValue] below. *)

Inductive JsText : Type :=
| TUndefined
| TNull
| TString (s : jsstring).

Inductive JsElem : Type :=
| EString (s : jsstring)
| ENonString.

Inductive JsAuthors : Type :=
| AUndefined
| ANull
| AString (s : jsstring)
| AArray (xs : list JsElem).

Record LlmObject : Type := mkLlm {
  document_type : JsText;
  authors : JsAuthors;
  document_date : JsText;
  summary : JsText;
  methods_summary : JsText;
  findings_summary : JsText
}.

Inductive Llm : Type :=
| LlmNull
| LlmUndefined
| LlmObj (o : LlmObject).

(** [llm.f]: reading a property of [null] or [undefined] throws. *)
Definition getProp {A : Type} (f : LlmObject -> A) (l : Llm) : result A :=
  match l with
  | LlmObj o => Ok (f o)
  | LlmNull | LlmUndefined => Throw TypeError
  end.

(** [llm?.f] *)
Definition getPropOpt (f : LlmObject -> JsText) (l : Llm) : JsText :=
  match l with
  | LlmObj o => f o
  | LlmNull | LlmUndefined => TUndefined
  end.

(** A [string | null] value read from a text field: [undefined] and [null]
    both behave as [null] wherever the program looks at them. *)
Definition textOrNull (t : JsText) : option jsstring :=
  match t with
  | TString s => Some s
  | TUndefined | TNull => None
  end.

(** Truthiness of a [string | null] value. *)
Definition truthy (v : option jsstring) : bool :=
  match v with
  | Some (_ :: _) => true
  | _ => false
  end.

(** [v || ""] *)
Definition orEmpty (v : option jsstring) : jsstring :=
  match v with
  | Some s => s
  | None => []
  end.

(** Pattern pieces shared by the rules below. *)
Definition ws : regex := Chr CSpace.
Definition digit : regex := Chr CDigit.
Definition digits (lo hi : nat) : regex := Rep lo (Some hi) digit.
Definition word (w : string) : regex := seqs [WordB; Lit w; WordB].

(** ** src/utils.ts *)

(** [/(20\d{2}|19\d{2})/] *)
Definition year4 : regex :=
  Group (Alt (Seq (Lit "20") (digits 2 2)) (Seq (Lit "19") (digits 2 2))).

(** [[-\/.]] *)
Definition dateSep : regex :=
  Chr (unions [CChar 45; CChar 47; CChar 46]).

Definition reYearSepMonthSepDay : RegExp :=
  re (seqs [year4; dateSep; Group (digits 1 2); dateSep; Group (digits 1 2)]).

Definition reYear : RegExp := re year4.

Definition dash : jsstring := js "-".

Definition toISODate (s : option jsstring) : option jsstring :=
  if negb (truthy s) then None
  else
    match exec reYearSepMonthSepDay (orEmpty s) with
    | Some m1 =>
        let y := padStart0 4 (orEmpty (group m1 1)) in
        let mo := padStart0 2 (orEmpty (group m1 2)) in
        let d := padStart0 2 (orEmpty (group m1 3)) in
        Some (y ++ dash ++ mo ++ dash ++ d)
    | None =>
        match exec reYear (orEmpty s) with
        | Some m2 => Some (orEmpty (group m2 1) ++ js "-01-01")
        | None => None
        end
    end.

(** ** src/ensemble.ts *)

(** *** Preprint detection *)

Definition preprintCues : list RegExp :=
  [ re (word "preprint");
    re (Lit "has not been peer reviewed");
    re (word "ssrn");
    re (seqs [Lit "social"; Plus ws; Lit "science"; Plus ws; Lit "research";
              Plus ws; Lit "network"]);
    re (Alt (word "arxiv") (Lit "arxiv.org/abs/"));
    re (word "medrxiv");
    re (word "biorxiv");
    re (seqs [WordB; Lit "research"; Star ws; Lit "square"; WordB]);
    rei (seqs [Lit "electronic copy available at:"; Star ws; Lit "ssrn.com"]);
    rei (alts [Lit "this version posted";
               Lit "first posted";
               seqs [Lit "posted:"; Star ws; Plus (Chr CWord); Plus ws;
                     digits 1 2; Lit ","; Plus ws; digits 4 4]]) ].

(** [(sections.headerText || "") + "\n" + (sections.body || "")], lower-cased *)
Definition headerAndBody (sections : Sections) : jsstring :=
  toLowerCase (orEmpty (headerText sections) ++ js (String "010" "")
               ++ orEmpty (body sections)).

Definition preprintSignals (sections : Sections) : nat :=
  let t := headerAndBody sections in
  List.length (filter (fun x => test x t) preprintCues).

Definition Preprint : jsstring := js "Preprint".

Definition strongPreprintHeuristic (sections : Sections) : option jsstring :=
  if Nat.leb 2 (preprintSignals sections) then Some Preprint else None.

(** *** Doc-type normalization *)

Definition normalizeDocType (s : option jsstring) : option jsstring :=
  if negb (truthy s) then None
  else
    let t := toLowerCase (orEmpty s) in
    if includes t (js "preprint") then Some Preprint
    else if (includes t (js "conference") || includes t (js "proceedings")
             || includes t (js "abstract"))%bool
    then Some (js "Conference Paper")
    else if includes t (js "journal") then Some (js "Journal Article")
    else if (includes t (js "thesis") || includes t (js "dissertation"))%bool
    then Some (js "Thesis")
    else Some (trim (orEmpty s)).

(** *** Person-name heuristics *)

Definition ORG_WORDS : list string :=
  [ "university"; "univ"; "institute"; "department"; "dept"; "school";
    "college"; "laboratory";
    "centre"; "center"; "hospital"; "clinic"; "commission"; "authority";
    "ministry"; "agency";
    "federal"; "court"; "board"; "foundation"; "trust"; "unit"; "division";
    "bureau"; "office";
    "medicine"; "medical"; "health"; "healthcare"; "science"; "sciences";
    "research";
    "perinatal"; "neonatal"; "pediatrics"; "pediatric"; "childrens";
    "children's";
    "london"; "ontario"; "canada"; "united"; "kingdom"; "usa" ].

Definition DOC_LABELS : list string :=
  [ "original article"; "research article"; "review article";
    "systematic review";
    "meta-analysis"; "meta analysis"; "brief report"; "short report";
    "short communication";
    "case report"; "editorial"; "commentary"; "perspective"; "viewpoint";
    "protocol";
    "special article"; "open access"; "letter to the editor";
    "technical note";
    "methods article"; "article info"; "article information";
    "article history";
    "how to cite"; "correspondence" ].

(** [/\s+/g] replaced by one space *)
Definition collapseSpaces (s : jsstring) : jsstring :=
  replaceAll (re (Plus ws)) (js " ") s.

Definition isDocLabelLine (s : jsstring) : bool :=
  let x := collapseSpaces (toLowerCase s) in
  existsb (fun p => includes x (js p)) DOC_LABELS.

Definition hasOrgCue (s : jsstring) : bool :=
  let x := toLowerCase s in
  existsb (fun w => test (rei (word w)) x) ORG_WORDS.

(** [/^\s*by\s+/i] *)
Definition reLeadingBy : RegExp :=
  rei (seqs [Bol; Star ws; Lit "by"; Plus ws]).

Definition upperAZ : cset := CRange 65 90.
Definition lowerAZ : cset := CRange 97 122.

(** The three person-like token shapes. *)
Definition tokenOK (tok : jsstring) : bool :=
  (test (re (seqs [Bol; Chr upperAZ;
                   Plus (Chr (unions [lowerAZ; CChar 39; CChar 8217; CChar 45]));
                   Eol])) tok
   || test (re (seqs [Bol; Chr upperAZ; Lit "."; Eol])) tok
   || test (re (seqs [Bol; Chr upperAZ; Plus (Chr lowerAZ); Lit "-";
                      Chr upperAZ; Plus (Chr lowerAZ); Eol])) tok)%bool.

Definition nonEmpty (s : jsstring) : bool :=
  match s with [] => false | _ :: _ => true end.

Definition isLikelyPersonName (s : jsstring) : bool :=
  let name := trim (replaceFirst reLeadingBy [] s) in
  if (isDocLabelLine name || hasOrgCue name)%bool then false
  else
    let tokens := filter nonEmpty (split (re (Plus ws)) name) in
    if (Nat.ltb (List.length tokens) 2 || Nat.ltb 5 (List.length tokens))%bool
    then false
    else
      let good := List.length (filter tokenOK tokens) in
      Nat.leb (Nat.max 2 (List.length tokens - 1)) good.

(** [/\s*,\s*(PhD|MSc|BSc|MD|MPH|MBA|Ph\.?D\.?)\b/gi] *)
Definition dropDegree : RegExp :=
  rei (seqs [Star ws; Lit ","; Star ws;
             Group (alts [Lit "PhD"; Lit "MSc"; Lit "BSc"; Lit "MD"; Lit "MPH";
                          Lit "MBA";
                          seqs [Lit "Ph"; Opt (Lit "."); Lit "D"; Opt (Lit ".")]]);
             WordB]).

(** The loop that removes repeated names, keyed by the lower-cased name; the
    [Set] of seen keys is kept as a list. *)
Fixpoint dedupe (seen : list jsstring) (xs : list jsstring) : list jsstring :=
  match xs with
  | [] => []
  | n :: xs' =>
      let key := toLowerCase n in
      if existsb (str_eqb key) seen then dedupe seen xs'
      else n :: dedupe (key :: seen) xs'
  end.

Definition elemString (e : JsElem) : jsstring :=
  match e with
  | EString s => s
  | ENonString => []
  end.

(** Clean and dedupe an author list.  A non-empty string has a truthy
    [length] but no [map] method, so calling it throws. *)
Definition cleanAuthors (a : JsAuthors) : result (option (list jsstring)) :=
  match a with
  | AUndefined | ANull => Ok None
  | AString [] => Ok None
  | AString (_ :: _) => Throw TypeError
  | AArray [] => Ok None
  | AArray xs =>
      let normalized :=
        filter isLikelyPersonName
          (filter (fun s => negb (isDocLabelLine s))
             (filter (fun s => Nat.leb 3 (List.length s))
                (List.map
                   (fun s => trim (collapseSpaces
                                (replaceFirst reLeadingBy []
                                   (replaceAll dropDegree [] s))))
                   (List.map elemString xs)))) in
      let out := dedupe [] normalized in
      Ok (match out with
          | [] => None
          | _ :: _ => Some (firstn 24 out)
          end)
  end.

(** *** Numbers

    Confidences and fitness values are decimal literals compared with [>],
    [===] and [Math.max]; rationals give the same comparisons. *)

Definition num_gt (a b : Q) : bool := negb (Qle_bool a b).
Definition num_eq (a b : Q) : bool := Qeq_bool a b.

(** [Math.max(a, b)] *)
Definition mathMax (a b : Q) : Q := if Qle_bool a b then b else a.

(** [x || 0] *)
Definition orZero (x : Q) : Q := if Qeq_bool x 0 then 0%Q else x.

(** *** Generic text field scorer *)

Definition qualityTextField (v : option jsstring) (prov : Provenance)
  : Field jsstring :=
  let txt := if truthy v then Some (trim (collapseSpaces (orEmpty v))) else None in
  let hasLetters :=
    (truthy txt && test (rei (Chr lowerAZ)) (orEmpty txt))%bool in
  let len := match txt with Some t => List.length t | None => 0 end in
  let confidence := 0.5%Q in
  let confidence :=
    if (hasLetters && Nat.leb 30 len)%bool then 0.85%Q else confidence in
  let confidence :=
    if Nat.ltb 1200 len then mathMax confidence 0.9 else confidence in
  let capped :=
    if (truthy txt && Nat.ltb 1200 (List.length (orEmpty txt)))%bool
    then Some (slice (orEmpty txt) 0 1200)
    else if truthy txt then txt else None in
  mkField capped confidence prov.

(** *** Guess doc type from text *)

Definition guessDocumentType (sections : Sections) : jsstring :=
  let t := toLowerCase (orEmpty (headerText sections)) in
  if Nat.leb 2 (preprintSignals sections) then Preprint
  else if test (re (Alt (word "arxiv") (Lit "arxiv.org/abs/"))) t then Preprint
  else if test (re (alts [Lit "proceedings of"; Seq (Lit "in:") ws;
                          Seq (Lit "acm") WordB; Seq (Lit "ieee") WordB;
                          Seq (Lit "springer") WordB; Seq (Lit "aaai") WordB;
                          Seq (Lit "neurips") WordB; Seq (Lit "icml") WordB;
                          Seq (Lit "iclr") WordB])) t
  then js "Conference Paper"
  else if (test (re (Lit "doi:10.")) t
           && test (re (Group (alts [Lit "vol."; Lit "issue"; Lit "journal";
                                     Lit "nature"; Lit "science"; Lit "elsevier";
                                     Lit "wiley"; Lit "springer"]))) t)%bool
  then js "Journal Article"
  else if test (re (Alt (Lit "thesis") (Lit "dissertation"))) t then js "Thesis"
  else js "Journal/Conference Article".

(** *** Date evidence and sanitizer *)

Definition evidenceVerb : regex :=
  alts [Lit "posted";
        seqs [Lit "this"; Plus ws; Lit "version"; Plus ws; Lit "posted"];
        Seq (Lit "published") (Opt (Seq (Plus ws) (Lit "online")));
        Lit "accepted";
        Lit "received";
        seqs [Lit "available"; Plus ws; Lit "online"];
        seqs [Lit "first"; Plus ws; Lit "published"];
        Seq (Lit "epub")
            (Opt (seqs [Plus ws; Lit "ahead"; Plus ws; Lit "of"; Plus ws;
                        Lit "print"]))].

Definition evidenceMonth : regex :=
  alts [Seq (Lit "jan") (Opt (Lit "uary"));
        Seq (Lit "feb") (Opt (Lit "ruary"));
        Seq (Lit "mar") (Opt (Lit "ch"));
        Seq (Lit "apr") (Opt (Lit "il"));
        Lit "may";
        Seq (Lit "jun") (Opt (Lit "e"));
        Seq (Lit "jul") (Opt (Lit "y"));
        Seq (Lit "aug") (Opt (Lit "ust"));
        Seq (Lit "sep") (Opt (Alt (Lit "t") (Lit "tember")));
        Seq (Lit "oct") (Opt (Lit "ober"));
        Seq (Lit "nov") (Opt (Lit "ember"));
        Seq (Lit "dec") (Opt (Lit "ember"))].

Definition dateMDY : regex :=
  seqs [evidenceMonth; Plus ws; digits 1 2; Lit ","; Star ws; digits 4 4].
Definition dateDMY : regex :=
  seqs [digits 1 2; Plus ws; evidenceMonth; Plus ws; digits 4 4].
Definition dateISO : regex :=
  seqs [digits 4 4; Lit "-"; digits 2 2; Lit "-"; digits 2 2].

(** [verb \s* [:\-\u2013]? \s* (?: MDY | DMY | ISO )], with the [i] flag *)
Definition evidencePattern : RegExp :=
  rei (seqs [evidenceVerb; Star ws;
             Opt (Chr (unions [CChar 58; CChar 45; CChar 8211]));
             Star ws; alts [dateMDY; dateDMY; dateISO]]).

Definition hasPostedDateEvidence (sections : Sections) : bool :=
  test evidencePattern (headerAndBody sections).

(** Unary [+] on a string of decimal digits. *)
Definition toNumber (s : jsstring) : Z := Z.of_N (digitsValue s 0).

(** [/^\d{4}$/], [/^\d{4}-\d{2}$/], [/^\d{4}-\d{2}-\d{2}$/] *)
Definition reYearOnly : RegExp := re (seqs [Bol; digits 4 4; Eol]).
Definition reYearMonth : RegExp :=
  re (seqs [Bol; digits 4 4; Lit "-"; digits 2 2; Eol]).
Definition reDay : RegExp :=
  re (seqs [Bol; digits 4 4; Lit "-"; digits 2 2; Lit "-"; digits 2 2; Eol]).

(** [/^(\d{4})-(\d{2})(?:-(\d{2}))?$/] *)
Definition reISOParts : RegExp :=
  re (seqs [Bol; Group (digits 4 4); Lit "-"; Group (digits 2 2);
            Opt (Seq (Lit "-") (Group (digits 2 2))); Eol]).

Definition isValidISO (iso : jsstring) : bool :=
  if test reYearOnly iso then true
  else
    match exec reISOParts iso with
    | None => false
    | Some m =>
        let year := toNumber (orEmpty (group m 1)) in
        let month := toNumber (orEmpty (group m 2)) in
        let day := if truthy (group m 3)
                   then Some (toNumber (orEmpty (group m 3))) else None in
        if ((month <? 1) || (month >? 12))%Z then false
        else
          match day with
          | None => true
          | Some day =>
              if ((day <? 1) || (day >? 31))%Z then false
              else
                let d := JsDate.make year (month - 1) day in
                if (negb (JsDate.getFullYear d =? year)
                    || negb (JsDate.getMonth d =? month - 1)
                    || negb (JsDate.getDate d =? day))%Z
                then false else true
          end
    end.

(** [/^(\d{4})(?:-(\d{2})(?:-(\d{2}))?)?$/] *)
Definition isoLike : RegExp :=
  re (seqs [Bol; Group (digits 4 4);
            Opt (seqs [Lit "-"; Group (digits 2 2);
                       Opt (Seq (Lit "-") (Group (digits 2 2)))]);
            Eol]).

(** [/^\d{4}(-\d{2}(-\d{2})?)?$/] *)
Definition reISOShape : RegExp :=
  re (seqs [Bol; digits 4 4;
            Opt (Group (seqs [Lit "-"; digits 2 2;
                              Opt (Group (Seq (Lit "-") (digits 2 2)))]));
            Eol]).

(** [/^(\d{4}-\d{2})-/] *)
Definition reYearMonthPrefix : RegExp :=
  re (seqs [Bol; Group (seqs [digits 4 4; Lit "-"; digits 2 2]); Lit "-"]).

(** [now] is [new Date().getFullYear()]. *)
Definition sanitizeDocumentDate (now : Z) (dateStr : option jsstring)
    (sections : Sections) (forceAcceptDayFromHeader : bool) : option jsstring :=
  if negb (truthy dateStr) then None
  else
    let iso := if test isoLike (orEmpty dateStr) then dateStr
               else toISODate dateStr in
    if negb (truthy iso) then None
    else
      let iso := orEmpty iso in
      if negb (test reISOShape iso) then None
      else
        let y := parseInt (slice iso 0 4) in
        if match y with
           | Some v => ((v <? 1900) || (v >? now + 1))%Z
           | None => false
           end
        then None
        else
          let hasDay := test reDay iso in
          if (hasDay && negb (hasPostedDateEvidence sections)
              && negb forceAcceptDayFromHeader)%bool
          then
            match exec reYearMonthPrefix iso with
            | Some ym => group ym 1
            | None => Some (match y with
                            | Some v => stringOfZ v
                            | None => js "NaN"
                            end)
            end
          else if isValidISO iso then Some iso else None.

(** *** Candidate chooser *)

Section ChooseField.

Variable T : Type.
Variable fitness : option T -> Q.

(** The test of the loop body: does candidate [c] replace [best]? *)
Definition replaces (best c : Field T) : bool :=
  let fBest := fitness (value best) in
  let fCand := fitness (value c) in
  (num_gt fCand fBest
   || (num_eq fCand fBest
       && num_gt (orZero (confidence c)) (orZero (confidence best))))%bool.

Definition chooseStep (best c : Field T) : Field T :=
  if replaces best c then c else best.

(** [cands[0]] of an empty array is [undefined], whose [provenance] cannot be
    read. *)
Definition chooseField (cands : list (Field T)) : result (Field T) :=
  match cands with
  | [] => Throw TypeError
  | c0 :: rest =>
      let best := fold_left chooseStep rest c0 in
      Ok (mkField (value best) (confidence best) (provenance best))
  end.

End ChooseField.

(** *** Fusion *)

Record FusedMetadata : Type := mkFused {
  fused_document_type : Field jsstring;
  fused_authors : Field (list jsstring);
  fused_document_date : Field jsstring;
  fused_summary : Field jsstring;
  fused_methods_summary : Field jsstring;
  fused_findings_summary : Field jsstring
}.

(** [parser?.method || "heuristic"] *)
Definition methodOrHeuristic (parser : option ParsedDoc) : Provenance :=
  match parser with
  | Some p => method p
  | None => heuristic
  end.

(** [a || b || null] on strings *)
Definition firstTruthy (a b : option jsstring) : option jsstring :=
  if truthy a then a else if truthy b then b else None.

(** [a || b || null] on arrays: every array is truthy. *)
Definition firstArray (a b : option (list jsstring)) : option (list jsstring) :=
  match a with
  | Some _ => a
  | None => b
  end.

Definition asAuthors (a : option (list jsstring)) : JsAuthors :=
  match a with
  | Some xs => AArray (List.map EString xs)
  | None => ANull
  end.

Definition docTypeFitness (v : option jsstring) : Q :=
  if truthy v then 1%Q else 0%Q.

Definition authorsFitness (v : option (list jsstring)) : Q :=
  match v with
  | Some (_ :: _) => 1%Q
  | _ => 0%Q
  end.

Definition dateFitness (v : option jsstring) : Q :=
  if negb (truthy v) then 0%Q
  else if test reDay (orEmpty v) then 1%Q
  else if test reYearMonth (orEmpty v) then 0.8%Q
  else if test reYearOnly (orEmpty v) then 0.6%Q
  else 0.4%Q.

(** Step 1 up to the generic chooser: the document type it selects. *)
Definition chosenDocType (parser : option ParsedDoc) (l : Llm)
    (sections : Sections) : result (Field jsstring) :=
  let heuristicType := guessDocumentType sections in
  llmType <- getProp document_type l ;;
  chooseField docTypeFitness
    [ mkField (normalizeDocType (textOrNull llmType)) 0.7%Q llm;
      mkField (Some heuristicType) 0.6%Q (methodOrHeuristic parser) ].

(** The override applied to the chosen document type. *)
Definition preprintOverride (sections : Sections) (docType : Field jsstring)
  : Field jsstring :=
  let strongPreprint := strongPreprintHeuristic sections in
  if (truthy strongPreprint
      && negb (match value docType with
               | Some v => str_eqb v Preprint
               | None => false
               end))%bool
  then mkField (Some Preprint) (mathMax (confidence docType) 0.9) heuristic
  else docType.

(** [!!parser?.meta?.dateFromHeader] *)
Definition cameFromHeader (parser : option ParsedDoc) : bool :=
  match parser with
  | Some p =>
      match meta p with
      | Some m => match dateFromHeader m with Some b => b | None => false end
      | None => false
      end
  | None => false
  end.

Definition fuseCandidates (now : Z) (base : Candidates)
    (parser : option ParsedDoc) (l : Llm) (sections : Sections)
  : result FusedMetadata :=
  (* 1) Document type *)
  docType <- chosenDocType parser l sections ;;
  let docType := preprintOverride sections docType in
  (* 2) Authors *)
  let authorsParsedRaw :=
    firstArray (match parser with
                | Some p => cand_authors (candidates p)
                | None => None
                end) (cand_authors base) in
  authorsParsed <- cleanAuthors (asAuthors authorsParsedRaw) ;;
  llmAuthors <- getProp authors l ;;
  authorsLLM <- cleanAuthors llmAuthors ;;
  authorsField <-
    chooseField authorsFitness
      [ mkField authorsParsed
          (match authorsParsed with Some _ => 0.96%Q | None => 0.2%Q end)
          (methodOrHeuristic parser);
        mkField authorsLLM
          (match authorsLLM with Some _ => 0.72%Q | None => 0.3%Q end)
          llm ] ;;
  (* 3) Document date *)
  let dateParsedRaw :=
    firstTruthy (match parser with
                 | Some p => cand_document_date (candidates p)
                 | None => None
                 end) (cand_document_date base) in
  let dateLLMRaw := textOrNull (getPropOpt document_date l) in
  let fromHeader := cameFromHeader parser in
  let dateParsed := sanitizeDocumentDate now dateParsedRaw sections fromHeader in
  let dateLLM := sanitizeDocumentDate now dateLLMRaw sections false in
  datePicked <-
    chooseField dateFitness
      [ mkField dateParsed (if truthy dateParsed then 0.92%Q else 0.2%Q)
          (methodOrHeuristic parser);
        mkField dateLLM (if truthy dateLLM then 0.7%Q else 0.3%Q) llm ] ;;
  let finalSanitized :=
    sanitizeDocumentDate now (value datePicked) sections fromHeader in
  let datePicked :=
    mkField finalSanitized
      (if truthy finalSanitized then confidence datePicked else 0.2%Q)
      (provenance datePicked) in
  (* 4) Summaries *)
  vSummary <- getProp summary l ;;
  vMethods <- getProp methods_summary l ;;
  vFindings <- getProp findings_summary l ;;
  Ok (mkFused docType authorsField datePicked
        (qualityTextField (textOrNull vSummary) llm)
        (qualityTextField (textOrNull vMethods) llm)
        (qualityTextField (textOrNull vFindings) llm)).

(** ** src/parsers/pdf.ts *)

(** *** Author zone selection *)

Definition newline : jsstring := js (String "010" "").

(** [s.split(/\r?\n/).map(s => s.trim()).filter(Boolean)] *)
Definition toLines (s : jsstring) : list jsstring :=
  filter nonEmpty
    (List.map trim
       (split (re (Seq (Opt (Chr (CChar 13))) (Chr (CChar 10)))) s)).

Definition stopCues : list RegExp :=
  [ rei (seqs [Bol; Lit "abstract"; WordB]);
    rei (seqs [Bol; Lit "summary"; WordB]);
    rei (seqs [Bol; Lit "keyword"; Opt (Lit "s"); WordB]);
    rei (seqs [Bol; Lit "jel"; WordB]);
    rei (seqs [Bol; Lit "article ";
               alts [Lit "info"; Lit "information"; Lit "history"]; WordB]);
    rei (seqs [Bol; Lit "references"; WordB]);
    rei (seqs [Bol; Lit "bibliography"; WordB]);
    rei (seqs [Bol; Lit "introduction"; WordB]) ].

Definition ignoreAsTitle : list RegExp :=
  [ rei (Lit "electronic copy available at");
    rei (seqs [Lit "this "; Alt (Lit "paper") (Lit "version"); Lit " ";
               Opt (Lit "was "); Lit "posted"]);
    rei (Lit "ssrn");
    rei (seqs [Bol; Lit "open access"; Eol]) ].

Definition AFFIL_CUES : list RegExp :=
  [ rei (seqs [WordB;
               Group (alts [Lit "section"; Lit "department"; Lit "dept";
                            Lit "school"; Lit "college"; Lit "faculty";
                            Lit "division"; Lit "unit"; Lit "institute";
                            Lit "center"; Lit "centre"; Lit "laboratory";
                            Lit "lab"; Lit "hospital"; Lit "nhs"]);
               WordB]);
    rei (word "university");
    rei (alts [word "imperial"; word "london"; word "uk"]);
    rei (alts [word "campus"; word "road";
               seqs [WordB; Lit "st"; Opt (Lit "."); WordB];
               word "street"; word "road"]);
    rei (alts [word "chelsea"; seqs [WordB; Lit "sw"; digits 1 2; WordB]]);
    rei (word "corresponding author");
    rei (alts [Lit "@"; Lit "email"; Lit "telephone";
               Seq (Lit "tel") (Opt (Lit "."))]);
    re (seqs [Rep 2 None digit;
              Chr (unions [CChar 45; CChar 32; CChar 44]);
              Rep 2 None digit]) ].

Definition someMatch (rs : list RegExp) (s : jsstring) : bool :=
  existsb (fun x => test x s) rs.

Definition looksLikeAffil (s : jsstring) : bool := someMatch AFFIL_CUES s.

(** [(s.match(/[A-Za-z]/g) || []).length] *)
Definition countLetters (s : jsstring) : nat := List.length (filter isLetter s).

(** [letters / Math.max(1, s.length) >= 0.6]; on these small integers the
    rounded quotient compares with [0.6] as the exact one does. *)
Definition mostlyLetters (s : jsstring) : bool :=
  Nat.leb (6 * Nat.max 1 (List.length s)) (10 * countLetters s).

Definition isGoodTitle (s : jsstring) : bool :=
  if someMatch ignoreAsTitle s then false
  else if looksLikeAffil s then false
  else if test (re digit) s then false
  else
    let commaCount := List.length (filter (N.eqb 44) s) in
    if Nat.leb 3 commaCount then false
    else (Nat.leb 20 (List.length s) && mostlyLetters s)%bool.

(** The title loop over the first 20 lines: the state is [(titleIdx, bestLen)],
    with [None] for [-1]. *)
Fixpoint findTitle (ls : list jsstring) (i : nat) (n : nat)
    (titleIdx : option nat) (bestLen : nat) : option nat :=
  match n, ls with
  | S n', L :: ls' =>
      if negb (isGoodTitle L) then findTitle ls' (S i) n' titleIdx bestLen
      else if Nat.ltb bestLen (List.length L)
           then findTitle ls' (S i) n' (Some i) (List.length L)
           else findTitle ls' (S i) n' titleIdx bestLen
  | _, _ => titleIdx
  end.

Definition titleIndex (lines : list jsstring) : option nat :=
  findTitle lines 0 20 None 0.

Definition isStopCue (s : jsstring) : bool := someMatch stopCues s.

Definition looksLikeTitleContinuation (s : jsstring) : bool :=
  if negb (nonEmpty s) then false
  else if test (rei (seqs [Bol; Star ws; Lit "by"; WordB])) s then false
  else if isStopCue s then false
  else if looksLikeAffil s then false
  else if test (re (Chr (unions [CRange 48 57; CChar 64]))) s then false
  else if test (re (Chr (unions [CChar 44; CChar 58; CChar 59; CChar 124]))) s
  then false
  else
    let words := split (re (Plus ws)) s in
    if (Nat.ltb (List.length words) 2 || Nat.ltb 15 (List.length words))%bool
    then false
    else mostlyLetters s.

(** The loop that skips up to 3 title-continuation lines. *)
Fixpoint skipContinuations (ls : list jsstring) (i : nat) (budget : nat) : nat :=
  match budget, ls with
  | S b, L :: ls' =>
      if looksLikeTitleContinuation L then skipContinuations ls' (S i) b else i
  | _, _ => i
  end.

Definition zoneStart (lines : list jsstring) : nat :=
  match titleIndex lines with
  | Some t => skipContinuations (skipn (S t) lines) (S t) 3
  | None => 0
  end.

(** The search for the first stop cue among at most [n] lines from index [i]. *)
Fixpoint firstStopCue (ls : list jsstring) (i : nat) (n : nat) : option nat :=
  match n, ls with
  | S n', L :: ls' => if isStopCue L then Some i else firstStopCue ls' (S i) n'
  | _, _ => None
  end.

Definition zoneEnd (lines : list jsstring) (start : nat) : nat :=
  match firstStopCue (skipn start lines) start 40 with
  | Some i => i
  | None => Nat.min (List.length lines) (start + 12)
  end.

(** [lines.slice(a, b)] *)
Definition sliceLines (lines : list jsstring) (a b : nat) : list jsstring :=
  firstn (b - a) (skipn a lines).

Definition sliceAuthorZone (header : jsstring) : jsstring :=
  let lines := toLines header in
  let start := zoneStart lines in
  let stop := zoneEnd lines start in
  join newline (sliceLines lines start stop).

(** *** Date helpers *)

(** The [MONTH] pattern text; it carries its own capturing parentheses. *)
Definition MONTH : regex :=
  Group (alts [Seq (Lit "Jan") (Opt (Lit "uary"));
               Seq (Lit "Feb") (Opt (Lit "ruary"));
               Seq (Lit "Mar") (Opt (Lit "ch"));
               Seq (Lit "Apr") (Opt (Lit "il"));
               Lit "May";
               Seq (Lit "Jun") (Opt (Lit "e"));
               Seq (Lit "Jul") (Opt (Lit "y"));
               Seq (Lit "Aug") (Opt (Lit "ust"));
               Seq (Lit "Sep") (Opt (Alt (Lit "t") (Lit "tember")));
               Seq (Lit "Oct") (Opt (Lit "ober"));
               Seq (Lit "Nov") (Opt (Lit "ember"));
               Seq (Lit "Dec") (Opt (Lit "ember"))]).

Definition monthTable : list (string * string) :=
  [ ("january", "01"); ("february", "02"); ("march", "03"); ("april", "04");
    ("may", "05"); ("june", "06"); ("july", "07"); ("august", "08");
    ("september", "09"); ("sept", "09"); ("october", "10"); ("november", "11");
    ("december", "12") ].

Fixpoint lookupMonth (k : jsstring) (tbl : list (string * string))
  : option jsstring :=
  match tbl with
  | [] => None
  | (name, mm) :: tbl' =>
      if str_eqb k (js name) then Some (js mm) else lookupMonth k tbl'
  end.

(** [map[m.toLowerCase()]].  The argument is always text matched by [MONTH],
    so the properties every object inherits ([constructor], ...) are never
    looked up and the table alone decides. *)
Definition monthToMM (m : jsstring) : option jsstring :=
  lookupMonth (toLowerCase m) monthTable.

(** [new Date(y, m, 0).getDate()] is the number of days of month [m]. *)
Definition isValidYMD (y m d : Z) : bool :=
  if ((m <? 1) || (m >? 12))%Z then false
  else
    let dim := JsDate.getDate (JsDate.make y m 0) in
    ((1 <=? d) && (d <=? dim))%Z.

(** [toISO(y, m, d)]; a [NaN] year fails the [Number.isFinite] test, and a
    [NaN] day fails [isValidYMD]. *)
Definition toISO (now : Z) (y : jsstring) (m d : option jsstring)
  : option jsstring :=
  match parseInt y with
  | None => None
  | Some Y =>
      let nextYear := (now + 1)%Z in
      if ((Y <? 1900) || (Y >? nextYear))%Z then None
      else if negb (truthy m) then Some (stringOfZ Y)
      else
        match monthToMM (orEmpty m) with
        | None => Some (stringOfZ Y)
        | Some mm =>
            if negb (truthy d) then Some (stringOfZ Y ++ dash ++ mm)
            else
              match parseInt (orEmpty d) with
              | None => None
              | Some dn =>
                  let dd := padStart0 2 (stringOfZ dn) in
                  match parseInt mm, parseInt dd with
                  | Some mn, Some ddn =>
                      if negb (isValidYMD Y mn ddn) then None
                      else Some (stringOfZ Y ++ dash ++ mm ++ dash ++ dd)
                  | _, _ => None
                  end
              end
        end
  end.

Definition isDayISO (iso : option jsstring) : bool :=
  (truthy iso && test reDay (orEmpty iso))%bool.

(** [String(n).padStart(2, "0")] *)
Definition pad2 (n : Z) : jsstring := padStart0 2 (stringOfZ n).

(** [parseInt] of a captured run of digits. *)
Definition capInt (m : MatchResult) (i : nat) : Z :=
  match parseInt (orEmpty (group m i)) with
  | Some v => v
  | None => 0%Z
  end.

(** [/\b(20\d{2}|19\d{2})[-\/.](\d{1,2})[-\/.](\d{1,2})\b/] *)
Definition reNumYMD : RegExp :=
  re (seqs [WordB; year4; dateSep; Group (digits 1 2); dateSep;
            Group (digits 1 2); WordB]).

(** [/\b(\d{1,2})[-\/.](\d{1,2})[-\/.](20\d{2}|19\d{2})\b/] *)
Definition reNumABY : RegExp :=
  re (seqs [WordB; Group (digits 1 2); dateSep; Group (digits 1 2); dateSep;
            year4; WordB]).

(** [/\b(20\d{2}|19\d{2})[-\/.](\d{1,2})\b/] *)
Definition reNumYM : RegExp :=
  re (seqs [WordB; year4; dateSep; Group (digits 1 2); WordB]).

(** [/\b(20\d{2}|19\d{2})\b/] *)
Definition reNumY : RegExp := re (seqs [WordB; year4; WordB]).

(** The last two steps of [parseNumericDate]: year-month, then year only. *)
Definition parseYearMonthOrYear (s : jsstring) : option jsstring :=
  match
    match exec reNumYM s with
    | Some m =>
        let Y := capInt m 1 in
        let M := capInt m 2 in
        if ((1 <=? M) && (M <=? 12))%Z
        then Some (stringOfZ Y ++ dash ++ pad2 M) else None
    | None => None
    end
  with
  | Some r => Some r
  | None =>
      match exec reNumY s with
      | Some m => group m 1
      | None => None
      end
  end.

(** The second step: day-month-year or month-day-year with separators. *)
Definition parseDayMonthYear (s : jsstring) : option jsstring :=
  match exec reNumABY s with
  | Some m =>
      let a := capInt m 1 in
      let b := capInt m 2 in
      let Y := capInt m 3 in
      if ((a >? 12)%Z && isValidYMD Y b a)%bool
      then Some (stringOfZ Y ++ dash ++ pad2 b ++ dash ++ pad2 a)
      else if ((b >? 12)%Z && isValidYMD Y a b)%bool
      then Some (stringOfZ Y ++ dash ++ pad2 a ++ dash ++ pad2 b)
      else if ((1 <=? a) && (a <=? 12))%Z
      then Some (stringOfZ Y ++ dash ++ pad2 a)
      else None
  | None => None
  end.

(** Numeric forms with safe disambiguation. *)
Definition parseNumericDate (s : jsstring) : option jsstring :=
  match
    match exec reNumYMD s with
    | Some m =>
        let Y := capInt m 1 in
        let M := capInt m 2 in
        let D := capInt m 3 in
        if isValidYMD Y M D
        then Some (stringOfZ Y ++ dash ++ pad2 M ++ dash ++ pad2 D) else None
    | None => None
    end
  with
  | Some r => Some r
  | None =>
      match parseDayMonthYear s with
      | Some r => Some r
      | None => parseYearMonthOrYear s
      end
  end.

Definition looksLikeRef (s : jsstring) : bool :=
  (test (rei (alts [Seq WordB (Lit "doi:"); Lit "vol."; Lit "issue"; Lit "pages";
                    Lit "pp."; Seq (Lit "no.") WordB])) s
   || test (re (seqs [Bol; Lit "["; Plus digit; Lit "]"])) s
   || test (re (seqs [Bol; Chr upperAZ; Plus (Chr lowerAZ); Lit ","; Star ws;
                      Chr upperAZ; Lit "."])) s
   || test (re (seqs [Lit "("; digits 4 4; Lit ")"])) s
   || test (re (seqs [digits 4 4; Lit ";"; digit])) s
   || test (rei (alts [seqs [WordB; Lit "keyword"; Opt (Lit "s")]; Lit "abstract";
                       Lit "references"; Seq (Lit "bibliography") WordB])) s)%bool.

(** *** Ranked date detection *)

(** [[\s,.:/\-\u2013\u2014]*] *)
Definition datePunct : regex :=
  Star (Chr (unions [CSpace; CChar 44; CChar 46; CChar 58; CChar 47; CChar 45;
                     CChar 8211; CChar 8212])).

(** [(?:st|nd|rd|th)?] *)
Definition ordinal : regex :=
  Opt (alts [Lit "st"; Lit "nd"; Lit "rd"; Lit "th"]).

(** The three tolerant patterns.  Each wraps [MONTH] in a further pair of
    parentheses, so the month text is captured twice. *)
Definition reMDY : RegExp :=
  rei (seqs [WordB; Group MONTH; Opt (Lit "."); datePunct; Group (digits 1 2);
             ordinal; datePunct; Group (digits 4 4); WordB]).

Definition reDMY : RegExp :=
  rei (seqs [WordB; Group (digits 1 2); ordinal; datePunct; Group MONTH;
             Opt (Lit "."); datePunct; Group (digits 4 4); WordB]).

Definition reMY : RegExp :=
  rei (seqs [WordB; Group MONTH; Opt (Lit "."); datePunct; Group (digits 4 4);
             WordB]).

Definition cueRe : RegExp :=
  rei (seqs [WordB;
             Group (alts [seqs [Lit "this"; Plus ws; Lit "version"; Plus ws;
                                Lit "posted"];
                          Lit "posted";
                          seqs [Lit "published"; Plus ws; Lit "online"];
                          Lit "published";
                          seqs [Lit "available"; Plus ws; Lit "online"];
                          Lit "accepted";
                          Lit "received"]);
             WordB]).

(** One pass of the cue-window loop over a zone.  [z] is [zone.slice(searchFrom)];
    [Some r] means the function returned [r], [None] that the loop ended
    without a result.  Each round drops at least one code unit of [z]. *)
Fixpoint scanCues (now : Z) (fuel : nat) (z : jsstring)
  : option (option jsstring) :=
  match fuel with
  | O => None
  | S fuel' =>
      match exec cueRe z with
      | None => None
      | Some m =>
          let window := firstn 180 (skipn (index m) z) in
          match exec reMDY window with
          | Some mdy =>
              Some (toISO now (orEmpty (group mdy 3)) (group mdy 1) (group mdy 2))
          | None =>
              match exec reDMY window with
              | Some dmy =>
                  Some (toISO now (orEmpty (group dmy 3)) (group dmy 2)
                          (group dmy 1))
              | None =>
                  match exec reMY window with
                  | Some my =>
                      Some (toISO now (orEmpty (group my 2)) (group my 1) None)
                  | None =>
                      match parseNumericDate window with
                      | Some num => Some (Some num)
                      | None => scanCues now fuel' (skipn (S (index m)) z)
                      end
                  end
              end
          end
      end
  end.

Definition scanZone (now : Z) (zone : jsstring) : option (option jsstring) :=
  scanCues now (S (List.length zone)) zone.

Record Cand : Type := mkCand { cand_iso : jsstring; score : Q; ix : nat }.

(** [add(iso, score, ix)] *)
Definition add (iso : option jsstring) (sc : Q) (i : nat) : list Cand :=
  if truthy iso then [mkCand (orEmpty iso) sc i] else [].

(** The date shapes tried on a line, with their four scores; [None] when no
    shape is found and the next step of the callback runs. *)
Definition lineShapes (now : Z) (line : jsstring) (i : nat) (s1 s2 s3 s4 : Q)
  : option (list Cand) :=
  match exec reMDY line with
  | Some mdy =>
      Some (add (toISO now (orEmpty (group mdy 3)) (group mdy 1) (group mdy 2))
              s1 i)
  | None =>
      match exec reDMY line with
      | Some dmy =>
          Some (add (toISO now (orEmpty (group dmy 3)) (group dmy 2)
                       (group dmy 1)) s2 i)
      | None =>
          match exec reMY line with
          | Some my =>
              Some (add (toISO now (orEmpty (group my 2)) (group my 1) None) s3 i)
          | None =>
              match parseNumericDate line with
              | Some num => Some (add (Some num) s4 i)
              | None => None
              end
          end
      end
  end.

(** The callback of [lines.forEach]: the candidates one line contributes. *)
Definition lineCands (now : Z) (line : jsstring) (i : nat) : list Cand :=
  match
    (if test cueRe line then lineShapes now line i 1.0%Q 0.95%Q 0.85%Q 0.8%Q
     else None)
  with
  | Some cs => cs
  | None =>
      if looksLikeRef line then []
      else
        match lineShapes now line i 0.75%Q 0.72%Q 0.65%Q 0.55%Q with
        | Some cs => cs
        | None => []
        end
  end.

Fixpoint collectCands (now : Z) (ls : list jsstring) (i : nat) : list Cand :=
  match ls with
  | [] => []
  | line :: ls' => lineCands now line i ++ collectCands now ls' (S i)
  end.

(** [Math.max(0, 0.15 - ix * 0.002)] added to the score.  Scores are kept as
    rationals. *)
Definition withBonus (c : Cand) : Cand :=
  mkCand (cand_iso c)
    (score c + mathMax 0 (0.15 - inject_Z (Z.of_nat (ix c)) * 0.002))%Q (ix c).

(** The comparator [b.score - a.score || a.ix - b.ix] puts [a] before [b]. *)
Definition ranksBefore (a b : Cand) : bool :=
  (num_gt (score a) (score b)
   || (num_eq (score a) (score b) && Nat.ltb (ix a) (ix b)))%bool.

(** [cands.sort(...)[0]]: the candidate ranked before every other one. *)
Definition bestCand (cs : list Cand) : option Cand :=
  match cs with
  | [] => None
  | c :: cs' => Some (fold_left (fun best x => if ranksBefore x best then x else best) cs' c)
  end.

Definition findRankedDate (now : Z) (header full : jsstring) : option jsstring :=
  let H := slice header 0 (N.to_nat 12000) in
  let T := slice full 0 (N.to_nat 20000) in
  match scanZone now H with
  | Some r => r
  | None =>
      match scanZone now T with
      | Some r => r
      | None =>
          let lines := toLines H ++ firstn 80 (toLines T) in
          let cands := collectCands now lines 0 in
          match bestCand (List.map withBonus cands) with
          | None => None
          | Some c => if nonEmpty (cand_iso c) then Some (cand_iso c) else None
          end
      end
  end.

(** ** Vocabulary of the statements *)

(** The three ISO shapes, written out code unit by code unit. *)
Definition isYearShape (s : jsstring) : bool :=
  match s with
  | [a; b; c; d] => isDigit a && isDigit b && isDigit c && isDigit d
  | _ => false
  end.

Definition isMonthShape (s : jsstring) : bool :=
  match s with
  | [a; b; c; d; h; e; f] =>
      isDigit a && isDigit b && isDigit c && isDigit d && N.eqb 45 h
      && isDigit e && isDigit f
  | _ => false
  end.

Definition isDayShape (s : jsstring) : bool :=
  match s with
  | [a; b; c; d; h; e; f; h'; g; i] =>
      isDigit a && isDigit b && isDigit c && isDigit d && N.eqb 45 h
      && isDigit e && isDigit f && N.eqb 45 h' && isDigit g && isDigit i
  | _ => false
  end.

(** Four digits that begin with 19 or 20. *)
Definition isCenturyYear (s : jsstring) : bool :=
  match s with
  | [a; b; c; d] =>
      ((N.eqb 50 a && N.eqb 48 b) || (N.eqb 49 a && N.eqb 57 b))
      && isDigit c && isDigit d
  | _ => false
  end.

(** [parseInt(s.slice(0, 4), 10)], the year the sanitizer reads. *)
Definition yearOf (s : jsstring) : option Z := parseInt (slice s 0 4).

(** The first 19xx or 20xx run of digits in a text: [m2[1]] of [toISODate]. *)
Definition firstYear (s : jsstring) : option jsstring :=
  match exec reYear s with
  | Some m => group m 1
  | None => None
  end.

(** The value [iso] of [sanitizeDocumentDate] before its checks. *)
Definition normalizedDate (dateStr : option jsstring) : option jsstring :=
  if test isoLike (orEmpty dateStr) then dateStr else toISODate dateStr.

Definition yearInRange (now : Z) (s : jsstring) : bool :=
  match yearOf s with
  | Some v => ((1900 <=? v) && (v <=? now + 1))%Z
  | None => true
  end.

(** ** Further vocabulary and example inputs *)

(** [new Date(y, m - 1, d)] reads back as year [y], month [m], day [d]. *)
Definition roundTrips (y m d : Z) : bool :=
  let t := JsDate.make y (m - 1) d in
  ((JsDate.getFullYear t =? y) && (JsDate.getMonth t =? m - 1)
   && (JsDate.getDate t =? d))%Z.

(** One of the separators [-], [/], [.] *)
Definition isDateSep (c : N) : bool :=
  (N.eqb 45 c || N.eqb 47 c || N.eqb 46 c)%bool.

(** One or two digits. *)
Definition isDigits12 (s : jsstring) : bool :=
  match s with
  | [a] => isDigit a
  | [a; b] => isDigit a && isDigit b
  | _ => false
  end.

(** Candidate [c] is strictly better than [b]: greater fitness, or equal
    fitness and greater stated confidence. *)
Definition beats (T : Type) (fitness : option T -> Q) (c b : Field T) : Prop :=
  (fitness (value b) < fitness (value c))%Q
  \/ ((fitness (value c) == fitness (value b))%Q
      /\ (confidence b < confidence c)%Q).

Arguments beats T fitness c b : clear implicits.

Definition textLines (ls : list string) : jsstring :=
  join newline (List.map js ls).

Definition noEvidence : Sections :=
  mkSections (Some (js "no evidence")) (Some (js "no evidence")).

Definition emptyLlm : LlmObject :=
  mkLlm TUndefined AUndefined TUndefined TUndefined TUndefined TUndefined.

Definition noCandidates : Candidates := mkCandidates None None.

Definition preprintSections : Sections :=
  mkSections (Some (js "arXiv preprint, not peer reviewed"))
             (Some (js "arXiv preprint, not peer reviewed")).

Definition journalLlm : LlmObject :=
  mkLlm (TString (js "Journal Article")) AUndefined TUndefined TUndefined
        TUndefined TUndefined.

Definition dayParser : ParsedDoc :=
  mkParsedDoc heuristic
    (mkCandidates (Some [js "Jane Doe"]) (Some (js "2024-05-13"))) None.

(** A header whose first stop cue comes 15 lines after the title. *)
Definition longZoneHeader : jsstring :=
  textLines
    [ "Heuristic Extraction of Bibliographic Metadata";
      "Jane Doe1, John Smith2, Mary Major3";
      "1 Physics, Alpha Academy"; "2 Chemistry, Beta Academy";
      "3 Biology, Gamma Academy"; "4 Geology, Delta Academy";
      "5 Botany, Epsilon Academy"; "6 Zoology, Zeta Academy";
      "7 Ecology, Eta Academy"; "8 Optics, Theta Academy";
      "9 Acoustics, Iota Academy"; "10 Genetics, Kappa Academy";
      "11 Anatomy, Lambda Academy"; "12 Virology, Mu Academy";
      "13 Oncology, Nu Academy";
      "Abstract";
      "We study the extraction of metadata." ].

(** ** Further functions of the repository, and vocabulary for their
    properties *)

(** The raw author list handed to the cleaner: the parser's, else the base
    record's. *)
Definition parsedAuthorsRaw (base : Candidates) (parser : option ParsedDoc)
  : JsAuthors :=
  asAuthors (firstArray match parser with
                        | Some p => cand_authors (candidates p)
                        | None => None
                        end (cand_authors base)).

(** The two date candidates of the fusion, before sanitizing. *)
Definition parsedDateRaw (base : Candidates) (parser : option ParsedDoc)
  : option jsstring :=
  firstTruthy (match parser with
               | Some p => cand_document_date (candidates p)
               | None => None
               end) (cand_document_date base).

Definition llmDateRaw (l : Llm) : option jsstring :=
  textOrNull (getPropOpt document_date l).

(** *** What a successful run of the matcher establishes

    A state of the matcher: the code unit before the position, the offset,
    the rest of the input and the captures. *)
Definition mstate : Type := (option N * nat * jsstring * caps)%type.

(** Iterations of a quantified sub-pattern. *)
Inductive iter (P : mstate -> mstate -> Prop)
  : nat -> option nat -> mstate -> mstate -> Prop :=
| iter_stop mn mx st : mn = 0%nat \/ mx = Some 0%nat -> iter P mn mx st st
| iter_step mn mx st st1 st2 :
    mx <> Some 0%nat -> P st st1 ->
    iter P (Nat.pred mn) (option_map Nat.pred mx) st1 st2 ->
    iter P mn mx st st2.

(** [matches ic r base st st']: the pattern [r] can take the matcher from
    [st] to [st']. *)
Fixpoint matches (ic : bool) (r : regex) (base : nat) (st st' : mstate) : Prop :=
  match r with
  | Eps => st' = st
  | Chr cs =>
      exists a s', snd (fst st) = a :: s' /\ cmem ic cs a = true
                   /\ st' = (Some a, S (snd (fst (fst st))), s', snd st)
  | Seq r1 r2 =>
      exists st1, matches ic r1 base st st1
                  /\ matches ic r2 (base + ngroups r1) st1 st'
  | Alt r1 r2 =>
      matches ic r1 base st st' \/ matches ic r2 (base + ngroups r1) st st'
  | Group r1 =>
      exists st1, matches ic r1 (S base) st st1
        /\ st' = (fst (fst (fst st1)), snd (fst (fst st1)), snd (fst st1),
                  setCap base (Some (snd (fst (fst st)), snd (fst (fst st1))))
                    (snd st1))
  | Bol => fst (fst (fst st)) = None /\ st' = st
  | Eol => snd (fst st) = [] /\ st' = st
  | WordB =>
      xorb (isWordOpt (fst (fst (fst st)))) (isWordHead (snd (fst st))) = true
      /\ st' = st
  | Rep mn mx r1 =>
      iter (fun a b =>
              matches ic r1 base
                (fst (fst (fst a)), snd (fst (fst a)), snd (fst a),
                 clearCaps base (ngroups r1) (snd a)) b)
        mn mx st st'
  end.

(** One of the three month-name patterns of [findRankedDate] matches. *)
Definition hasMonthNameDate (s : jsstring) : bool :=
  (test reMDY s || test reDMY s || test reMY s)%bool.

(** A header and a text for the ranked date detector: a cue followed by a
    date with a month name, and a numeric date further down. *)
Definition cueThenMonthName : jsstring :=
  textLines [ "A Study of Things"; "Published online: March 12, 2021";
              "Received 2021-03-01" ].

(** The Gregorian calendar, against which the two validity checks of the
    repository are compared. *)
Definition isLeapYear (y : Z) : bool :=
  ((y mod 4 =? 0) && (negb (y mod 100 =? 0) || (y mod 400 =? 0)))%Z.

Definition daysInMonth (y m : Z) : Z :=
  if (m =? 2)%Z then (if isLeapYear y then 29 else 28)%Z
  else if ((m =? 4) || (m =? 6) || (m =? 9) || (m =? 11))%Z then 30%Z
  else 31%Z.

(** The lines of the author zone, before they are joined. *)
Definition authorZoneLines (header : jsstring) : list jsstring :=
  let lines := toLines header in
  sliceLines lines (zoneStart lines) (zoneEnd lines (zoneStart lines)).

(** ** src/llm/index.ts: merging the two answers of the language model *)

Module LlmIndex.

(** A value of type [any], as far as the merge helpers distinguish: a
    string, an array, or anything else ([VOther] stands for numbers, booleans
    and objects that are not arrays). *)
Inductive JsAny : Type :=
| VUndefined
| VNull
| VString (s : jsstring)
| VArray (xs : list JsElem)
| VOther.

(** [String.prototype.toUpperCase].  Exact on Basic Latin; [cleanAuthors]
    applies it only to names made of ASCII letters, apostrophes, hyphens,
    periods and single spaces. *)
Definition toUpperCase (s : jsstring) : jsstring :=
  List.map (fun c => if isLower c then (c - 32)%N else c) s.

(** [s.replace(x, f)] with the [g] flag and a callback [f] on the matched
    text. *)
Fixpoint replaceFromBy (x : RegExp) (f : jsstring -> jsstring) (prev : option N)
    (s : jsstring) (skip : nat) {struct s} : jsstring :=
  match s with
  | [] =>
      match skip with
      | O => match matchAt x prev [] with Some _ => f [] | None => [] end
      | S _ => []
      end
  | a :: s' =>
      match skip with
      | S n => replaceFromBy x f (Some a) s' n
      | O =>
          match matchAt x prev s with
          | Some (S n, _) => f (firstn (S n) s) ++ replaceFromBy x f (Some a) s' n
          | Some (O, _) => f [] ++ a :: replaceFromBy x f (Some a) s' 0
          | None => a :: replaceFromBy x f (Some a) s' 0
          end
      end
  end.

Definition replaceAllBy (x : RegExp) (f : jsstring -> jsstring) (s : jsstring)
  : jsstring :=
  replaceFromBy x f None s 0.

(** [typeof x === "string" && x.trim().length > 0] *)
Definition isNonEmptyString (x : JsAny) : bool :=
  match x with
  | VString s => nonEmpty (trim s)
  | _ => false
  end.

(** [isNonEmptyString(v) ? v.trim() : ""] *)
Definition trimmedOrEmpty (x : JsAny) : jsstring :=
  if isNonEmptyString x
  then match x with VString s => trim s | _ => [] end
  else [].

Definition pickString (aVal bVal : JsAny) : option jsstring :=
  let aStr := trimmedOrEmpty aVal in
  let bStr := trimmedOrEmpty bVal in
  if (nonEmpty aStr && negb (nonEmpty bStr))%bool then Some aStr
  else if (negb (nonEmpty aStr) && nonEmpty bStr)%bool then Some bStr
  else if (negb (nonEmpty aStr) && negb (nonEmpty bStr))%bool then None
  else if Nat.leb (List.length bStr) (List.length aStr) then Some aStr
  else Some bStr.

(** [/\s*,\s*|\s*;\s*|\s+and\s+/i] *)
Definition nameSeparator : RegExp :=
  rei (alts [seqs [Star ws; Lit ","; Star ws];
             seqs [Star ws; Lit ";"; Star ws];
             seqs [Plus ws; Lit "and"; Plus ws]]).

(** [/[¹²³⁰-⁹]/g] *)
Definition superscripts : RegExp :=
  re (Chr (unions [CChar 185; CChar 178; CChar 179; CRange 8304 8313])).

(** [/\^?\d+/g] *)
Definition footnoteDigits : RegExp := re (seqs [Opt (Lit "^"); Plus digit]).

Definition DEGREE : RegExp :=
  rei (seqs [WordB;
             Group (alts [Lit "PhD"; Lit "DPhil"; Lit "MSc"; Lit "MS"; Lit "BSc";
                          Lit "BS"; Lit "MD"; Lit "DO"; Lit "MPH"; Lit "MBA";
                          Lit "RN"; Lit "RM"; Lit "FMedSci"; Lit "FRCP";
                          Lit "FRCS"; Lit "FRCPath"; Lit "FRCA"; Lit "FRCPC";
                          Lit "DDS"; Lit "DMD"; Seq (Lit "Prof") (Opt (Lit "."))]);
             WordB; Opt (Lit ".")]).

Definition ORG_OR_GEO_LAST_TOK : RegExp :=
  rei (seqs [Bol;
             Group (alts [Lit "University"; Lit "College"; Lit "School";
                          Lit "Hospital"; Lit "Centre"; Lit "Center";
                          Lit "Institute"; Lit "Laboratory"; Lit "Lab";
                          Lit "Department"; Lit "Dept"; Lit "Faculty";
                          Lit "District"; Lit "Province"; Lit "City";
                          Lit "Region"; Lit "Campus"; Lit "Authority";
                          Lit "Bureau"; Lit "Committee"]);
             Eol]).

(** [/[,@]\s*(univ|dept|hospital|school|center|centre|institute)/i] *)
Definition affiliationTail : RegExp :=
  rei (seqs [Chr (unions [CChar 44; CChar 64]); Star ws;
             Group (alts [Lit "univ"; Lit "dept"; Lit "hospital"; Lit "school";
                          Lit "center"; Lit "centre"; Lit "institute"])]).

(** [/\b(department|university|school|hospital|centre|center|institute|laboratory)\b/i] *)
Definition affiliationWord : RegExp :=
  rei (seqs [WordB;
             Group (alts [Lit "department"; Lit "university"; Lit "school";
                          Lit "hospital"; Lit "centre"; Lit "center";
                          Lit "institute"; Lit "laboratory"]);
             WordB]).

(** [/^(?:[A-Z][a-zA-Z'’\-]+|[A-Z]\.)$/] *)
Definition nameToken : RegExp :=
  re (seqs [Bol;
            Alt (Seq (Chr upperAZ)
                     (Plus (Chr (unions [lowerAZ; upperAZ; CChar 39; CChar 8217;
                                         CChar 45]))))
                (Seq (Chr upperAZ) (Lit "."));
            Eol]).

(** The chain of replacements applied to each entry. *)
Definition normalizeEntry (s : jsstring) : jsstring :=
  trim
    (replaceAll (re (Plus ws)) (js " ")
       (replaceAll (re (Chr (CChar 124))) (js ",")
          (replaceAll DEGREE []
             (replaceAll footnoteDigits []
                (replaceAll superscripts [] s))))).

(** The filter that keeps what looks like a personal name. *)
Definition looksPersonal (s : jsstring) : bool :=
  let toks := split (re (Plus ws)) s in
  if (Nat.ltb (List.length toks) 2 || Nat.ltb 5 (List.length toks))%bool then false
  else if negb (forallb (test nameToken) toks) then false
  else if test ORG_OR_GEO_LAST_TOK (last toks []) then false
  else true.

(** [s === s.toUpperCase() ? s.toLowerCase().replace(/\b\w/g, c => c.toUpperCase()) : s] *)
Definition titleCaseIfAllCaps (s : jsstring) : jsstring :=
  if str_eqb s (toUpperCase s)
  then replaceAllBy (re (Seq WordB (Chr CWord))) toUpperCase (toLowerCase s)
  else s.

(** The loop over a [Set] of the names seen so far. *)
Fixpoint dedupeExact (seen : list jsstring) (xs : list jsstring) : list jsstring :=
  match xs with
  | [] => []
  | n :: xs' =>
      if existsb (str_eqb n) seen then dedupeExact seen xs'
      else n :: dedupeExact (n :: seen) xs'
  end.

(** The entries of the array that [cleanAuthors] works on: a non-empty string
    is split first; what is neither a string nor an array gives [None]. *)
Definition authorEntries (arr : JsAny) : option (list jsstring) :=
  match arr with
  | VString s =>
      if isNonEmptyString arr
      then Some (filter nonEmpty (List.map trim (split nameSeparator s)))
      else None
  | VArray xs => Some (List.map elemString xs)
  | _ => None
  end.

Definition cleanAuthors (arr : JsAny) : list jsstring :=
  match authorEntries arr with
  | None => []
  | Some entries =>
      let normalized :=
        List.map titleCaseIfAllCaps
          (filter looksPersonal
             (filter (fun s => negb (test affiliationWord s))
                (filter (fun s => negb (test affiliationTail s))
                   (filter nonEmpty (List.map normalizeEntry entries))))) in
      firstn 24 (dedupeExact [] normalized)
  end.

(** [Array.from(new Set(longer).add(...shorter))] *)
Definition unionOrdered (longer shorter : list jsstring) : list jsstring :=
  dedupeExact [] (longer ++ shorter).

Definition pickAuthors (aVal bVal : JsAny) : option (list jsstring) :=
  let a := cleanAuthors aVal in
  let b := cleanAuthors bVal in
  match a, b with
  | _ :: _, [] => Some a
  | [], _ :: _ => Some b
  | [], [] => None
  | _ :: _, _ :: _ =>
      if Nat.leb (List.length b) (List.length a)
      then Some (unionOrdered a b) else Some (unionOrdered b a)
  end.

(** One answer of the provider: [null] or [undefined], or a value whose six
    properties are read.  (A string, number, boolean or array has none of
    them: it is the object with six [undefined] properties.) *)
Record RawObject : Type := mkRaw {
  raw_document_type : JsAny;
  raw_authors : JsAny;
  raw_document_date : JsAny;
  raw_summary : JsAny;
  raw_methods_summary : JsAny;
  raw_findings_summary : JsAny
}.

Inductive Raw : Type :=
| RawNullish
| RawObj (o : RawObject).

(** [a?.f] *)
Definition optProp (f : RawObject -> JsAny) (a : Raw) : JsAny :=
  match a with
  | RawObj o => f o
  | RawNullish => VUndefined
  end.

Definition ofNullable (v : option jsstring) : JsText :=
  match v with
  | Some s => TString s
  | None => TNull
  end.

(** The object [runLLMEnsemble] returns, from the two answers [a] and [b]. *)
Definition runLLMEnsemble (a b : Raw) : LlmObject :=
  mkLlm (ofNullable (pickString (optProp raw_document_type a)
                                (optProp raw_document_type b)))
        (match pickAuthors (optProp raw_authors a) (optProp raw_authors b) with
         | Some names => AArray (List.map EString names)
         | None => ANull
         end)
        (ofNullable (pickString (optProp raw_document_date a)
                                (optProp raw_document_date b)))
        (ofNullable (pickString (optProp raw_summary a) (optProp raw_summary b)))
        (ofNullable (pickString (optProp raw_methods_summary a)
                                (optProp raw_methods_summary b)))
        (ofNullable (pickString (optProp raw_findings_summary a)
                                (optProp raw_findings_summary b))).

End LlmIndex.

(** ** src/runPipeline.ts *)

Record Metadata : Type := mkMetadata {
  md_document_type : option jsstring;
  md_authors : option (list jsstring);
  md_document_date : option jsstring;
  md_summary : option jsstring;
  md_methods_summary : option jsstring;
  md_findings_summary : option jsstring
}.

(** The object handed to [MetadataSchema.parse]; each value is a string, an
    array of strings or [null], so the schema accepts it. *)
Definition finalMeta (fused : FusedMetadata) : Metadata :=
  mkMetadata (value (fused_document_type fused)) (value (fused_authors fused))
             (value (fused_document_date fused)) (value (fused_summary fused))
             (value (fused_methods_summary fused))
             (value (fused_findings_summary fused)).

(** The steps of [runPipeline] that follow parsing.  [parsed] is the parser's
    result and [sections] its [sections]; [a] and [b] are the two answers of
    the provider, merged by [runLLMEnsemble]. *)
Definition runPipeline (now : Z) (parsed : ParsedDoc) (sections : Sections)
    (a b : LlmIndex.Raw) : result Metadata :=
  fused <- fuseCandidates now (candidates parsed) (Some parsed)
             (LlmObj (LlmIndex.runLLMEnsemble a b)) sections ;;
  Ok (finalMeta fused).

(** ** src/utils.ts, continued *)

(** [/D:(\d{4})(\d{2})(\d{2})/] *)
Definition rePdfDate : RegExp :=
  re (seqs [Lit "D:"; Group (digits 4 4); Group (digits 2 2); Group (digits 2 2)]).

Definition parsePdfCreationDate (d : option jsstring) : option jsstring :=
  if negb (truthy d) then None
  else
    match exec rePdfDate (orEmpty d) with
    | Some m =>
        Some (orEmpty (group m 1) ++ dash ++ orEmpty (group m 2) ++ dash
              ++ orEmpty (group m 3))
    | None => None
    end.

(** ** src/resolvers/crossref.ts *)

(** [/\b10\.\d{4,9}\/[-._;()/:A-Z0-9]+\b/i] *)
Definition doiSuffixChar : cset :=
  unions [CChar 45; CChar 46; CChar 95; CChar 59; CChar 40; CChar 41; CChar 47;
          CChar 58; CRange 65 90; CRange 48 57].

Definition DOI_RE : RegExp :=
  rei (seqs [WordB; Lit "10."; Rep 4 (Some 9) digit; Lit "/";
             Plus (Chr doiSuffixChar); WordB]).

Definition extractDOI (text : jsstring) : option jsstring :=
  match exec DOI_RE text with
  | Some m => Some (matched m)
  | None => None
  end.

(** The four dates of a Crossref record that [pickDate] looks at, each as its
    [date-parts[0]]: [None] when the date, its [date-parts] or the first
    entry is missing.  The parts are integers; a [null] part is falsy like
    [0] and is written [0]. *)
Record CrossrefDates : Type := mkCrossrefDates {
  published_print : option (list Z);
  published_online : option (list Z);
  issued : option (list Z);
  created : option (list Z)
}.

(** The body of the loop of [pickDate] for one candidate; [None] stands for
    [continue]. *)
Definition formatParts (parts : option (list Z)) : option jsstring :=
  match parts with
  | None | Some [] => None
  | Some (y :: rest) =>
      let m := nth 0 rest 0%Z in
      let day := nth 1 rest 0%Z in
      if (y =? 0)%Z then None
      else if (negb (m =? 0) && negb (day =? 0))%Z
      then Some (stringOfZ y ++ dash ++ pad2 m ++ dash ++ pad2 day)
      else if negb (m =? 0)%Z then Some (stringOfZ y ++ dash ++ pad2 m)
      else Some (stringOfZ y)
  end.

Fixpoint firstFormatted (cands : list (option (list Z))) : option jsstring :=
  match cands with
  | [] => None
  | d :: rest =>
      match formatParts d with
      | Some r => Some r
      | None => firstFormatted rest
      end
  end.

(** [pickDate(obj)]; [None] for [obj] is [undefined]. *)
Definition pickDate (obj : option CrossrefDates) : option jsstring :=
  firstFormatted
    match obj with
    | Some o => [published_print o; published_online o; issued o; created o]
    | None => [None; None; None; None]
    end.

(** Date parts as a calendar gives them: a four-digit year, and a month and
    day (when present) between 0 and 99. *)
Definition calendarLike (parts : option (list Z)) : bool :=
  match parts with
  | Some (y :: rest) =>
      ((1000 <=? y) && (y <=? 9999)
       && forallb (fun v => (0 <=? v) && (v <=? 99)) (firstn 2 rest))%Z
  | _ => true
  end.

Definition crossrefCandidates (obj : option CrossrefDates)
  : list (option (list Z)) :=
  match obj with
  | Some o => [published_print o; published_online o; issued o; created o]
  | None => [None; None; None; None]
  end.

(** ** src/utils.ts: text normalisation *)

(** The loop that [run] enters for a quantifier, with its fuel as an
    argument. *)
Section RepLoop.

Variable ic : bool.
Variable R : Type.
Variable r1 : regex.
Variable base : nat.
Variable k : cont R.

Fixpoint repLoop (fuel mn : nat) (mx : option nat) (prev : option N) (pos : nat)
    (s : jsstring) (c : caps) {struct fuel} : option R :=
  match fuel with
  | O => None
  | S fuel' =>
      match mx with
      | Some O => k prev pos s c
      | _ =>
          let iter :=
            run ic r1 base prev pos s (clearCaps base (ngroups r1) c)
              (fun p' pos' s' c' =>
                 if (Nat.eqb mn 0 && Nat.eqb pos' pos)%bool then None
                 else repLoop fuel' (Nat.pred mn) (option_map Nat.pred mx)
                        p' pos' s' c') in
          if Nat.ltb 0 mn then iter
          else match iter with
               | Some x => Some x
               | None => k prev pos s c
               end
      end
  end.

End RepLoop.

(** Patterns every match of which consumes at least one code unit. *)
Fixpoint consuming (r : regex) : bool :=
  match r with
  | Chr _ => true
  | Seq r1 r2 => consuming r1 || consuming r2
  | Alt r1 r2 => consuming r1 && consuming r2
  | Group r1 => consuming r1
  | Rep mn mx r1 =>
      Nat.ltb 0 mn && consuming r1
      && match mx with Some O => false | _ => true end
  | Eps | Bol | Eol | WordB => false
  end.

(** [/[\r\t]+/g] *)
Definition reCrTab : RegExp := re (Plus (Chr (CUnion (CChar 13) (CChar 9)))).

(** [/\u00A0/g]: the no-break space *)
Definition reNbsp : RegExp := re (Chr (CChar 160)).

(** [/\s+-\s*\n/g] *)
Definition reSpacedHyphenBreak : RegExp :=
  re (seqs [Plus ws; Chr (CChar 45); Star ws; Chr (CChar 10)]).

(** [/-\n/g] *)
Definition reHyphenBreak : RegExp := re (Seq (Chr (CChar 45)) (Chr (CChar 10))).

(** [/\n{2,}/g] *)
Definition reBlankLines : RegExp := re (Rep 2 None (Chr (CChar 10))).

(** [[\x00-\x08\x0B\x0C\x0E-\x1F]] *)
Definition controlUnits : cset :=
  unions [CRange 0 8; CChar 11; CChar 12; CRange 14 31].

Definition reControl : RegExp := re (Chr controlUnits).

Definition normalizeText (txt : jsstring) : jsstring :=
  replaceAll reControl []
    (replaceAll reBlankLines newline
       (replaceAll reHyphenBreak []
          (replaceAll reSpacedHyphenBreak []
             (replaceAll reNbsp (js " ")
                (replaceAll reCrTab (js " ") txt))))).

(** A text in which a control character separates two line breaks. *)
Definition breaksAroundControl : jsstring := [97; 10; 1; 10; 98]%N.

(** ** src/parsers/pdf.ts: Crossref title sanity check *)

(** [/[^a-z0-9\s]/g] *)
Definition reNotAlnumSpace : RegExp :=
  re (Chr (CNot (unions [CRange 97 122; CRange 48 57; CSpace]))).

(** [t]: the title in lower case, with everything but letters, digits and
    white space blanked, white space collapsed, and trimmed. *)
Definition titleKey (crTitle : jsstring) : jsstring :=
  trim (collapseSpaces (replaceAll reNotAlnumSpace (js " ") (toLowerCase crTitle))).

(** [toks]: [t.split(" ").filter(w => w.length >= 3)]; splitting at a
    one-character string is splitting at the pattern of that character. *)
Definition titleTokens (crTitle : jsstring) : list jsstring :=
  filter (fun w => Nat.leb 3 (List.length w))
    (split (re (Chr (CChar 32))) (titleKey crTitle)).

(** [hit]: the number of tokens the lower-cased header includes. *)
Definition tokenHits (crTitle headerText : jsstring) : nat :=
  List.length
    (filter (fun w => includes (toLowerCase headerText) w) (titleTokens crTitle)).

(** [looksLikeSameWork(crTitle, headerText)]; the quotient of two token
    counts is compared with [0.65] as a rational. *)
Definition looksLikeSameWork (crTitle headerText : jsstring) : bool :=
  match titleKey crTitle with
  | [] => false
  | _ :: _ =>
      match titleTokens crTitle with
      | [] => false
      | toks =>
          Qle_bool 0.65%Q
            (Z.of_nat (tokenHits crTitle headerText)
             # Pos.of_nat (List.length toks))
      end
  end.

(** ** Text within the reach of [lowerUnit]

    The code units on which [lowerUnit] is the lower-case mapping of the
    language: Basic Latin and Latin-1, the two units it treats on their own,
    and the General Punctuation block, which has no letters and holds the
    apostrophe and the dashes of names. *)
Definition plainCase (c : N) : bool :=
  (N.ltb c 256 || N.eqb c 304 || N.eqb c 8490 || inRange 8192 8303 c)%bool.

Definition plainText (s : jsstring) : bool := forallb plainCase s.

(** An author value all of whose string entries are such text. *)
Definition plainAuthors (a : JsAuthors) : bool :=
  match a with
  | AArray xs => forallb (fun e => plainText (elemString e)) xs
  | AString s => plainText s
  | AUndefined | ANull => true
  end.

(** ** src/ensemble.ts: a [document_date] outside its declared type

    [fuseCandidates] takes [llm: any] and casts [llm?.document_date] to
    [string | null].  The definitions below follow step 3 of the function for
    a value that is a string or an array of strings: where the code applies a
    pattern or [parseInt] the value is converted to text, [slice] of an array
    is an array, and an array has no [match] method. *)
Inductive DateValue : Type :=
| DString (s : jsstring)
| DArray (xs : list jsstring).

(** [String(v)]: the entries of an array joined by commas. *)
Definition dateText (v : DateValue) : jsstring :=
  match v with
  | DString s => s
  | DArray xs => join (js ",") xs
  end.

(** Truthiness: every array is truthy. *)
Definition truthyValue (v : option DateValue) : bool :=
  match v with
  | Some (DString s) => nonEmpty s
  | Some (DArray _) => true
  | None => false
  end.

Definition sanitizeDocumentDateAny (now : Z) (dateStr : option DateValue)
    (sections : Sections) (forceAcceptDayFromHeader : bool)
  : result (option DateValue) :=
  match dateStr with
  | None => Ok None
  | Some (DString s) =>
      Ok (option_map DString
            (sanitizeDocumentDate now (Some s) sections forceAcceptDayFromHeader))
  | Some (DArray xs) =>
      let text := dateText (DArray xs) in
      (* [toISODate(dateStr)] calls [s.match] *)
      if negb (test isoLike text) then Throw TypeError
      else if negb (test reISOShape text) then Ok None
      else
        let y := parseInt (dateText (DArray (firstn 4 xs))) in
        if match y with
           | Some v => ((v <? 1900) || (v >? now + 1))%Z
           | None => false
           end
        then Ok None
        else if (test reDay text && negb (hasPostedDateEvidence sections)
                 && negb forceAcceptDayFromHeader)%bool
        then Throw TypeError            (* [iso.match] *)
        else if test reYearOnly text then Ok (Some (DArray xs))
        else Throw TypeError            (* [iso.match] in [isValidISO] *)
  end.

Definition dateFitnessAny (v : option DateValue) : Q :=
  match v with
  | None => 0%Q
  | Some d =>
      if negb (truthyValue v) then 0%Q
      else if test reDay (dateText d) then 1%Q
      else if test reYearMonth (dateText d) then 0.8%Q
      else if test reYearOnly (dateText d) then 0.6%Q
      else 0.4%Q
  end.

(** Step 3 of [fuseCandidates], with the parser's and the base candidate as
    before and [llmDate] for [llm?.document_date ?? null]. *)
Definition fusedDateAny (now : Z) (base : Candidates)
    (parser : option ParsedDoc) (llmDate : option DateValue)
    (sections : Sections) : result (Field DateValue) :=
  let fromHeader := cameFromHeader parser in
  let dateParsed :=
    option_map DString
      (sanitizeDocumentDate now (parsedDateRaw base parser) sections fromHeader) in
  dateLLM <- sanitizeDocumentDateAny now llmDate sections false ;;
  datePicked <-
    chooseField dateFitnessAny
      [ mkField dateParsed (if truthyValue dateParsed then 0.92%Q else 0.2%Q)
          (methodOrHeuristic parser);
        mkField dateLLM (if truthyValue dateLLM then 0.7%Q else 0.3%Q) llm ] ;;
  finalSanitized <-
    sanitizeDocumentDateAny now (value datePicked) sections fromHeader ;;
  Ok (mkField finalSanitized
        (if truthyValue finalSanitized then confidence datePicked else 0.2%Q)
        (provenance datePicked)).

(** A field with its value seen as a [DateValue]. *)
Definition asDateField (f : Field jsstring) : Field DateValue :=
  mkField (option_map DString (value f)) (confidence f) (provenance f).

(** [pickDate] passes over a candidate without parts or with a zero year. *)
Definition passedOver (parts : option (list Z)) : bool :=
  match parts with
  | None | Some [] => true
  | Some (y :: _) => (y =? 0)%Z
  end.

(** * Properties *)

Unset Implicit Arguments.

(** ** Anchored patterns and the ISO shapes *)

(** A pattern that begins with [^] cannot match after the first position. *)
Lemma searchFrom_bol ic r p s idx :
  searchFrom (mkRegExp (Seq Bol r) ic) (Some p) s idx = None.
Proof.
  revert p idx. induction s as [|a s IH]; intros p idx; cbn; auto.
Qed.

(** So the search for an anchored pattern is one attempt at position 0. *)
Lemma exec_bol ic r s :
  exec (mkRegExp (Seq Bol r) ic) s =
  match matchAt (mkRegExp (Seq Bol r) ic) None s with
  | Some (len, c) => Some (mkMatch 0 (firstn len s) (List.map (capText s) c))
  | None => None
  end.
Proof.
  unfold exec. destruct s as [|a s]; cbn [searchFrom].
  - destruct (matchAt _ _ _) as [[? ?]|]; reflexivity.
  - destruct (matchAt _ _ _) as [[? ?]|]; [reflexivity|]. apply searchFrom_bol.
Qed.

(** Membership in the classes the date patterns use. *)
Lemma cmem_digit ic c : cmem ic CDigit c = isDigit c. Proof. reflexivity. Qed.
Lemma cmem_char c a : cmem false (CChar a) c = N.eqb a c.
Proof. cbn. now rewrite orb_false_r. Qed.

#[local] Arguments cmem : simpl never.
#[local] Arguments N.eqb : simpl never.
#[local] Arguments isDigit : simpl never.

Ltac norm_cmem := rewrite ?cmem_digit, ?cmem_char.
Ltac split_tests :=
  repeat (norm_cmem;
          match goal with
          | |- context [isDigit ?x] =>
              let E := fresh "E" in destruct (isDigit x) eqn:E
          | |- context [N.eqb ?c ?x] =>
              let E := fresh "E" in
              destruct (N.eqb c x) eqn:E;
              [apply N.eqb_eq in E; try discriminate E; try subst x|]
          end; cbn).
Ltac by_cases_upto s :=
  do 11 (destruct s as [|? s]; [cbn; split_tests; reflexivity |]);
  cbn; split_tests; reflexivity.

(** The anchored date patterns accept exactly the written-out shapes. *)
Lemma test_reDay s : test reDay s = isDayShape s.
Proof. unfold test, reDay, re, seqs. rewrite exec_bol. by_cases_upto s. Qed.

Lemma test_reYearMonth s : test reYearMonth s = isMonthShape s.
Proof. unfold test, reYearMonth, re, seqs. rewrite exec_bol. by_cases_upto s. Qed.

Lemma test_reYearOnly s : test reYearOnly s = isYearShape s.
Proof. unfold test, reYearOnly, re, seqs. rewrite exec_bol. by_cases_upto s. Qed.

Lemma test_reISOShape s :
  test reISOShape s = (isYearShape s || isMonthShape s || isDayShape s)%bool.
Proof. unfold test, reISOShape, re, seqs. rewrite exec_bol. by_cases_upto s. Qed.

Lemma test_isoLike s :
  test isoLike s = (isYearShape s || isMonthShape s || isDayShape s)%bool.
Proof. unfold test, isoLike, re, seqs. rewrite exec_bol. by_cases_upto s. Qed.

(** On a day-shaped value [/^(\d{4}-\d{2})-/] always matches, and its group is
    the first seven code units. *)
Lemma exec_reYearMonthPrefix s :
  isDayShape s = true ->
  exists m, exec reYearMonthPrefix s = Some m /\ group m 1 = Some (firstn 7 s).
Proof.
  intros H. unfold reYearMonthPrefix, re, seqs. rewrite exec_bol.
  do 10 (destruct s as [|? s]; [discriminate|]). destruct s; [|discriminate].
  cbn [isDayShape] in H. rewrite !andb_true_iff in H.
  repeat match goal with H : _ /\ _ |- _ => destruct H end.
  cbn. norm_cmem.
  repeat match goal with H : _ = true |- _ => rewrite H; clear H; cbn; norm_cmem end.
  eexists; split; reflexivity.
Qed.

(** ** The sanitizer, case by case *)

Ltac char_arith :=
  unfold isDigit, isSpace, isWordChar, isLetter, isUpper, isLower, inRange in *;
  rewrite ?andb_true_iff, ?orb_false_iff, ?andb_false_iff, ?orb_true_iff,
    ?N.eqb_neq, ?N.leb_le, ?N.leb_gt, ?N.eqb_eq in *;
  lia.

(** Digits are neither white space nor signs, so [parseInt] reads a run of
    digits as its decimal value. *)
Lemma digit_not_space c : isDigit c = true -> isSpace c = false.
Proof. intros H. char_arith. Qed.

Lemma digit_not_sign c : isDigit c = true -> N.eqb c 45 = false /\ N.eqb c 43 = false.
Proof. intros H. char_arith. Qed.

Lemma takeWhile_all p s : forallb p s = true -> takeWhile p s = s.
Proof.
  induction s as [|a s IH]; cbn; auto. intros H. apply andb_true_iff in H as [Ha Hs].
  rewrite Ha, IH; auto.
Qed.

Lemma parseInt_digits s :
  forallb isDigit s = true -> s <> [] -> parseInt s = Some (toNumber s).
Proof.
  intros H Hne. destruct s as [|a s]; [congruence|].
  pose proof H as H'. cbn [forallb] in H'. apply andb_true_iff in H' as [Ha _].
  unfold parseInt, trimStart. cbn [dropWhile].
  rewrite (digit_not_space _ Ha).
  destruct (digit_not_sign _ Ha) as [-> ->].
  rewrite (takeWhile_all _ _ H). reflexivity.
Qed.

(** Every ISO shape begins with four digits, which [yearOf] reads. *)
Lemma isoShape_year s :
  (isYearShape s || isMonthShape s || isDayShape s)%bool = true ->
  exists a b c d t, s = a :: b :: c :: d :: t
    /\ forallb isDigit [a; b; c; d] = true.
Proof.
  intros H.
  do 4 (destruct s as [|? s]; [discriminate|]).
  exists n, n0, n1, n2, s. split; [reflexivity|].
  cbn [forallb]. rewrite andb_true_r.
  rewrite !orb_true_iff in H. destruct H as [[H|H]|H].
  - destruct s; [|discriminate].
    cbn [isYearShape] in H. rewrite !andb_true_iff in H. rewrite !andb_true_iff. tauto.
  - do 3 (destruct s as [|? s]; [discriminate|]). destruct s; [|discriminate].
    cbn [isMonthShape] in H. rewrite !andb_true_iff in H. rewrite !andb_true_iff. tauto.
  - do 6 (destruct s as [|? s]; [discriminate|]). destruct s; [|discriminate].
    cbn [isDayShape] in H. rewrite !andb_true_iff in H. rewrite !andb_true_iff. tauto.
Qed.

Lemma yearOf_shape s :
  (isYearShape s || isMonthShape s || isDayShape s)%bool = true ->
  yearOf s = Some (toNumber (firstn 4 s)).
Proof.
  intros H. destruct (isoShape_year _ H) as (a & b & c & d & t & -> & Hd).
  unfold yearOf, slice. cbn [skipn firstn Nat.sub].
  apply parseInt_digits; [exact Hd|discriminate].
Qed.

(** The first seven code units of a day-shaped value are month-shaped and
    keep the year. *)
Lemma firstn7_day s :
  isDayShape s = true -> isMonthShape (firstn 7 s) = true.
Proof.
  intros H. do 10 (destruct s as [|? s]; [discriminate|]). destruct s; [|discriminate].
  cbn [isDayShape] in H. cbn [firstn isMonthShape].
  rewrite !andb_true_iff in *. tauto.
Qed.

Lemma month_not_day s : isMonthShape s = true -> isDayShape s = false.
Proof.
  intros H. do 7 (destruct s as [|? s]; [discriminate|]). destruct s; [|discriminate].
  reflexivity.
Qed.

Lemma yearOf_firstn7 s : isDayShape s = true -> yearOf (firstn 7 s) = yearOf s.
Proof.
  intros H. do 10 (destruct s as [|? s]; [discriminate|]). reflexivity.
Qed.

(** [sanitizeDocumentDate] with its pattern tests replaced by the shapes: the
    branch that would return [String(y)] is unreachable. *)
Lemma sanitize_unfold now ds sec force :
  sanitizeDocumentDate now ds sec force =
  if negb (truthy ds) then None
  else if negb (truthy (normalizedDate ds)) then None
  else
    let iso := orEmpty (normalizedDate ds) in
    if negb (isYearShape iso || isMonthShape iso || isDayShape iso) then None
    else if negb (yearInRange now iso) then None
    else if (isDayShape iso && negb (hasPostedDateEvidence sec) && negb force)%bool
    then Some (firstn 7 iso)
    else if isValidISO iso then Some iso else None.
Proof.
  unfold sanitizeDocumentDate, normalizedDate.
  destruct (truthy ds); cbn [negb]; [|reflexivity].
  set (iso := if test isoLike (orEmpty ds) then ds else toISODate ds).
  destruct (truthy iso); cbn [negb]; [|reflexivity].
  cbv zeta. rewrite test_reISOShape, test_reDay.
  destruct (isYearShape (orEmpty iso) || isMonthShape (orEmpty iso) || isDayShape (orEmpty iso))%bool eqn:Hs;
    cbn [negb]; [|reflexivity].
  unfold yearInRange. fold (yearOf (orEmpty iso)).
  rewrite (yearOf_shape _ Hs).
  set (v := toNumber _).
  assert (Hv : ((v <? 1900) || (v >? now + 1))%Z = negb ((1900 <=? v) && (v <=? now + 1))%Z).
  { rewrite negb_andb, Z.leb_antisym, negb_involutive. f_equal.
    rewrite Z.gtb_ltb, Z.leb_antisym, negb_involutive. reflexivity. }
  rewrite Hv. destruct (negb _); [reflexivity|].
  destruct (isDayShape (orEmpty iso)) eqn:Hd; cbn [andb]; [|reflexivity].
  destruct (negb (hasPostedDateEvidence sec) && negb force)%bool; [|reflexivity].
  destruct (exec_reYearMonthPrefix _ Hd) as (m & -> & ->). reflexivity.
Qed.

(** ** Searching for a year *)

(** A property of every successful attempt holds of the result of a search. *)
Lemma searchFrom_inv (x : RegExp) (P : MatchResult -> Prop) :
  (forall prev s idx len c,
      matchAt x prev s = Some (len, c) ->
      P (mkMatch idx (firstn len s) (List.map (capText s) c))) ->
  forall s prev idx m, searchFrom x prev s idx = Some m -> P m.
Proof.
  intros HP. induction s as [|a s IH]; intros prev idx m; cbn [searchFrom].
  - destruct (matchAt x prev []) as [[len c]|] eqn:E; [|discriminate].
    intros [= <-]. eapply HP; eauto.
  - destruct (matchAt x prev (a :: s)) as [[len c]|] eqn:E.
    + intros [= <-]. eapply HP; eauto.
    + apply IH.
Qed.

(** The year pattern captures four digits that begin with 19 or 20. *)
Lemma matchAt_reYear prev s len c :
  matchAt reYear prev s = Some (len, c) ->
  exists Y, isCenturyYear Y = true /\ List.map (capText s) c = [Some Y].
Proof.
  unfold reYear, re, year4.
  do 4 (destruct s as [|? s]; [cbn; split_tests; discriminate|]).
  cbn. split_tests; try discriminate; intros [= <- <-]; cbn;
    eexists; (split; [|reflexivity]); cbn [isCenturyYear];
    rewrite ?N.eqb_refl;
    repeat match goal with H : isDigit _ = true |- _ => rewrite H; clear H end;
    reflexivity.
Qed.

Lemma firstYear_century s Y : firstYear s = Some Y -> isCenturyYear Y = true.
Proof.
  unfold firstYear, exec. destruct (searchFrom reYear None s 0) as [m|] eqn:E; [|discriminate].
  revert E. apply (searchFrom_inv reYear
    (fun m => group m 1 = Some Y -> isCenturyYear Y = true)).
  intros prev s' idx len c Hm. destruct (matchAt_reYear _ _ _ _ Hm) as (Y' & HY & Hc).
  unfold group. cbn [groups]. rewrite Hc. cbn. intros [= <-]. exact HY.
Qed.

(** ** Calendar validity *)

(** A check over a finite range of integers, by enumeration. *)
Lemma forallb_range (f : Z -> bool) (lo : Z) (n : nat) :
  forallb f (List.map (fun k => (lo + Z.of_nat k)%Z) (seq 0 n)) = true ->
  forall y, (lo <= y < lo + Z.of_nat n)%Z -> f y = true.
Proof.
  intros H y Hy. rewrite forallb_forall in H. apply H.
  apply in_map_iff. exists (Z.to_nat (y - lo)). split; [lia|].
  apply in_seq. lia.
Qed.

(** January 1st exists in every year from 1900 to 2099. *)
Lemma jan1_roundTrips y : (1900 <= y < 2100)%Z -> roundTrips y 1 1 = true.
Proof.
  apply (forallb_range (fun y => roundTrips y 1 1) 1900 200).
  vm_compute. reflexivity.
Qed.

(** The parts and the numeric value of a 19xx or 20xx year. *)
Lemma century_split Y :
  isCenturyYear Y = true ->
  exists a b c d, Y = [a; b; c; d] /\ isDigit a = true /\ isDigit b = true
    /\ isDigit c = true /\ isDigit d = true
    /\ (1900 <= toNumber Y < 2100)%Z.
Proof.
  intros H. do 4 (destruct Y as [|? Y]; [discriminate|]). destruct Y; [|discriminate].
  cbn [isCenturyYear] in H. rewrite !andb_true_iff, orb_true_iff, !andb_true_iff in H.
  destruct H as [[H12 H3] H4].
  exists n, n0, n1, n2. split; [reflexivity|].
  assert (Hc : (48 <= n1 <= 57)%N /\ (48 <= n2 <= 57)%N).
  { unfold isDigit, inRange in H3, H4. rewrite andb_true_iff, !N.leb_le in H3, H4. lia. }
  rewrite H3, H4.
  destruct H12 as [[Ha Hb]|[Ha Hb]]; apply N.eqb_eq in Ha, Hb; subst n n0;
    (do 4 (split; [reflexivity|]));
    unfold toNumber; cbn [digitsValue]; lia.
Qed.

Lemma isYearShape_century Y : isCenturyYear Y = true -> isYearShape Y = true.
Proof.
  intros H. destruct (century_split _ H) as (a & b & c & d & -> & Ha & Hb & Hc & Hd & _).
  cbn [isYearShape]. now rewrite Ha, Hb, Hc, Hd.
Qed.

Lemma isDayShape_jan1 Y :
  isCenturyYear Y = true -> isDayShape (Y ++ js "-01-01") = true.
Proof.
  intros H. destruct (century_split _ H) as (a & b & c & d & -> & Ha & Hb & Hc & Hd & _).
  cbn. now rewrite Ha, Hb, Hc, Hd.
Qed.

(** On a day-shaped value [isValidISO] checks month and day ranges and the
    calendar. *)
Lemma exec_reISOParts_day s :
  isDayShape s = true ->
  exists m, exec reISOParts s = Some m
    /\ group m 1 = Some (slice s 0 4) /\ group m 2 = Some (slice s 5 7)
    /\ group m 3 = Some (slice s 8 10).
Proof.
  intros H. unfold reISOParts, re, seqs. rewrite exec_bol.
  do 10 (destruct s as [|? s]; [discriminate|]). destruct s; [|discriminate].
  cbn [isDayShape] in H. rewrite !andb_true_iff in H.
  repeat match goal with H : _ /\ _ |- _ => destruct H end.
  cbn. norm_cmem.
  repeat match goal with H : _ = true |- _ => rewrite H; clear H; cbn; norm_cmem end.
  eexists; repeat split; reflexivity.
Qed.

(** The chain of early returns of [isValidISO] as one conjunction. *)
Lemma valid_core (mo d : Z) (A B C : bool) :
  (if ((mo <? 1) || (mo >? 12))%Z then false
   else if ((d <? 1) || (d >? 31))%Z then false
        else if (negb A || negb B || negb C)%bool then false else true)
  = ((1 <=? mo) && (mo <=? 12) && (1 <=? d) && (d <=? 31) && (A && B && C))%Z.
Proof.
  rewrite !Z.gtb_ltb.
  destruct (Z.ltb_spec mo 1), (Z.ltb_spec 12 mo), (Z.ltb_spec d 1), (Z.ltb_spec 31 d),
    (Z.leb_spec 1 mo), (Z.leb_spec mo 12), (Z.leb_spec 1 d), (Z.leb_spec d 31);
    try lia; cbn [orb andb]; try reflexivity.
  destruct A, B, C; reflexivity.
Qed.

Lemma isValidISO_day s :
  isDayShape s = true ->
  isValidISO s =
  ((1 <=? toNumber (slice s 5 7)) && (toNumber (slice s 5 7) <=? 12)
   && (1 <=? toNumber (slice s 8 10)) && (toNumber (slice s 8 10) <=? 31)
   && roundTrips (toNumber (slice s 0 4)) (toNumber (slice s 5 7))
        (toNumber (slice s 8 10)))%Z.
Proof.
  intros H. unfold isValidISO. rewrite test_reYearOnly.
  destruct (exec_reISOParts_day _ H) as (m & -> & -> & -> & ->).
  assert (isYearShape s = false) as ->.
  { do 5 (destruct s as [|? s]; try discriminate). reflexivity. }
  assert (truthy (Some (slice s 8 10)) = true) as ->.
  { do 10 (destruct s as [|? s]; try discriminate). reflexivity. }
  unfold roundTrips. cbn [orEmpty]. apply valid_core.
Qed.

Lemma isValidISO_jan1 Y :
  isCenturyYear Y = true -> isValidISO (Y ++ js "-01-01") = true.
Proof.
  intros H. rewrite (isValidISO_day _ (isDayShape_jan1 _ H)).
  destruct (century_split _ H) as (a & b & c & d & -> & Ha & Hb & Hc & Hd & Hy).
  cbv zeta.
  change (slice ([a; b; c; d] ++ js "-01-01") 0 4) with [a; b; c; d].
  change (toNumber (slice ([a; b; c; d] ++ js "-01-01") 5 7)) with 1%Z.
  change (toNumber (slice ([a; b; c; d] ++ js "-01-01") 8 10)) with 1%Z.
  rewrite (jan1_roundTrips _ Hy). reflexivity.
Qed.

(** ** Day precision *)

(** A value of ISO shape is a non-empty string. *)
Lemma isoShape_truthy s :
  (isYearShape s || isMonthShape s || isDayShape s)%bool = true -> truthy (Some s) = true.
Proof. destruct s; [discriminate|reflexivity]. Qed.

Lemma yearInRange_spec now s y :
  yearOf s = Some y ->
  yearInRange now s = true <-> (1900 <= y <= now + 1)%Z.
Proof.
  intros H. unfold yearInRange. rewrite H, andb_true_iff, !Z.leb_le. tauto.
Qed.

(** An ISO-shaped input is kept verbatim. *)
Lemma normalizedDate_iso raw :
  (isYearShape raw || isMonthShape raw || isDayShape raw)%bool = true ->
  normalizedDate (Some raw) = Some raw.
Proof.
  intros Hs. unfold normalizedDate. cbn [orEmpty]. now rewrite test_isoLike, Hs.
Qed.

(** Claim C1.  When [sanitizeDocumentDate] receives a value with day
    precision (YYYY-MM-DD, as given or after normalization), a result that
    still has day precision implies
    that [forceAcceptDay] is set or that the header and body contain a
    posted-date evidence phrase.  Without either, and with the year inside
    [1900, now + 1], the result is the YYYY-MM prefix of the value, with the
    same year: the year is not lost because the day was dropped.  Only a year
    outside the bound gives [null].  With forcing or evidence the value is
    returned as it is when it is a valid calendar date. *)
Theorem sanitize_day_precision (now : Z) (raw iso : jsstring)
    (sections : Sections) (force : bool) :
  normalizedDate (Some raw) = Some iso ->
  isDayShape iso = true ->
  (forall r, sanitizeDocumentDate now (Some raw) sections force = Some r ->
             isDayShape r = true ->
             force = true \/ hasPostedDateEvidence sections = true)
  /\ (force = false -> hasPostedDateEvidence sections = false ->
      forall y, yearOf iso = Some y ->
        ((1900 <= y <= now + 1)%Z ->
           sanitizeDocumentDate now (Some raw) sections force = Some (firstn 7 iso)
           /\ isMonthShape (firstn 7 iso) = true
           /\ yearOf (firstn 7 iso) = Some y)
        /\ ((y < 1900 \/ now + 1 < y)%Z ->
           sanitizeDocumentDate now (Some raw) sections force = None))
  /\ (force = true \/ hasPostedDateEvidence sections = true ->
      forall y, yearOf iso = Some y -> (1900 <= y <= now + 1)%Z ->
        sanitizeDocumentDate now (Some raw) sections force
        = if isValidISO iso then Some iso else None).
Proof.
  intros Hn Hd.
  assert (Hs : (isYearShape iso || isMonthShape iso || isDayShape iso)%bool = true)
    by (rewrite Hd; apply orb_true_r).
  assert (Ht : truthy (Some raw) = true).
  { destruct raw; [|reflexivity]. vm_compute in Hn. discriminate Hn. }
  pose proof (sanitize_unfold now (Some raw) sections force) as E.
  pose proof (isoShape_truthy _ Hs) as Ht'. unfold jsstring in *.
  rewrite Hn, Ht, Ht' in E. cbn [negb orEmpty] in E. cbv zeta in E.
  rewrite Hs, Hd in E. cbn [negb andb] in E.
  split; [|split].
  - intros r Hr Hdr. rewrite E in Hr.
    destruct (yearInRange now iso); cbn [negb] in Hr; [|discriminate].
    destruct force; [now left|]. destruct (hasPostedDateEvidence sections); [now right|].
    cbn [negb andb] in Hr.
    assert (r = firstn 7 iso) by congruence. subst r.
    rewrite (month_not_day _ (firstn7_day _ Hd)) in Hdr. discriminate.
  - intros -> Hev y Hy. rewrite Hev in E. cbn [negb andb] in E.
    pose proof (yearInRange_spec now _ _ Hy) as R. split.
    + intros Hr. apply R in Hr. rewrite Hr in E. cbn [negb] in E.
      split; [exact E|]. split; [now apply firstn7_day|].
      now rewrite yearOf_firstn7.
    + intros Hr. destruct (yearInRange now iso); [|exact E].
      exfalso. assert (true = true) as T by reflexivity. apply R in T. lia.
  - intros Hfe y Hy Hr. apply (yearInRange_spec now _ _ Hy) in Hr.
    rewrite Hr in E. cbn [negb] in E. rewrite E.
    destruct Hfe as [-> | ->]; [now rewrite andb_false_r|reflexivity].
Qed.

Lemma sanitize_day_precision_witness :
  sanitizeDocumentDate 2026 (Some (js "2024-05-13")) noEvidence false
  = Some (js "2024-05").
Proof.
  apply (proj1 (proj2 (sanitize_day_precision 2026 (js "2024-05-13")
                         (js "2024-05-13") noEvidence false eq_refl eq_refl))
           eq_refl eq_refl 2024%Z eq_refl).
  lia.
Defined.

(** Every non-null result of the sanitizer has an ISO shape and a year within
    the bound. *)
Lemma sanitize_shape now ds sections force d :
  sanitizeDocumentDate now ds sections force = Some d ->
  (isYearShape d || isMonthShape d || isDayShape d)%bool = true
  /\ exists y, yearOf d = Some y /\ (1900 <= y <= now + 1)%Z.
Proof.
  rewrite sanitize_unfold.
  destruct (truthy ds); cbn [negb]; [|discriminate].
  destruct (truthy (normalizedDate ds)); cbn [negb]; [|discriminate].
  cbv zeta. set (iso := orEmpty (normalizedDate ds)).
  destruct (isYearShape iso || isMonthShape iso || isDayShape iso)%bool eqn:Hs;
    cbn [negb]; [|discriminate].
  destruct (yearInRange now iso) eqn:Hr; cbn [negb]; [|discriminate].
  pose proof (yearOf_shape _ Hs) as Hy.
  apply (yearInRange_spec now _ _ Hy) in Hr.
  destruct (isDayShape iso && negb (hasPostedDateEvidence sections) && negb force)%bool eqn:Hb.
  - intros Hd'. assert (d = firstn 7 iso) by congruence. subst d. clear Hd'.
    rewrite !andb_true_iff in Hb. destruct Hb as [[Hd _] _].
    split.
    + now rewrite (firstn7_day _ Hd), orb_true_r.
    + exists (toNumber (firstn 4 iso)). split; [|exact Hr].
      now rewrite yearOf_firstn7.
  - destruct (isValidISO iso); [|discriminate]. intros Hd'.
    assert (d = iso) by congruence. subst d. clear Hd'.
    split; [exact Hs|]. eauto.
Qed.

(** ** Year-only texts and idempotence *)

Lemma century_digits Y : isCenturyYear Y = true -> forallb isDigit Y = true /\ Y <> [].
Proof.
  intros H. destruct (century_split _ H) as (a & b & c & d & -> & Ha & Hb & Hc & Hd & _).
  cbn [forallb]. rewrite Ha, Hb, Hc, Hd. split; [reflexivity|discriminate].
Qed.

(** Without a year-month-day match, [toISODate] appends [-01-01] to the
    first year it finds. *)
Lemma toISODate_year_only raw Y :
  exec reYearSepMonthSepDay raw = None ->
  firstYear raw = Some Y ->
  toISODate (Some raw) = Some (Y ++ js "-01-01").
Proof.
  intros H1 H2. unfold toISODate. cbn [orEmpty].
  assert (truthy (Some raw) = true) as ->.
  { destruct raw; [discriminate H2|reflexivity]. }
  cbn [negb]. rewrite H1. unfold firstYear in H2.
  destruct (exec reYear raw) as [m2|]; [|discriminate]. now rewrite H2.
Qed.

(** Claim C10, with the bound on the year.  For a text that is not
    ISO-shaped, has no year-separator-month-separator-day component, and
    contains a 19xx or 20xx year [Y]: [toISODate] yields [Y-01-01];
    [sanitizeDocumentDate] never returns the bare year [Y]; with the year
    at most [now + 1] it returns [Y-01-01] when day precision is permitted
    (forced, or evidence present) and [Y-01] otherwise; a year beyond
    [now + 1] gives [null]. *)
Theorem sanitize_fabricates_january (now : Z) (raw Y : jsstring)
    (sections : Sections) (force : bool) :
  test isoLike raw = false ->
  exec reYearSepMonthSepDay raw = None ->
  firstYear raw = Some Y ->
  isCenturyYear Y = true
  /\ toISODate (Some raw) = Some (Y ++ js "-01-01")
  /\ sanitizeDocumentDate now (Some raw) sections force <> Some Y
  /\ exists y, parseInt Y = Some y
       /\ ((y <= now + 1)%Z ->
             sanitizeDocumentDate now (Some raw) sections force
             = Some (if (force || hasPostedDateEvidence sections)%bool
                     then Y ++ js "-01-01" else Y ++ js "-01"))
       /\ ((now + 1 < y)%Z ->
             sanitizeDocumentDate now (Some raw) sections force = None).
Proof.
  intros Hiso Hm1 HY.
  pose proof (firstYear_century _ _ HY) as HC.
  pose proof (toISODate_year_only _ _ Hm1 HY) as HT.
  destruct (century_digits _ HC) as [Hdig Hne].
  pose proof (isDayShape_jan1 _ HC) as Hday.
  assert (Hs : (isYearShape (Y ++ js "-01-01") || isMonthShape (Y ++ js "-01-01")
                || isDayShape (Y ++ js "-01-01"))%bool = true)
    by (rewrite Hday; apply orb_true_r).
  assert (Hyear : yearOf (Y ++ js "-01-01") = Some (toNumber Y)).
  { rewrite (yearOf_shape _ Hs). 
    destruct (century_split _ HC) as (a & b & c & d & -> & _). reflexivity. }
  assert (Hpre : firstn 7 (Y ++ js "-01-01") = Y ++ js "-01").
  { destruct (century_split _ HC) as (a & b & c & d & -> & _). reflexivity. }
  pose proof (sanitize_unfold now (Some raw) sections force) as E.
  assert (Hn : normalizedDate (Some raw) = Some (Y ++ js "-01-01")).
  { unfold normalizedDate. cbn [orEmpty]. now rewrite Hiso. }
  rewrite Hn in E.
  assert (truthy (Some raw) = true) as Htr.
  { destruct raw; [discriminate HY|reflexivity]. }
  pose proof (isoShape_truthy _ Hs) as Ht. unfold jsstring in *.
  rewrite Htr, Ht in E. cbn [negb orEmpty] in E. cbv zeta in E.
  rewrite Hs, Hday, (isValidISO_jan1 _ HC), Hpre in E. cbn [negb andb] in E.
  pose proof (yearInRange_spec now _ _ Hyear) as R.
  destruct (century_split _ HC) as (_ & _ & _ & _ & _ & _ & _ & _ & _ & Hb).
  split; [exact HC|]. split; [exact HT|]. split.
  - rewrite E. destruct (yearInRange now _); cbn [negb]; [|discriminate].
    destruct (negb (hasPostedDateEvidence sections) && negb force)%bool;
      intros [= Hx]; apply (f_equal (@List.length N)) in Hx;
      rewrite length_app in Hx; cbn in Hx; lia.
  - exists (toNumber Y). split; [now apply parseInt_digits|]. split.
    + intros Hle. assert (Hr : yearInRange now (Y ++ js "-01-01") = true) by (apply R; lia).
      rewrite Hr in E. cbn [negb] in E. rewrite E.
      destruct force, (hasPostedDateEvidence sections); reflexivity.
    + intros Hgt. destruct (yearInRange now (Y ++ js "-01-01")); [|exact E].
      exfalso. assert (true = true) as T by reflexivity. apply R in T. lia.
Qed.

Lemma sanitize_fabricates_january_witness :
  sanitizeDocumentDate 2026 (Some (js "published in 2024")) noEvidence false
  = Some (js "2024-01").
Proof.
  destruct (sanitize_fabricates_january 2026 (js "published in 2024") (js "2024")
              noEvidence false eq_refl eq_refl eq_refl)
    as (_ & _ & _ & y & Hy & Hle & _).
  injection Hy as <-. apply Hle. lia.
Defined.

(** Claim C3 fails on the code: with no evidence and no forcing, the day of
    ["2024-13-01"] is dropped without validating the month, giving
    ["2024-13"]; sanitizing that result again gives [null]. *)
Theorem sanitize_not_idempotent :
  sanitizeDocumentDate 2026 (Some (js "2024-13-01")) noEvidence false
    = Some (js "2024-13")
  /\ sanitizeDocumentDate 2026 (Some (js "2024-13")) noEvidence false = None.
Proof. split; vm_compute; reflexivity. Qed.

(** A second pass does keep every result that is a valid ISO date. *)
Lemma sanitize_idempotent_on_valid now ds sections force d :
  sanitizeDocumentDate now ds sections force = Some d ->
  isValidISO d = true ->
  sanitizeDocumentDate now (Some d) sections force = Some d.
Proof.
  intros H Hv. destruct (sanitize_shape _ _ _ _ _ H) as (Hs & y & Hy & Hr).
  assert (Hn : normalizedDate (Some d) = Some d).
  { unfold normalizedDate. cbn [orEmpty]. now rewrite test_isoLike, Hs. }
  rewrite sanitize_unfold, Hn, (isoShape_truthy _ Hs). cbn [negb orEmpty]. cbv zeta.
  rewrite Hs, Hv. cbn [negb].
  assert (yearInRange now d = true) as -> by (now apply (yearInRange_spec now _ _ Hy)).
  cbn [negb].
  destruct (isDayShape d) eqn:Hd; cbn [andb]; [|reflexivity].
  destruct force; [now rewrite andb_false_r|].
  destruct (hasPostedDateEvidence sections) eqn:Hev; [reflexivity|].
  exfalso. revert H. rewrite sanitize_unfold.
  destruct (negb (truthy ds)); [discriminate|].
  destruct (negb (truthy (normalizedDate ds))); [discriminate|]. cbv zeta.
  destruct (negb (isYearShape _ || _ || _)); [discriminate|].
  destruct (negb (yearInRange _ _)); [discriminate|].
  rewrite Hev. cbn [negb]. rewrite !andb_true_r.
  destruct (isDayShape (orEmpty (normalizedDate ds))) eqn:Hd0.
  - intros Hx. assert (d = firstn 7 (orEmpty (normalizedDate ds))) by congruence. subst d.
    rewrite (month_not_day _ (firstn7_day _ Hd0)) in Hd. discriminate.
  - destruct (isValidISO (orEmpty (normalizedDate ds))); [|discriminate]. intros Hx.
    assert (d = orEmpty (normalizedDate ds)) by congruence. subst d.
    rewrite Hd0 in Hd. discriminate.
Qed.

(** ** The candidate chooser *)

Section ChooseFieldFacts.

Variable T : Type.
Variable fitness : option T -> Q.

(** The comparisons of the chooser, as rational inequalities. *)
Lemma orZero_eq x : (orZero x == x)%Q.
Proof.
  unfold orZero. destruct (Qeq_bool x 0) eqn:E; [|reflexivity].
  apply Qeq_bool_iff in E. now rewrite E.
Qed.

Lemma num_gt_iff a b : num_gt a b = true <-> (b < a)%Q.
Proof.
  unfold num_gt. rewrite negb_true_iff. split.
  - intros H. apply Qnot_le_lt. intros Hle. apply Qle_bool_iff in Hle. congruence.
  - intros H. destruct (Qle_bool a b) eqn:E; [|reflexivity].
    apply Qle_bool_iff in E. exfalso. apply (Qlt_not_le _ _ H E).
Qed.

Lemma replaces_iff best c : replaces fitness best c = true <-> beats T fitness c best.
Proof.
  unfold replaces, beats, num_eq. cbv zeta.
  rewrite orb_true_iff, andb_true_iff, !num_gt_iff, Qeq_bool_iff, !orZero_eq.
  reflexivity.
Qed.

(** The copy [{ ...best, provenance: best.provenance }] is [best] itself. *)
Lemma field_eta (f : Field T) : mkField (value f) (confidence f) (provenance f) = f.
Proof. destruct f; reflexivity. Qed.

(** On a non-empty list the chooser is a left fold of its step. *)
Lemma chooseField_cons c0 rest :
  chooseField fitness (c0 :: rest) = Ok (fold_left (chooseStep fitness) rest c0).
Proof. unfold chooseField. now rewrite field_eta. Qed.

(** [beats] is a strict weak order. *)
Lemma beats_trans a b c : beats T fitness a b -> beats T fitness b c -> beats T fitness a c.
Proof. unfold beats. intros [H|[H1 H2]] [H'|[H1' H2']]; [left|left|left|right]; try split; lra. Qed.

Lemma beats_weak a b c : beats T fitness a b -> ~ beats T fitness c b -> beats T fitness a c.
Proof.
  unfold beats. intros H Hn.
  destruct (Qlt_le_dec (fitness (value b)) (fitness (value c))) as [L|L]; [exfalso; auto|].
  destruct (Qlt_le_dec (fitness (value c)) (fitness (value b))) as [L'|L'].
  - destruct H as [H|[H1 H2]]; left; lra.
  - assert (E : (fitness (value c) == fitness (value b))%Q) by lra.
    destruct (Qlt_le_dec (confidence b) (confidence c)) as [M|M]; [exfalso; auto|].
    destruct H as [H|[H1 H2]]; [left; lra|right; split; lra].
Qed.

(** The fold returns the first candidate that beats all earlier ones and is
    beaten by no later one. *)
Lemma fold_first_best rest : forall c0,
  exists pre post,
    c0 :: rest = pre ++ fold_left (chooseStep fitness) rest c0 :: post
    /\ (forall x, In x pre -> beats T fitness (fold_left (chooseStep fitness) rest c0) x)
    /\ (forall x, In x post -> ~ beats T fitness x (fold_left (chooseStep fitness) rest c0)).
Proof.
  induction rest as [|c rest IH] using rev_ind; intros c0.
  - exists [], []. cbn. repeat split; intros x [].
  - rewrite fold_left_app. cbn [fold_left].
    destruct (IH c0) as (pre & post & E & Hpre & Hpost).
    set (w := fold_left (chooseStep fitness) rest c0) in *.
    assert (Hw : chooseStep fitness w c = if replaces fitness w c then c else w)
      by reflexivity.
    rewrite Hw. clear Hw. destruct (replaces fitness w c) eqn:R.
    + apply replaces_iff in R.
      exists (pre ++ w :: post), []. split; [|split].
      * rewrite app_comm_cons, E, <- app_assoc. reflexivity.
      * intros x Hx. apply in_app_or in Hx. destruct Hx as [Hx|[<-|Hx]].
        -- eapply beats_trans; eauto.
        -- exact R.
        -- eapply beats_weak; eauto.
      * intros x [].
    + assert (Rn : ~ beats T fitness c w) by (rewrite <- replaces_iff; congruence).
      exists pre, (post ++ [c]). split; [|split].
      * rewrite app_comm_cons, E, <- app_assoc. reflexivity.
      * exact Hpre.
      * intros x Hx. apply in_app_or in Hx. destruct Hx as [Hx|[<-|[]]]; auto.
Qed.

(** Claim C6.  [chooseField] starts from the first candidate and, for each
    further candidate, replaces the best one exactly when the candidate has
    strictly greater fitness, or equal fitness and strictly greater stated
    confidence.  Hence the winner is the first candidate that no other
    candidate beats: every earlier candidate is strictly worse and no later
    candidate is strictly better, so an exact tie goes to the first-listed
    candidate, with its value, confidence and provenance. *)
Theorem chooseField_first_best (c0 : Field T) (rest : list (Field T)) :
  (* the loop: one step per further candidate *)
  (chooseField fitness [c0] = Ok c0)
  /\ (forall c best,
        chooseField fitness (c0 :: rest) = Ok best ->
        chooseField fitness (c0 :: rest ++ [c])
        = Ok (if replaces fitness best c then c else best))
  /\ (forall best c, replaces fitness best c = true <-> beats T fitness c best)
  (* hence the winner is the first of the best candidates *)
  /\ exists pre w post,
       c0 :: rest = pre ++ w :: post
       /\ chooseField fitness (c0 :: rest) = Ok w
       /\ (forall x, In x pre -> beats T fitness w x)
       /\ (forall x, In x post -> ~ beats T fitness x w).
Proof.
  split; [apply chooseField_cons|]. split; [|split; [apply replaces_iff|]].
  - intros c best. rewrite !chooseField_cons, fold_left_app. cbn [fold_left].
    intros [= <-]. reflexivity.
  - destruct (fold_first_best rest c0) as (pre & post & E & H1 & H2).
    exists pre, (fold_left (chooseStep fitness) rest c0), post.
    rewrite chooseField_cons. auto.
Qed.

End ChooseFieldFacts.

(** Two candidates of equal fitness: the higher stated confidence wins, and
    the first one on a tie. *)
Lemma chooseField_tie (T : Type) (fitness : option T -> Q) (a b : Field T) :
  (fitness (value a) == fitness (value b))%Q ->
  chooseField fitness [a; b]
  = Ok (if Qlt_le_dec (confidence a) (confidence b) then b else a).
Proof.
  intros E. rewrite chooseField_cons. cbn [fold_left]. unfold chooseStep.
  destruct (replaces fitness a b) eqn:R.
  - apply replaces_iff in R. destruct R as [R|[_ R]]; [lra|].
    destruct (Qlt_le_dec _ _); [reflexivity|lra].
  - destruct (Qlt_le_dec _ _) as [L|L]; [|reflexivity].
    assert (beats T fitness b a) as B by (right; split; [lra|exact L]).
    apply replaces_iff in B. congruence.
Qed.

(** ** Fusion *)

(** Cleaning a typed author list never throws. *)
Lemma cleanAuthors_asAuthors a : exists r, cleanAuthors (asAuthors a) = Ok r.
Proof.
  destruct a as [[|x xs]|]; cbn [asAuthors List.map cleanAuthors]; eauto.
Qed.

(** The document-type chooser returns whenever the language-model value is
    an object. *)
Lemma chosenDocType_obj parser o sections :
  exists chosen, chosenDocType parser (LlmObj o) sections = Ok chosen.
Proof. unfold chosenDocType. cbn [getProp bind]. rewrite chooseField_cons. eauto. Qed.

(** The parts of a successful fusion. *)
Lemma fuse_inv now base parser l sections fm :
  fuseCandidates now base parser l sections = Ok fm ->
  exists chosen picked,
    chosenDocType parser l sections = Ok chosen
    /\ fused_document_type fm = preprintOverride sections chosen
    /\ value (fused_document_date fm)
       = sanitizeDocumentDate now picked sections (cameFromHeader parser).
Proof.
  unfold fuseCandidates.
  destruct (chosenDocType parser l sections) as [chosen|] eqn:Hc; [|discriminate].
  cbn [bind].
  destruct (cleanAuthors (asAuthors _)) as [ap|]; [|discriminate]. cbn [bind].
  destruct (getProp authors l) as [la|]; [|discriminate]. cbn [bind].
  destruct (cleanAuthors la) as [al|]; [|discriminate]. cbn [bind].
  rewrite !chooseField_cons. cbn [bind].
  destruct (getProp summary l) as [vs|]; [|discriminate]. cbn [bind].
  destruct (getProp methods_summary l) as [vm|]; [|discriminate]. cbn [bind].
  destruct (getProp findings_summary l) as [vf|]; [|discriminate]. cbn [bind].
  intros [= <-]. cbn [fused_document_type fused_document_date value].
  eauto.
Qed.

(** The fusion returns as soon as the language-model value is an object whose
    [authors] is not a non-empty string. *)
Lemma fuse_returns now base parser o sections :
  (forall c s, authors o <> AString (c :: s)) ->
  exists fm, fuseCandidates now base parser (LlmObj o) sections = Ok fm.
Proof.
  intros Ha. unfold fuseCandidates.
  destruct (chosenDocType_obj parser o sections) as (chosen & ->). cbn [bind].
  destruct (cleanAuthors_asAuthors
              (firstArray match parser with
                          | Some p => cand_authors (candidates p)
                          | None => None
                          end (cand_authors base))) as (ap & ->).
  cbn [bind getProp].
  assert (exists al, cleanAuthors (authors o) = Ok al) as (al & ->).
  { destruct (authors o) as [| |[|c s]|[|x xs]] eqn:E; cbn [cleanAuthors]; eauto.
    exfalso. eapply Ha; eauto. }
  cbn [bind]. rewrite !chooseField_cons. cbn [bind]. eauto.
Qed.

(** Claim C2 fails on the code: [fuseCandidates] throws a [TypeError] when
    the language-model value is [null] or [undefined] (it reads
    [llm.document_type] unguarded) and when [authors] is a non-empty string
    (a string has no [map] method). *)
Theorem fuseCandidates_throws_on_null_llm (now : Z) (base : Candidates)
    (parser : option ParsedDoc) (sections : Sections) :
  fuseCandidates now base parser LlmNull sections = Throw TypeError
  /\ fuseCandidates now base parser LlmUndefined sections = Throw TypeError
  /\ forall o c s, authors o = AString (c :: s) ->
       fuseCandidates now base parser (LlmObj o) sections = Throw TypeError.
Proof.
  split; [reflexivity|]. split; [reflexivity|].
  intros o c s Ha. unfold fuseCandidates.
  destruct (chosenDocType_obj parser o sections) as (chosen & ->). cbn [bind].
  destruct (cleanAuthors_asAuthors
              (firstArray match parser with
                          | Some p => cand_authors (candidates p)
                          | None => None
                          end (cand_authors base))) as (ap & ->).
  cbn [bind getProp]. rewrite Ha. reflexivity.
Qed.

(** Claim C8.  When at least two preprint cues match and the document type
    selected by the generic chooser is not ["Preprint"], the fused
    [document_type] is ["Preprint"] with confidence [max(previous, 0.9)] and
    provenance ["heuristic"]. *)
Theorem preprint_override (now : Z) (base : Candidates)
    (parser : option ParsedDoc) (l : Llm) (sections : Sections)
    (chosen : Field jsstring) (fm : FusedMetadata) :
  (2 <= preprintSignals sections)%nat ->
  chosenDocType parser l sections = Ok chosen ->
  value chosen <> Some Preprint ->
  fuseCandidates now base parser l sections = Ok fm ->
  fused_document_type fm
  = mkField (Some Preprint) (mathMax (confidence chosen) 0.9%Q) heuristic.
Proof.
  intros Hs Hc Hv Hf.
  destruct (fuse_inv _ _ _ _ _ _ Hf) as (chosen' & picked & Hc' & -> & _).
  rewrite Hc in Hc'. injection Hc' as <-.
  unfold preprintOverride, strongPreprintHeuristic.
  apply Nat.leb_le in Hs. rewrite Hs.
  change (truthy (Some Preprint)) with true. cbn [andb].
  destruct (value chosen) as [v|] eqn:Ev; [|reflexivity].
  unfold str_eqb. destruct (list_eq_dec N.eq_dec v Preprint) as [->|Hne]; [|reflexivity].
  exfalso. apply Hv. reflexivity.
Qed.

Lemma preprint_override_witness :
  exists chosen fm,
    chosenDocType None (LlmObj journalLlm) preprintSections = Ok chosen
    /\ fuseCandidates 2026 noCandidates None (LlmObj journalLlm) preprintSections
       = Ok fm
    /\ value chosen = Some (js "Journal Article")
    /\ fused_document_type fm = mkField (Some Preprint) 0.9%Q heuristic.
Proof.
  eexists. eexists.
  split; [vm_compute; reflexivity|].
  split; [vm_compute; reflexivity|].
  split; [reflexivity|].
  refine (preprint_override 2026 noCandidates None (LlmObj journalLlm)
            preprintSections _ _ _ eq_refl _ eq_refl).
  - vm_compute. lia.
  - vm_compute. intros H. discriminate H.
Defined.

(** Claim C9, for candidates of their declared types (the dates of the
    parser, of the base record and of the language model are strings, [null]
    or missing).  Whenever [fuseCandidates] returns, the value of its
    [document_date] field is [null] or a string that matches
    [^\d{4}(-\d{2}(-\d{2})?)?$] and whose leading four digits are a year
    within [1900, now + 1]. *)
Theorem fused_date_shape (now : Z) (base : Candidates)
    (parser : option ParsedDoc) (l : Llm) (sections : Sections)
    (fm : FusedMetadata) :
  fuseCandidates now base parser l sections = Ok fm ->
  match value (fused_document_date fm) with
  | None => True
  | Some d =>
      test reISOShape d = true
      /\ exists y, yearOf d = Some y /\ (1900 <= y <= now + 1)%Z
  end.
Proof.
  intros Hf. destruct (fuse_inv _ _ _ _ _ _ Hf) as (chosen & picked & _ & _ & Hd).
  destruct (value (fused_document_date fm)) as [d|]; [|exact I].
  symmetry in Hd. destruct (sanitize_shape _ _ _ _ _ Hd) as [Hs Hy].
  rewrite test_reISOShape. auto.
Qed.

Lemma fused_date_shape_witness :
  exists fm,
    fuseCandidates 2026 noCandidates (Some dayParser) (LlmObj emptyLlm) noEvidence
    = Ok fm
    /\ value (fused_document_date fm) = Some (js "2024-05")
    /\ test reISOShape (js "2024-05") = true
    /\ exists y, yearOf (js "2024-05") = Some y /\ (1900 <= y <= 2026 + 1)%Z.
Proof.
  eexists. split; [vm_compute; reflexivity|]. split; [reflexivity|].
  exact (fused_date_shape 2026 noCandidates (Some dayParser) (LlmObj emptyLlm)
           noEvidence _ eq_refl).
Defined.

(** ** Numeric dates *)

(** Facts about the code units of a numeric date. *)
Lemma cmem_dateSep c :
  cmem false (unions [CChar 45; CChar 47; CChar 46]) c = isDateSep c.
Proof. cbv [unions cmem andb]. unfold isDateSep. now rewrite !orb_false_r, orb_assoc. Qed.

Lemma digit_word c : isDigit c = true -> isWordChar c = true.
Proof. intros H. unfold isWordChar. rewrite H. now rewrite orb_true_r. Qed.

Lemma digit_not_sep c : isDigit c = true -> isDateSep c = false.
Proof. intros H. unfold isDateSep. char_arith. Qed.


#[local] Arguments N.eqb : simpl nomatch.
#[local] Arguments isWordChar : simpl never.
#[local] Arguments isDateSep : simpl never.

Ltac digit_facts :=
  repeat match goal with
  | H : isDigit ?x = true |- _ =>
      lazymatch goal with
      | _ : isWordChar x = true |- _ => fail
      | _ => pose proof (digit_word _ H); pose proof (digit_not_sep _ H)
      end
  end.

Ltac norm2 := rewrite ?cmem_digit, ?cmem_char, ?cmem_dateSep.

Ltac use_hyps :=
  repeat match goal with
  | H : isDigit ?x = _ |- context [isDigit ?x] => rewrite H
  | H : isWordChar ?x = _ |- context [isWordChar ?x] => rewrite H
  | H : isDateSep ?x = _ |- context [isDateSep ?x] => rewrite H
  | H : N.eqb ?c ?x = _ |- context [N.eqb ?c ?x] => rewrite H
  end.

Ltac closed_tests :=
  repeat match goal with
  | |- context [isDigit (Npos ?p)] =>
      let b := eval vm_compute in (isDigit (Npos p)) in
      change (isDigit (Npos p)) with b
  | |- context [isWordChar (Npos ?p)] =>
      let b := eval vm_compute in (isWordChar (Npos p)) in
      change (isWordChar (Npos p)) with b
  | |- context [isDateSep (Npos ?p)] =>
      let b := eval vm_compute in (isDateSep (Npos p)) in
      change (isDateSep (Npos p)) with b
  | |- context [N.eqb (Npos ?p) (Npos ?q)] =>
      let b := eval vm_compute in (N.eqb (Npos p) (Npos q)) in
      change (N.eqb (Npos p) (Npos q)) with b
  end.

Ltac ev :=
  repeat (cbn; norm2; closed_tests; use_hyps; cbn;
          try match goal with
          | |- context [N.eqb (Npos ?c) ?x] =>
              is_var x;
              let E := fresh "E" in
              destruct (N.eqb (Npos c) x) eqn:E;
              [apply N.eqb_eq in E; subst x|]
          end).


(** A separator is not a digit, not a word character, and none of the digits
    the year pattern names. *)
Lemma sep_facts c :
  isDateSep c = true ->
  isDigit c = false /\ isWordChar c = false
  /\ N.eqb 50 c = false /\ N.eqb 48 c = false /\ N.eqb 49 c = false
  /\ N.eqb 57 c = false.
Proof.
  unfold isDateSep. rewrite !orb_true_iff, !N.eqb_eq.
  intros [[<-|<-]|<-]; repeat split; reflexivity.
Qed.

Ltac sep_facts_tac :=
  repeat match goal with
  | H : isDateSep ?x = true |- _ =>
      lazymatch goal with
      | _ : isWordChar x = false |- _ => fail
      | _ => destruct (sep_facts _ H) as (? & ? & ? & ? & ? & ?)
      end
  end.

(** The possible shapes of the three parts. *)
Lemma isDigits12_cases A :
  isDigits12 A = true ->
  (exists a, A = [a] /\ isDigit a = true)
  \/ (exists a a', A = [a; a'] /\ isDigit a = true /\ isDigit a' = true).
Proof.
  destruct A as [|a [|a' [|? ?]]]; try discriminate; cbn [isDigits12].
  - eauto.
  - rewrite andb_true_iff. intros []. right. eauto.
Qed.

Lemma isCenturyYear_cases Y :
  isCenturyYear Y = true ->
  exists c d, isDigit c = true /\ isDigit d = true
    /\ (Y = [50; 48; c; d]%N \/ Y = [49; 57; c; d]%N).
Proof.
  intros H. do 4 (destruct Y as [|? Y]; [discriminate|]). destruct Y; [|discriminate].
  cbn [isCenturyYear] in H. rewrite !andb_true_iff, orb_true_iff, !andb_true_iff, !N.eqb_eq in H.
  destruct H as [[[[<- <-]|[<- <-]] ?] ?]; eauto 10.
Qed.

Section NumericShape.

Variables (A B Y : jsstring) (s1 s2 : N).
Hypothesis HA : isDigits12 A = true.
Hypothesis HB : isDigits12 B = true.
Hypothesis H1 : isDateSep s1 = true.
Hypothesis H2 : isDateSep s2 = true.
Hypothesis HY : isCenturyYear Y = true.

Ltac open_shape :=
  destruct (isDigits12_cases _ HA) as [(a & -> & ?)|(a & a' & -> & ? & ?)];
  destruct (isDigits12_cases _ HB) as [(b & -> & ?)|(b & b' & -> & ? & ?)];
  destruct (isCenturyYear_cases _ HY) as (c & d & ? & ? & [->| ->]);
  digit_facts; sep_facts_tac; cbn [app].

(** The year-first pattern finds nothing in [A sep B sep Year]. *)
Lemma exec_reNumYMD_none : exec reNumYMD (A ++ s1 :: B ++ s2 :: Y) = None.
Proof.
  unfold exec, reNumYMD, re, seqs, year4, dateSep, digits, digit.
  open_shape; ev; reflexivity.
Qed.

(** The day/month-first pattern matches the whole text and captures its three
    parts. *)
Lemma exec_reNumABY_some :
  exec reNumABY (A ++ s1 :: B ++ s2 :: Y)
  = Some (mkMatch 0 (A ++ s1 :: B ++ s2 :: Y) [Some A; Some B; Some Y]).
Proof.
  unfold exec, reNumABY, re, seqs, year4, dateSep, digits, digit.
  open_shape; ev; reflexivity.
Qed.

End NumericShape.

(** *** The disambiguation rule *)

(** The ten digits, for proofs by enumeration. *)
Lemma digit_cases c :
  isDigit c = true ->
  In c [48; 49; 50; 51; 52; 53; 54; 55; 56; 57]%N.
Proof.
  unfold isDigit, inRange. rewrite andb_true_iff, !N.leb_le. intros [L U].
  cbn [In].
  assert (c = 48 \/ c = 49 \/ c = 50 \/ c = 51 \/ c = 52 \/ c = 53 \/ c = 54
          \/ c = 55 \/ c = 56 \/ c = 57)%N as D by lia.
  intuition auto.
Qed.

Ltac enum_digit H :=
  apply digit_cases in H; cbn [In] in H;
  repeat (destruct H as [H|H]; [subst|]); [..|contradiction].

(** Printing the parsed numbers gives back the year and the zero-padded
    parts. *)
Lemma stringOfZ_century Y :
  isCenturyYear Y = true -> stringOfZ (toNumber Y) = Y.
Proof.
  intros H. destruct (isCenturyYear_cases _ H) as (c & d & Hc & Hd & [->| ->]);
    enum_digit Hc; enum_digit Hd; vm_compute; reflexivity.
Qed.

Lemma pad2_digits A :
  isDigits12 A = true -> pad2 (toNumber A) = padStart0 2 A.
Proof.
  intros H. destruct (isDigits12_cases _ H) as [(a & -> & Ha)|(a & a' & -> & Ha & Ha')].
  - enum_digit Ha; vm_compute; reflexivity.
  - enum_digit Ha; enum_digit Ha'; vm_compute; reflexivity.
Qed.

Lemma isDigits12_forallb A : isDigits12 A = true -> forallb isDigit A = true /\ A <> [].
Proof.
  intros H. destruct (isDigits12_cases _ H) as [(a & -> & Ha)|(a & a' & -> & Ha & Ha')];
    cbn [forallb]; rewrite ?Ha, ?Ha'; split; (reflexivity || discriminate).
Qed.

(** Claim C5.  For a numeric date [A sep B sep Year] (one or two digits,
    a separator among [-], [/], [.], a 19xx or 20xx year): if [A > 12] and
    day [A] is valid for month [B], the result is Year-B-A; otherwise if
    [B > 12] and day [B] is valid for month [A], it is Year-A-B; otherwise if
    [A] is within [1, 12] the result is Year-A only, with no day.  In the
    remaining case the later steps of [parseNumericDate] decide. *)
Theorem numeric_disambiguation (A B Y : jsstring) (s1 s2 : N) :
  isDigits12 A = true -> isDigits12 B = true ->
  isDateSep s1 = true -> isDateSep s2 = true ->
  isCenturyYear Y = true ->
  let a := toNumber A in
  let b := toNumber B in
  let y := toNumber Y in
  parseNumericDate (A ++ s1 :: B ++ s2 :: Y) =
  if ((a >? 12)%Z && isValidYMD y b a)%bool
  then Some (Y ++ dash ++ padStart0 2 B ++ dash ++ padStart0 2 A)
  else if ((b >? 12)%Z && isValidYMD y a b)%bool
  then Some (Y ++ dash ++ padStart0 2 A ++ dash ++ padStart0 2 B)
  else if ((1 <=? a) && (a <=? 12))%Z
  then Some (Y ++ dash ++ padStart0 2 A)
  else parseYearMonthOrYear (A ++ s1 :: B ++ s2 :: Y).
Proof.
  intros HA HB H1 H2 HY a b y.
  unfold parseNumericDate, parseDayMonthYear.
  rewrite (exec_reNumYMD_none A B Y s1 s2 HA HB H1 H2 HY).
  rewrite (exec_reNumABY_some A B Y s1 s2 HA HB H1 H2 HY).
  unfold capInt, group. cbn [groups nth Nat.sub orEmpty].
  destruct (isDigits12_forallb _ HA) as [FA NA].
  destruct (isDigits12_forallb _ HB) as [FB NB].
  destruct (century_digits _ HY) as [FY NY].
  rewrite (parseInt_digits _ FA NA), (parseInt_digits _ FB NB), (parseInt_digits _ FY NY).
  subst a b y. rewrite !(stringOfZ_century _ HY), !(pad2_digits _ HA), !(pad2_digits _ HB).
  destruct ((toNumber A >? 12)%Z && isValidYMD (toNumber Y) (toNumber B) (toNumber A))%bool;
    [reflexivity|].
  destruct ((toNumber B >? 12)%Z && isValidYMD (toNumber Y) (toNumber A) (toNumber B))%bool;
    [reflexivity|].
  destruct ((1 <=? toNumber A) && (toNumber A <=? 12))%Z; reflexivity.
Qed.

Lemma numeric_disambiguation_witness :
  parseNumericDate (js "05/06/2023") = Some (js "2023-05").
Proof.
  exact (numeric_disambiguation (js "05") (js "06") (js "2023") 47 47
           eq_refl eq_refl eq_refl eq_refl eq_refl).
Defined.

(** ** The date ranker and the author zone *)

(** [toISO] rejects a year outside [1900, now + 1]. *)
Lemma toISO_year_bound now y m d Y :
  parseInt y = Some Y -> (Y < 1900 \/ now + 1 < Y)%Z -> toISO now y m d = None.
Proof.
  intros Hy Hb. unfold toISO. rewrite Hy.
  destruct (Z.ltb_spec Y 1900); [reflexivity|].
  rewrite Z.gtb_ltb. destruct (Z.ltb_spec (now + 1) Y); [reflexivity|lia].
Qed.

(** Claim C4 fails on the code for numeric dates: [toISO] rejects a year
    beyond [now + 1], but [parseNumericDate] never compares the year with the
    current one.  With the current year 2026, a numeric date of 2028 is
    returned by the cue-window scan and by the line-scoring fallback. *)
Theorem ranker_keeps_future_numeric_year :
  (* current year 2026, a numeric date of the year 2028 *)
  toISO 2026 (js "2028") None None = None
  /\ parseNumericDate (js "2028-05-13") = Some (js "2028-05-13")
  /\ findRankedDate 2026 (js "Posted: 2028-05-13") (js "Posted: 2028-05-13")
     = Some (js "2028-05-13")
  /\ findRankedDate 2026 (js "Version of 13.05.2028") (js "Version of 13.05.2028")
     = Some (js "2028-05-13")
  (* and so whatever the current year is *)
  /\ (forall now,
        findRankedDate now (js "Posted: 2028-05-13") (js "Posted: 2028-05-13")
        = Some (js "2028-05-13")).
Proof. repeat split; try intros now; vm_compute; reflexivity. Qed.

(** Claim C7 fails on the code: a stop cue found more than 12 lines after
    the start still ends the zone.  In [longZoneHeader] the zone starts at
    line 1 and the first stop cue is at line 15, so the zone has 14 lines,
    whereas the earliest of [start + 12] and the stop cue would be line 13. *)
Theorem author_zone_runs_to_late_stop_cue :
  let lines := toLines longZoneHeader in
  titleIndex lines = Some 0
  /\ zoneStart lines = 1
  /\ firstStopCue (skipn 1 lines) 1 40 = Some 15
  /\ zoneEnd lines 1 = 15
  /\ Nat.min (1 + 12) 15 = 13
  /\ sliceAuthorZone longZoneHeader = join newline (sliceLines lines 1 15)
  /\ List.length (sliceLines lines 1 15) = 14.
Proof. repeat split; vm_compute; reflexivity. Qed.

(** The two outcomes of the stop-cue loop. *)
Lemma zoneEnd_stop lines start i :
  firstStopCue (skipn start lines) start 40 = Some i -> zoneEnd lines start = i.
Proof. unfold zoneEnd. now intros ->. Qed.

Lemma zoneEnd_no_stop lines start :
  firstStopCue (skipn start lines) start 40 = None ->
  zoneEnd lines start = Nat.min (List.length lines) (start + 12).
Proof. unfold zoneEnd. now intros ->. Qed.

(** ** The repository's tests, on the model *)

(** tests/ensemble.fuse-date.spec.ts: the day is dropped without evidence. *)
Example test_drops_day :
  exists fm,
    fuseCandidates 2026 noCandidates (Some dayParser) (LlmObj emptyLlm) noEvidence
    = Ok fm
    /\ value (fused_document_date fm) = Some (js "2024-05").
Proof. eexists. split; vm_compute; reflexivity. Qed.

(** The day is kept when [parser.meta.dateFromHeader] is true. *)
Example test_keeps_day_from_header :
  exists fm,
    fuseCandidates 2026 noCandidates
      (Some (mkParsedDoc heuristic (candidates dayParser) (Some (mkMeta (Some true)))))
      (LlmObj emptyLlm) (mkSections (Some (js "anything")) (Some (js "anything")))
    = Ok fm
    /\ value (fused_document_date fm) = Some (js "2024-05-13").
Proof. eexists. split; vm_compute; reflexivity. Qed.

(** The parser date is preferred over the language-model date. *)
Example test_prefers_parser_date :
  exists fm,
    fuseCandidates 2026 noCandidates
      (Some (mkParsedDoc heuristic
               (mkCandidates (Some [js "Jane Doe"]) (Some (js "2024-05"))) None))
      (LlmObj (mkLlm TUndefined AUndefined (TString (js "2023")) TUndefined
                 TUndefined TUndefined))
      (mkSections (Some []) (Some []))
    = Ok fm
    /\ value (fused_document_date fm) = Some (js "2024-05")
    /\ provenance (fused_document_date fm) = heuristic.
Proof. eexists. repeat split; vm_compute; reflexivity. Qed.

(** The author test: organisations are filtered out of the parser's list. *)
Example test_filters_affiliations :
  exists fm,
    fuseCandidates 2026 noCandidates
      (Some (mkParsedDoc heuristic
               (mkCandidates
                  (Some [js "Jessica Ann Gomez"; js "Karla Abela";
                         js "Imperial College London"])
                  (Some (js "2024-01-01"))) None))
      (LlmObj emptyLlm) noEvidence
    = Ok fm
    /\ value (fused_authors fm) = Some [js "Jessica Ann Gomez"; js "Karla Abela"].
Proof. eexists. split; vm_compute; reflexivity. Qed.

(** tests/pdf.parse.unit.spec.ts: the ambiguous numeric date keeps the month
    only. *)
Example test_ambiguous_numeric :
  findRankedDate 2026 (textLines ["Received: 05/06/2023"; "Abstract"; "x"])
    (textLines ["Received: 05/06/2023"; "Abstract"; "x"])
  = Some (js "2023-05").
Proof. vm_compute. reflexivity. Qed.

(** Posted-date evidence: a cue verb, an optional colon or dash, and a date
    right after it. *)
Example evidence_phrases :
  let ev t := hasPostedDateEvidence (mkSections (Some (js t)) None) in
  ev "Posted: May 2, 2024" = true
  /\ ev "published online 2 sept 2021" = true
  /\ ev "Accepted - 2024-05-02" = true
  /\ ev "posted on May 2, 2024" = false
  /\ ev "May 2, 2024 (Published)" = false
  /\ ev "no evidence" = false.
Proof. repeat split; vm_compute; reflexivity. Qed.

(** In the three month-name patterns the month is captured twice, so the
    captures passed to [toISO] as year are the day (or the month name): a
    month-name date after a cue makes the ranker return [null]. *)
Example month_name_after_cue :
  findRankedDate 2026 (js "Posted: May 2, 2024") (js "Posted: May 2, 2024") = None
  /\ findRankedDate 2026 (js "Posted: 2 May 2024") (js "Posted: 2 May 2024") = None.
Proof. split; vm_compute; reflexivity. Qed.


(** * Further properties *)

(** ** The fused record *)

(** The chooser returns one of its candidates. *)
Lemma chooseField_member (T : Type) (fitness : option T -> Q)
    (c0 : Field T) (rest : list (Field T)) (r : Field T) :
  chooseField fitness (c0 :: rest) = Ok r -> In r (c0 :: rest).
Proof.
  rewrite chooseField_cons. intros [= <-]. revert c0.
  induction rest as [|c rest IH]; intros c0; cbn [fold_left]; [now left|].
  destruct (IH (chooseStep fitness c0 c)) as [H|H].
  - unfold chooseStep in H at 1. destruct (replaces fitness c0 c).
    + right. left. exact H.
    + left. exact H.
  - right. right. exact H.
Qed.

(** The heuristic guess is one of five non-empty labels. *)
Lemma guessDocumentType_truthy sections :
  truthy (Some (guessDocumentType sections)) = true.
Proof.
  unfold guessDocumentType.
  repeat match goal with |- context [if ?b then _ else _] => destruct b end;
    reflexivity.
Qed.

Lemma guessDocumentType_preprint sections :
  (2 <= preprintSignals sections)%nat -> guessDocumentType sections = Preprint.
Proof. intros H. unfold guessDocumentType. apply Nat.leb_le in H. now rewrite H. Qed.

(** The document type the chooser selects: the normalized language-model
    type when it is a non-empty string, the heuristic guess otherwise. *)
Lemma chosenDocType_eq parser o sections :
  chosenDocType parser (LlmObj o) sections
  = Ok (if truthy (normalizeDocType (textOrNull (document_type o)))
        then mkField (normalizeDocType (textOrNull (document_type o))) 0.7%Q llm
        else mkField (Some (guessDocumentType sections)) 0.6%Q
               (methodOrHeuristic parser)).
Proof.
  unfold chosenDocType. cbn [getProp bind]. rewrite chooseField_cons.
  cbn [fold_left]. unfold chooseStep, replaces. cbn [value confidence].
  unfold docTypeFitness. rewrite guessDocumentType_truthy.
  destruct (truthy (normalizeDocType _)); reflexivity.
Qed.

Lemma fused_type_truthy (now : Z) (base : Candidates)
    (parser : option ParsedDoc) (l : Llm) (sections : Sections)
    (fm : FusedMetadata) :
  fuseCandidates now base parser l sections = Ok fm ->
  truthy (value (fused_document_type fm)) = true.
Proof.
  intros Hf. destruct (fuse_inv _ _ _ _ _ _ Hf) as (chosen & picked & Hc & -> & _).
  destruct l as [| |o]; try discriminate Hc.
  rewrite chosenDocType_eq in Hc. injection Hc as Hc.
  assert (Ht : truthy (value chosen) = true).
  { subst chosen. destruct (truthy (normalizeDocType _)) eqn:E; cbn [value]; auto.
    apply guessDocumentType_truthy. }
  unfold preprintOverride, strongPreprintHeuristic.
  destruct (2 <=? preprintSignals sections)%nat; cbn [truthy andb].
  - change (truthy (Some Preprint)) with true. cbn [andb].
    destruct (negb _); [reflexivity|exact Ht].
  - exact Ht.
Qed.

(** X1: whenever the fusion returns, the fused document type is a non-empty
    string, and it is [Preprint] as soon as two preprint cues match the
    header and body, whatever the language model proposed. *)
Theorem fused_document_type_never_null (now : Z) (base : Candidates)
    (parser : option ParsedDoc) (l : Llm) (sections : Sections)
    (fm : FusedMetadata) :
  fuseCandidates now base parser l sections = Ok fm ->
  truthy (value (fused_document_type fm)) = true
  /\ ((2 <= preprintSignals sections)%nat ->
      value (fused_document_type fm) = Some Preprint).
Proof.
  intros Hf. split; [exact (fused_type_truthy _ _ _ _ _ _ Hf)|].
  destruct (fuse_inv _ _ _ _ _ _ Hf) as (chosen & picked & _ & -> & _).
  unfold preprintOverride, strongPreprintHeuristic.
  intros Hs. apply Nat.leb_le in Hs. rewrite Hs.
  change (truthy (Some Preprint)) with true. cbn [andb].
  destruct (value chosen) as [v|] eqn:Ev; cbn [negb]; [|reflexivity].
  unfold str_eqb. destruct (list_eq_dec N.eq_dec v Preprint) as [->|Hne];
    cbn [negb]; [exact Ev|reflexivity].
Qed.

Lemma fused_document_type_never_null_witness :
  exists fm,
    fuseCandidates 2026 noCandidates None (LlmObj journalLlm) preprintSections
    = Ok fm
    /\ truthy (value (fused_document_type fm)) = true
    /\ value (fused_document_type fm) = Some Preprint.
Proof.
  eexists. split; [vm_compute; reflexivity|].
  destruct (fused_document_type_never_null 2026 noCandidates None
              (LlmObj journalLlm) preprintSections _ eq_refl) as [H1 H2].
  split; [exact H1|]. apply H2. vm_compute. lia.
Defined.

(** The author cleaner never returns an empty list. *)
Lemma cleanAuthors_not_empty (x : JsAuthors) :
  cleanAuthors x <> Ok (Some []).
Proof.
  unfold cleanAuthors.
  destruct x as [| |[|? ?]|[|? ?]]; try discriminate.
  destruct (dedupe [] _); discriminate.
Qed.

(** The two author candidates of a successful fusion, and the chooser call
    that selects between them. *)
Lemma fuse_authors_inv (now : Z) (base : Candidates)
    (parser : option ParsedDoc) (o : LlmObject) (sections : Sections)
    (fm : FusedMetadata) :
  fuseCandidates now base parser (LlmObj o) sections = Ok fm ->
  exists ap al,
    cleanAuthors (parsedAuthorsRaw base parser) = Ok ap
    /\ cleanAuthors (authors o) = Ok al
    /\ chooseField authorsFitness
         [ mkField ap (match ap with Some _ => 0.96%Q | None => 0.2%Q end)
             (methodOrHeuristic parser);
           mkField al (match al with Some _ => 0.72%Q | None => 0.3%Q end) llm ]
       = Ok (fused_authors fm).
Proof.
  unfold fuseCandidates, parsedAuthorsRaw.
  destruct (chosenDocType parser (LlmObj o) sections) as [chosen|]; [|discriminate].
  cbn [bind].
  destruct (cleanAuthors (asAuthors _)) as [ap|] eqn:Eap; [|discriminate].
  cbn [bind getProp].
  destruct (cleanAuthors (authors o)) as [al|] eqn:Eal; [|discriminate].
  cbn [bind].
  destruct (chooseField authorsFitness _) as [af|] eqn:Ec; [|discriminate].
  cbn [bind]. rewrite !chooseField_cons. cbn [bind].
  intros [= <-]. cbn [fused_authors]. exists ap, al. auto.
Qed.

(** X2: the fused authors are the cleaned parser (or base) list whenever that
    list is non-null, with confidence 0.96 and the parser's method; otherwise
    the cleaned language-model list with confidence 0.72; when both are
    null, the null value with confidence 0.3 attributed to the language
    model. *)
Theorem fused_authors_preference (now : Z) (base : Candidates)
    (parser : option ParsedDoc) (o : LlmObject) (sections : Sections)
    (fm : FusedMetadata) :
  fuseCandidates now base parser (LlmObj o) sections = Ok fm ->
  exists ap al,
    cleanAuthors (parsedAuthorsRaw base parser) = Ok ap
    /\ cleanAuthors (authors o) = Ok al
    /\ fused_authors fm
       = match ap, al with
         | Some _, _ => mkField ap 0.96%Q (methodOrHeuristic parser)
         | None, Some _ => mkField al 0.72%Q llm
         | None, None => mkField None 0.3%Q llm
         end.
Proof.
  intros Hf.
  destruct (fuse_authors_inv _ _ _ _ _ _ Hf) as (ap & al & Hap & Hal & Hc).
  exists ap, al. split; [exact Hap|]. split; [exact Hal|].
  rewrite chooseField_cons in Hc. injection Hc as <-.
  destruct ap as [[|a ap]|]; [now apply cleanAuthors_not_empty in Hap| |];
    (destruct al as [[|b al]|]; [now apply cleanAuthors_not_empty in Hal| |]);
    reflexivity.
Qed.

Lemma fused_authors_preference_witness :
  exists fm,
    fuseCandidates 2026 noCandidates (Some dayParser) (LlmObj emptyLlm) noEvidence
    = Ok fm
    /\ fused_authors fm = mkField (Some [js "Jane Doe"]) 0.96%Q heuristic.
Proof.
  eexists. split; [vm_compute; reflexivity|].
  match goal with
  | |- fused_authors ?f = _ =>
      destruct (fused_authors_preference 2026 noCandidates (Some dayParser)
                  emptyLlm noEvidence f) as (ap & al & Hap & Hal & E);
        [vm_compute; reflexivity|]
  end.
  vm_compute in Hap. injection Hap as <-. exact E.
Defined.

(** ** The fused date *)

(** [isValidISO] on a year-month value checks the month only. *)
Lemma exec_reISOParts_month s :
  isMonthShape s = true ->
  exists m, exec reISOParts s = Some m
    /\ group m 1 = Some (slice s 0 4) /\ group m 2 = Some (slice s 5 7)
    /\ group m 3 = None.
Proof.
  intros H. unfold reISOParts, re, seqs. rewrite exec_bol.
  do 7 (destruct s as [|? s]; [discriminate|]). destruct s; [|discriminate].
  cbn [isMonthShape] in H. rewrite !andb_true_iff in H.
  repeat match goal with H : _ /\ _ |- _ => destruct H end.
  cbn. rewrite ?cmem_digit, ?cmem_char.
  repeat match goal with
         | H : _ = true |- _ => rewrite H; clear H; cbn; rewrite ?cmem_digit, ?cmem_char
         end.
  eexists; repeat split; reflexivity.
Qed.

Lemma isValidISO_month s :
  isMonthShape s = true ->
  isValidISO s
  = ((1 <=? toNumber (slice s 5 7)) && (toNumber (slice s 5 7) <=? 12))%Z.
Proof.
  intros H. unfold isValidISO. rewrite test_reYearOnly.
  destruct (exec_reISOParts_month _ H) as (m & -> & -> & -> & ->).
  assert (isYearShape s = false) as ->.
  { do 5 (destruct s as [|? s]; try discriminate). reflexivity. }
  cbn [truthy orEmpty]. rewrite Z.gtb_ltb.
  destruct (Z.ltb_spec (toNumber (slice s 5 7)) 1),
    (Z.ltb_spec 12 (toNumber (slice s 5 7))),
    (Z.leb_spec 1 (toNumber (slice s 5 7))),
    (Z.leb_spec (toNumber (slice s 5 7)) 12); try lia; reflexivity.
Qed.

(** Sanitizing the result of a sanitizing pass, with the same sections and a
    flag that was either off or the same in the first pass, yields only valid
    ISO dates. *)
Lemma sanitize_twice_valid now ds sections f1 f2 d :
  f1 = false \/ f1 = f2 ->
  sanitizeDocumentDate now (sanitizeDocumentDate now ds sections f1) sections f2
  = Some d ->
  isValidISO d = true.
Proof.
  intros Hf. destruct (sanitizeDocumentDate now ds sections f1) as [r|] eqn:H1;
    [|discriminate].
  destruct (sanitize_shape _ _ _ _ _ H1) as (Hs & y & Hy & Hr).
  rewrite sanitize_unfold, (normalizedDate_iso _ Hs), (isoShape_truthy _ Hs).
  cbn [negb orEmpty]. cbv zeta. rewrite Hs. cbn [negb].
  destruct (yearInRange now r); cbn [negb]; [|discriminate].
  destruct (isDayShape r && negb (hasPostedDateEvidence sections) && negb f2)%bool
    eqn:Hb.
  - exfalso. rewrite !andb_true_iff, !negb_true_iff in Hb.
    destruct Hb as [[Hd Hev] Hf2].
    revert H1. rewrite sanitize_unfold.
    destruct (negb (truthy ds)); [discriminate|].
    destruct (negb (truthy (normalizedDate ds))); [discriminate|]. cbv zeta.
    destruct (negb (isYearShape _ || _ || _)); [discriminate|].
    destruct (negb (yearInRange _ _)); [discriminate|].
    rewrite Hev. cbn [negb]. rewrite andb_true_r.
    assert (f1 = false) as -> by (destruct Hf; congruence). cbn [negb].
    rewrite andb_true_r.
    destruct (isDayShape (orEmpty (normalizedDate ds))) eqn:Hd0.
    + intros Hx. assert (r = firstn 7 (orEmpty (normalizedDate ds))) by congruence.
      subst r. rewrite (month_not_day _ (firstn7_day _ Hd0)) in Hd. discriminate.
    + destruct (isValidISO (orEmpty (normalizedDate ds))); [|discriminate].
      intros Hx. assert (r = orEmpty (normalizedDate ds)) by congruence. subst r.
      rewrite Hd0 in Hd. discriminate.
  - destruct (isValidISO r) eqn:Hv; [|discriminate].
    intros Hx. assert (d = r) by congruence. subst d. exact Hv.
Qed.

(** How the date field of a successful fusion is computed. *)
Lemma fuse_date_inv now base parser l sections fm :
  fuseCandidates now base parser l sections = Ok fm ->
  exists picked,
    chooseField dateFitness
      [ mkField (sanitizeDocumentDate now (parsedDateRaw base parser) sections
                   (cameFromHeader parser))
          (if truthy (sanitizeDocumentDate now (parsedDateRaw base parser)
                        sections (cameFromHeader parser))
           then 0.92%Q else 0.2%Q)
          (methodOrHeuristic parser);
        mkField (sanitizeDocumentDate now (llmDateRaw l) sections false)
          (if truthy (sanitizeDocumentDate now (llmDateRaw l) sections false)
           then 0.7%Q else 0.3%Q) llm ] = Ok picked
    /\ fused_document_date fm
       = mkField (sanitizeDocumentDate now (value picked) sections
                    (cameFromHeader parser))
           (if truthy (sanitizeDocumentDate now (value picked) sections
                         (cameFromHeader parser))
            then confidence picked else 0.2%Q)
           (provenance picked).
Proof.
  unfold fuseCandidates, parsedDateRaw, llmDateRaw.
  destruct (chosenDocType parser l sections) as [chosen|]; [|discriminate].
  cbn [bind].
  destruct (cleanAuthors (asAuthors _)) as [ap|]; [|discriminate]. cbn [bind].
  destruct (getProp authors l) as [la|]; [|discriminate]. cbn [bind].
  destruct (cleanAuthors la) as [al|]; [|discriminate]. cbn [bind].
  rewrite !chooseField_cons. cbn [bind].
  destruct (getProp summary l) as [vs|]; [|discriminate]. cbn [bind].
  destruct (getProp methods_summary l) as [vm|]; [|discriminate]. cbn [bind].
  destruct (getProp findings_summary l) as [vf|]; [|discriminate]. cbn [bind].
  intros [= <-]. cbn [fused_document_date]. eexists. split; reflexivity.
Qed.

Lemma fused_date_isValid (now : Z) (base : Candidates)
    (parser : option ParsedDoc) (l : Llm) (sections : Sections)
    (fm : FusedMetadata) (d : jsstring) :
  fuseCandidates now base parser l sections = Ok fm ->
  value (fused_document_date fm) = Some d ->
  isValidISO d = true.
Proof.
  intros Hf Hd. destruct (fuse_date_inv _ _ _ _ _ _ Hf) as (picked & Hp & E).
  rewrite E in Hd. cbn [value] in Hd.
  apply chooseField_member in Hp. destruct Hp as [<-|[<-|[]]]; cbn [value] in Hd.
  - eapply sanitize_twice_valid; [|exact Hd]. now right.
  - eapply sanitize_twice_valid; [|exact Hd]. now left.
Qed.

(** X3: a non-null fused document date always passes [isValidISO]: unless it
    is a bare year its month lies in 1..12, and a full date has a day in
    1..31 that exists in the calendar. *)
Theorem fused_date_valid (now : Z) (base : Candidates)
    (parser : option ParsedDoc) (l : Llm) (sections : Sections)
    (fm : FusedMetadata) (d : jsstring) :
  fuseCandidates now base parser l sections = Ok fm ->
  value (fused_document_date fm) = Some d ->
  isValidISO d = true
  /\ (isYearShape d = false ->
      (1 <= toNumber (slice d 5 7) <= 12)%Z)
  /\ (isDayShape d = true ->
      (1 <= toNumber (slice d 8 10) <= 31)%Z
      /\ roundTrips (toNumber (slice d 0 4)) (toNumber (slice d 5 7))
           (toNumber (slice d 8 10)) = true).
Proof.
  intros Hf Hd. pose proof (fused_date_isValid _ _ _ _ _ _ _ Hf Hd) as Hv.
  destruct (fuse_date_inv _ _ _ _ _ _ Hf) as (picked & _ & E).
  rewrite E in Hd. cbn [value] in Hd.
  destruct (sanitize_shape _ _ _ _ _ Hd) as (Hs & _).
  split; [exact Hv|]. split.
  - intros Hy. rewrite Hy in Hs. cbn [orb] in Hs.
    destruct (isMonthShape d) eqn:Hm.
    + rewrite (isValidISO_month _ Hm), andb_true_iff, !Z.leb_le in Hv. exact Hv.
    + cbn [orb] in Hs. rewrite (isValidISO_day _ Hs), !andb_true_iff, !Z.leb_le in Hv.
      lia.
  - intros Hday. rewrite (isValidISO_day _ Hday), !andb_true_iff, !Z.leb_le in Hv.
    tauto.
Qed.

Lemma fused_date_valid_witness :
  exists fm,
    fuseCandidates 2026 noCandidates (Some dayParser) (LlmObj emptyLlm) noEvidence
    = Ok fm
    /\ isValidISO (js "2024-05") = true.
Proof.
  eexists. split; [vm_compute; reflexivity|].
  refine (proj1 (fused_date_valid 2026 noCandidates (Some dayParser)
                   (LlmObj emptyLlm) noEvidence _ (js "2024-05") eq_refl _)).
  vm_compute. reflexivity.
Defined.

(** X4: the fused document date comes from the parser's sanitized date unless
    that is null or the language model's sanitized date is strictly more
    precise; the value is the chosen candidate sanitized once more with the
    parser's header flag. *)
Theorem fused_date_preference (now : Z) (base : Candidates)
    (parser : option ParsedDoc) (l : Llm) (sections : Sections)
    (fm : FusedMetadata) :
  fuseCandidates now base parser l sections = Ok fm ->
  let dp := sanitizeDocumentDate now (parsedDateRaw base parser) sections
              (cameFromHeader parser) in
  let dl := sanitizeDocumentDate now (llmDateRaw l) sections false in
  let fromParser :=
    (truthy dp && negb (num_gt (dateFitness dl) (dateFitness dp)))%bool in
  provenance (fused_document_date fm)
  = (if fromParser then methodOrHeuristic parser else llm)
  /\ value (fused_document_date fm)
     = sanitizeDocumentDate now (if fromParser then dp else dl) sections
         (cameFromHeader parser).
Proof.
  intros Hf dp dl fromParser.
  destruct (fuse_date_inv _ _ _ _ _ _ Hf) as (picked & Hp & ->).
  fold dp dl in Hp. cbn [provenance value].
  rewrite chooseField_cons in Hp. cbn [fold_left] in Hp. injection Hp as <-.
  unfold chooseStep, replaces. cbn [value confidence]. subst fromParser.
  unfold dateFitness.
  destruct (truthy dp), (truthy dl); cbn [negb andb];
    repeat match goal with
           | |- context [test ?r ?s] => destruct (test r s)
           end;
    split; reflexivity.
Qed.

Lemma fused_date_preference_witness :
  exists fm,
    fuseCandidates 2026 noCandidates (Some dayParser) (LlmObj emptyLlm) noEvidence
    = Ok fm
    /\ provenance (fused_document_date fm) = heuristic
    /\ value (fused_document_date fm) = Some (js "2024-05").
Proof.
  eexists. split; [vm_compute; reflexivity|].
  exact (fused_date_preference 2026 noCandidates (Some dayParser)
           (LlmObj emptyLlm) noEvidence _ eq_refl).
Defined.

(** ** The author cleaner *)

Lemma dedupe_spec xs : forall seen,
  NoDup (List.map toLowerCase (dedupe seen xs))
  /\ (forall n, In n (dedupe seen xs) -> In n xs /\ ~ In (toLowerCase n) seen).
Proof.
  induction xs as [|x xs IH]; intros seen; cbn [dedupe].
  - split; [constructor|intros n []].
  - destruct (existsb (str_eqb (toLowerCase x)) seen) eqn:E.
    + destruct (IH seen) as [H1 H2]. split; [exact H1|].
      intros n Hn. destruct (H2 n Hn). split; [now right|assumption].
    + destruct (IH (toLowerCase x :: seen)) as [H1 H2]. split.
      * cbn [List.map]. constructor; [|exact H1].
        intros Hin. apply in_map_iff in Hin. destruct Hin as (n & Hn & Hin).
        destruct (H2 n Hin) as [_ Hs]. apply Hs. left. now symmetry.
      * intros n [<-|Hn].
        -- split; [now left|]. intros Hin.
           assert (existsb (str_eqb (toLowerCase x)) seen = true); [|congruence].
           apply existsb_exists. exists (toLowerCase x). split; [exact Hin|].
           unfold str_eqb. destruct (list_eq_dec N.eq_dec _ _); congruence.
        -- destruct (H2 n Hn) as [Hx Hs]. split; [now right|].
           intros Hin. apply Hs. now right.
Qed.

Lemma In_firstn_looser (A : Type) (x : A) (l : list A) : forall n,
  In x (firstn n l) -> In x l.
Proof.
  induction l as [|a l IH]; intros [|n]; cbn; try tauto.
  intros [H|H]; [now left|right; eauto].
Qed.

Lemma NoDup_firstn (A : Type) (n : nat) (l : list A) : NoDup l -> NoDup (firstn n l).
Proof.
  revert n. induction l as [|a l IH]; intros [|n] H; cbn; try constructor.
  - inversion H; subst. intros Hin. apply H2. eapply (In_firstn_looser); eauto.
  - inversion H; subst. auto.
Qed.

Lemma In_skipn_looser (A : Type) (x : A) (n : nat) : forall l : list A,
  In x (skipn n l) -> In x l.
Proof.
  induction n as [|n IH]; intros [|a l]; cbn; try tauto. intros H. right. eauto.
Qed.

Lemma dropWhile_suffix p s : exists pre, s = pre ++ dropWhile p s.
Proof.
  induction s as [|a s [pre IH]]; cbn [dropWhile]; [now exists []|].
  destruct (p a); [exists (a :: pre); cbn; now rewrite <- IH|now exists []].
Qed.

Lemma trim_sub s : exists pre post, s = pre ++ trim s ++ post.
Proof.
  unfold trim, trimEnd, trimStart.
  destruct (dropWhile_suffix isSpace s) as [pre E].
  destruct (dropWhile_suffix isSpace (rev (dropWhile isSpace s))) as [pre' E'].
  exists pre, (rev pre'). rewrite <- rev_app_distr, <- E', rev_involutive. exact E.
Qed.

(** Every code unit of the result of a global replacement comes from the
    input or from the replacement text. *)
Lemma replaceFrom_units x rep c :
  forall s prev skip,
    In c (replaceFrom x rep prev s skip) -> In c s \/ In c rep.
Proof.
  induction s as [|a s IH]; intros prev skip; cbn [replaceFrom].
  - destruct skip; [|intros []]. destruct (matchAt x prev []); [auto|intros []].
  - destruct skip as [|n].
    + destruct (matchAt x prev (a :: s)) as [[[|n] cp]|]; rewrite ?in_app_iff;
        cbn [In]; intros H;
        repeat match goal with
               | H : _ \/ _ |- _ => destruct H as [H|H]
               end; auto;
        destruct (IH _ _ H); auto.
    + intros H. destruct (IH _ _ H); cbn [In]; auto.
Qed.

Lemma replaceFirst_units x rep c s :
  In c (replaceFirst x rep s) -> In c s \/ In c rep.
Proof.
  unfold replaceFirst. destruct (exec x s) as [m|]; [|auto].
  rewrite !in_app_iff. intros [H|[H|H]]; [left|now right|left].
  - eapply In_firstn_looser; eauto.
  - eapply In_skipn_looser; eauto.
Qed.

Lemma trim_units c s : In c (trim s) -> In c s.
Proof.
  intros H. destruct (trim_sub s) as (pre & post & E). rewrite E, !in_app_iff. auto.
Qed.

(** The clean-up applied to each entry keeps it within [plainText]. *)
Lemma normalized_plain s :
  plainText s = true ->
  plainText (trim (collapseSpaces
                     (replaceFirst reLeadingBy [] (replaceAll dropDegree [] s))))
  = true.
Proof.
  unfold plainText. rewrite !forallb_forall. intros Hs c Hc.
  apply trim_units in Hc. unfold collapseSpaces, replaceAll in Hc.
  apply replaceFrom_units in Hc. destruct Hc as [Hc|[<-|[]]]; [|reflexivity].
  apply replaceFirst_units in Hc. destruct Hc as [Hc|[]].
  apply replaceFrom_units in Hc. destruct Hc as [Hc|[]]. now apply Hs.
Qed.

(** What a non-null result of the author cleaner is made of. *)
Lemma cleanAuthors_inv (a : JsAuthors) (names : list jsstring) :
  cleanAuthors a = Ok (Some names) ->
  exists normalized,
    names = firstn 24 (dedupe [] normalized)
    /\ names <> []
    /\ forall n, In n normalized ->
         isLikelyPersonName n = true
         /\ isDocLabelLine n = false
         /\ (3 <= List.length n)%nat
         /\ (plainAuthors a = true -> plainText n = true).
Proof.
  unfold cleanAuthors.
  destruct a as [| |[|? ?]|[|x xs]]; try discriminate.
  set (normalized := filter isLikelyPersonName _).
  destruct (dedupe [] normalized) as [|n0 out] eqn:E; [discriminate|].
  intros Hn. assert (names = firstn 24 (n0 :: out)) as -> by congruence. clear Hn.
  exists normalized. rewrite E. split; [reflexivity|]. split; [discriminate|].
  intros n Hn'. unfold normalized in Hn'.
  apply filter_In in Hn'. destruct Hn' as [Hn' Hp].
  apply filter_In in Hn'. destruct Hn' as [Hn' Hl].
  apply filter_In in Hn'. destruct Hn' as [Hn' Hlen].
  apply negb_true_iff in Hl. apply Nat.leb_le in Hlen.
  repeat split; auto.
  intros Hplain. apply in_map_iff in Hn'. destruct Hn' as (s & <- & Hs).
  apply in_map_iff in Hs. destruct Hs as (e & <- & He).
  apply normalized_plain. unfold plainAuthors in Hplain.
  rewrite forallb_forall in Hplain. now apply Hplain.
Qed.

Lemma cleanAuthors_members (a : JsAuthors) (names : list jsstring) :
  cleanAuthors a = Ok (Some names) ->
  names <> []
  /\ (List.length names <= 24)%nat
  /\ forall n, In n names -> isLikelyPersonName n = true.
Proof.
  intros H. destruct (cleanAuthors_inv _ _ H) as (normalized & -> & Hne & Hall).
  split; [exact Hne|]. split; [apply firstn_le_length|].
  intros n Hn. apply In_firstn_looser in Hn.
  destruct (dedupe_spec normalized []) as [_ Hin].
  destruct (Hin n Hn) as [Hn' _]. now destruct (Hall n Hn').
Qed.

(** X5: for author entries written in Basic Latin, Latin-1 and general
    punctuation, the text on which lower-casing is modelled exactly, a
    non-null result of the author cleaner is a non-empty list of at most 24
    names; every name is again such text, has at least three code units, is
    not a document label and looks like a person's name; and no two names
    are equal up to letter case. *)
Theorem cleanAuthors_invariants (a : JsAuthors) (names : list jsstring) :
  plainAuthors a = true ->
  cleanAuthors a = Ok (Some names) ->
  names <> []
  /\ (List.length names <= 24)%nat
  /\ (forall n, In n names ->
        plainText n = true
        /\ isLikelyPersonName n = true
        /\ isDocLabelLine n = false
        /\ (3 <= List.length n)%nat)
  /\ NoDup (List.map toLowerCase names).
Proof.
  intros Hplain H.
  destruct (cleanAuthors_inv _ _ H) as (normalized & -> & Hne & Hall).
  destruct (dedupe_spec normalized []) as [Hnd Hin].
  split; [exact Hne|]. split; [apply firstn_le_length|]. split.
  - intros n Hn. apply In_firstn_looser in Hn.
    destruct (Hin n Hn) as [Hn' _].
    destruct (Hall n Hn') as (H1 & H2 & H3 & H4). auto.
  - rewrite <- firstn_map. now apply NoDup_firstn.
Qed.

Lemma cleanAuthors_invariants_witness :
  cleanAuthors (AArray [EString (js "By Jane Doe, PhD"); EString (js "jane doe");
                        EString (js "Imperial College London"); ENonString])
  = Ok (Some [js "Jane Doe"])
  /\ [js "Jane Doe"] <> []
  /\ NoDup (List.map toLowerCase [js "Jane Doe"]).
Proof.
  split; [vm_compute; reflexivity|].
  destruct (cleanAuthors_invariants
              (AArray [EString (js "By Jane Doe, PhD"); EString (js "jane doe");
                       EString (js "Imperial College London"); ENonString])
              [js "Jane Doe"] eq_refl eq_refl) as (H1 & _ & _ & H4).
  split; [exact H1|exact H4].
Defined.

(** ** What a successful match establishes *)

Lemma run_sound (ic : bool) (R : Type) (r : regex) :
  forall base prev pos s c (k : cont R) x,
    @run ic R r base prev pos s c k = Some x ->
    exists p' pos' s' c',
      matches ic r base (prev, pos, s, c) (p', pos', s', c')
      /\ k p' pos' s' c' = Some x.
Proof.
  induction r as [|cs|r1 IH1 r2 IH2|r1 IH1 r2 IH2|mn mx r1 IH1|r1 IH1| | |];
    intros base prev pos s c k x; cbn [matches fst snd];
    match goal with
    | |- context [Rep] => idtac
    | _ => cbn [run]
    end.
  - intros H. do 4 eexists. split; [reflexivity|exact H].
  - destruct s as [|a s']; [discriminate|].
    destruct (cmem ic cs a) eqn:E; [|discriminate].
    intros H. do 4 eexists. split; [|exact H].
    exists a, s'. repeat split. exact E.
  - intros H. apply IH1 in H. destruct H as (p1 & pos1 & s1 & c1 & H1 & H).
    apply IH2 in H. destruct H as (p2 & pos2 & s2 & c2 & H2 & H).
    do 4 eexists. split; [|exact H]. eexists. split; eassumption.
  - destruct (@run ic R r1 base prev pos s c k) eqn:E.
    + intros H0. rewrite <- H0. apply IH1 in E. destruct E as (p1 & pos1 & s1 & c1 & H1 & H).
      do 4 eexists. split; [left; exact H1|exact H].
    + intros H. apply IH2 in H. destruct H as (p1 & pos1 & s1 & c1 & H1 & H).
      do 4 eexists. split; [right; exact H1|exact H].
  - pose (loop :=
      fix loop (fuel mn : nat) (mx : option nat) (prev : option N) (pos : nat)
          (s : jsstring) (c : caps) {struct fuel} : option R :=
        match fuel with
        | O => None
        | S fuel' =>
            match mx with
            | Some O => k prev pos s c
            | _ =>
                let iter :=
                  @run ic R r1 base prev pos s (clearCaps base (ngroups r1) c)
                    (fun p' pos' s' c' =>
                       if (Nat.eqb mn 0 && Nat.eqb pos' pos)%bool then None
                       else loop fuel' (Nat.pred mn) (option_map Nat.pred mx)
                              p' pos' s' c') in
                if Nat.ltb 0 mn then iter
                else match iter with
                     | Some x => Some x
                     | None => k prev pos s c
                     end
            end
        end).
    assert (Hloop : forall fuel mn mx prev pos s c x,
      loop fuel mn mx prev pos s c = Some x ->
      exists p' pos' s' c',
        iter (fun a b =>
                matches ic r1 base
                  (fst (fst (fst a)), snd (fst (fst a)), snd (fst a),
                   clearCaps base (ngroups r1) (snd a)) b)
          mn mx (prev, pos, s, c) (p', pos', s', c')
        /\ k p' pos' s' c' = Some x).
    { clear prev pos s c x. clear mn mx.
      induction fuel as [|fuel IHf]; intros mn mx prev pos s c x;
        [discriminate|].
      assert (Hstep : forall y,
        @run ic R r1 base prev pos s (clearCaps base (ngroups r1) c)
          (fun p' pos' s' c' =>
             if (Nat.eqb mn 0 && Nat.eqb pos' pos)%bool then None
             else loop fuel (Nat.pred mn) (option_map Nat.pred mx) p' pos' s' c')
        = Some y ->
        mx <> Some 0%nat ->
        exists p' pos' s' c',
          iter (fun a b =>
                  matches ic r1 base
                    (fst (fst (fst a)), snd (fst (fst a)), snd (fst a),
                     clearCaps base (ngroups r1) (snd a)) b)
            mn mx (prev, pos, s, c) (p', pos', s', c')
          /\ k p' pos' s' c' = Some y).
      { intros y H Hmx. apply IH1 in H. destruct H as (p1 & pos1 & s1 & c1 & H1 & H).
        destruct (Nat.eqb mn 0 && Nat.eqb pos1 pos)%bool; [discriminate|].
        apply IHf in H. destruct H as (p2 & pos2 & s2 & c2 & H2 & H).
        do 4 eexists. split; [|exact H].
        eapply iter_step; [exact Hmx| |exact H2]. exact H1. }
      change (loop (S fuel) mn mx prev pos s c) with
        (match mx with
         | Some O => k prev pos s c
         | _ =>
             if Nat.ltb 0 mn
             then @run ic R r1 base prev pos s (clearCaps base (ngroups r1) c)
                    (fun p' pos' s' c' =>
                       if (Nat.eqb mn 0 && Nat.eqb pos' pos)%bool then None
                       else loop fuel (Nat.pred mn) (option_map Nat.pred mx)
                              p' pos' s' c')
             else match @run ic R r1 base prev pos s (clearCaps base (ngroups r1) c)
                          (fun p' pos' s' c' =>
                             if (Nat.eqb mn 0 && Nat.eqb pos' pos)%bool then None
                             else loop fuel (Nat.pred mn) (option_map Nat.pred mx)
                                    p' pos' s' c') with
                  | Some x => Some x
                  | None => k prev pos s c
                  end
         end).
      assert (Hstop : forall y, k prev pos s c = Some y ->
                (mn = 0%nat \/ mx = Some 0%nat) ->
        exists p' pos' s' c',
          iter (fun a b =>
                  matches ic r1 base
                    (fst (fst (fst a)), snd (fst (fst a)), snd (fst a),
                     clearCaps base (ngroups r1) (snd a)) b)
            mn mx (prev, pos, s, c) (p', pos', s', c')
          /\ k p' pos' s' c' = Some y).
      { intros y H Hc. do 4 eexists. split; [|exact H]. now apply iter_stop. }
      destruct mx as [[|mx]|].
      - intros H. apply Hstop; auto.
      - destruct (Nat.ltb 0 mn) eqn:Em.
        + intros H. apply Hstep; [exact H|discriminate].
        + match goal with |- match ?e with _ => _ end = _ -> _ => destruct e eqn:E end.
          * intros H0. apply Hstep; [exact H0|discriminate].
          * intros H. apply Hstop; [exact H|]. left. apply Nat.ltb_ge in Em. lia.
      - destruct (Nat.ltb 0 mn) eqn:Em.
        + intros H. apply Hstep; [exact H|discriminate].
        + match goal with |- match ?e with _ => _ end = _ -> _ => destruct e eqn:E end.
          * intros H0. apply Hstep; [exact H0|discriminate].
          * intros H. apply Hstop; [exact H|]. left. apply Nat.ltb_ge in Em. lia. }
    intros H. apply (Hloop (S (mn + List.length s))). exact H.
  - intros H. apply IH1 in H. destruct H as (p1 & pos1 & s1 & c1 & H1 & H).
    do 4 eexists. split; [|exact H]. eexists. split; [exact H1|reflexivity].
  - destruct prev; [discriminate|]. intros H. do 4 eexists. split; [|exact H]. now split.
  - destruct s; [|discriminate]. intros H. do 4 eexists. split; [|exact H]. now split.
  - destruct (xorb _ _) eqn:E; [|discriminate].
    intros H. do 4 eexists. split; [|exact H]. now split.
Qed.

Lemma matchAt_sound x prev s len c :
  matchAt x prev s = Some (len, c) ->
  exists p' s',
    matches (ignoreCase x) (pattern x) 0
      (prev, 0%nat, s, repeat None (ngroups (pattern x))) (p', len, s', c).
Proof.
  unfold matchAt. intros H. apply run_sound in H.
  destruct H as (p' & pos' & s' & c' & H & E).
  assert (pos' = len /\ c' = c) as [-> ->] by (split; congruence).
  exists p', s'. exact H.
Qed.

(** A match consumes a prefix of the input and advances the offset by its
    length; a pattern without groups leaves the captures alone. *)
Lemma matches_extends ic r :
  forall base st st', matches ic r base st st' ->
    (exists w, snd (fst st) = w ++ snd (fst st')
               /\ snd (fst (fst st')) = (snd (fst (fst st)) + List.length w)%nat)
    /\ (ngroups r = 0%nat -> snd st' = snd st).
Proof.
  induction r as [|cs|r1 IH1 r2 IH2|r1 IH1 r2 IH2|mn mx r1 IH1|r1 IH1| | |];
    intros base st st'; cbn [matches ngroups].
  - intros ->. split; [exists []; split; [reflexivity|cbn; lia]|reflexivity].
  - intros (a & s' & Hs & _ & ->). cbn [fst snd]. split; [|reflexivity].
    exists [a]. split; [exact Hs|cbn; lia].
  - intros (st1 & H1 & H2). apply IH1 in H1. apply IH2 in H2.
    destruct H1 as [(w1 & Hs1 & Hp1) Hc1], H2 as [(w2 & Hs2 & Hp2) Hc2]. split.
    + exists (w1 ++ w2). rewrite Hs1, Hs2, Hp2, Hp1, <- app_assoc, length_app.
      split; [reflexivity|lia].
    + intros Hn. rewrite Hc2 by lia. apply Hc1. lia.
  - intros [H|H]; [apply IH1 in H|apply IH2 in H];
      (destruct H as [Hw Hc]; split; [exact Hw|intros Hn; apply Hc; lia]).
  - intros H. induction H as [mn mx st _|mn mx st st1 st2 _ H1 _ IH].
    + split; [exists []; split; [reflexivity|cbn; lia]|reflexivity].
    + apply IH1 in H1. cbn [fst snd] in H1.
      destruct H1 as [(w1 & Hs1 & Hp1) Hc1], IH as [(w2 & Hs2 & Hp2) Hc2]. split.
      * exists (w1 ++ w2). rewrite Hs1, Hs2, Hp2, Hp1, <- app_assoc, length_app.
        split; [reflexivity|lia].
      * intros Hn. rewrite Hc2 by exact Hn. rewrite Hc1 by exact Hn. rewrite Hn. reflexivity.
  - intros (st1 & H1 & ->). apply IH1 in H1. destruct H1 as [Hw _]. cbn [fst snd].
    split; [exact Hw|discriminate].
  - intros [_ ->]. split; [exists []; split; [reflexivity|cbn; lia]|reflexivity].
  - intros [_ ->]. split; [exists []; split; [reflexivity|cbn; lia]|reflexivity].
  - intros [_ ->]. split; [exists []; split; [reflexivity|cbn; lia]|reflexivity].
Qed.

(** Repetitions of one character class. *)
Lemma iter_chars ic cs base mn mx st st' :
  iter (fun a b =>
          matches ic (Chr cs) base
            (fst (fst (fst a)), snd (fst (fst a)), snd (fst a),
             clearCaps base 0 (snd a)) b) mn mx st st' ->
  exists w,
    snd (fst st) = w ++ snd (fst st')
    /\ snd (fst (fst st')) = (snd (fst (fst st)) + List.length w)%nat
    /\ snd st' = snd st
    /\ forallb (cmem ic cs) w = true
    /\ (forall h, mx = Some h -> (mn <= h)%nat -> (mn <= List.length w <= h)%nat)
    /\ (mx = None -> (mn <= List.length w)%nat).
Proof.
  intros H. induction H as [mn mx st Hstop|mn mx st st1 st2 Hmx H1 _ IH].
  - exists []. cbn [app List.length forallb].
    split; [reflexivity|]. split; [lia|]. split; [reflexivity|].
    split; [reflexivity|]. split.
    + intros h Eh Hle. destruct Hstop as [->|E]; [lia|].
      assert (h = 0%nat) by congruence. lia.
    + intros ->. destruct Hstop as [->|E]; [lia|discriminate].
  - cbn [matches fst snd clearCaps] in H1. destruct H1 as (a & s' & Hs & Ha & ->).
    cbn [fst snd] in IH. destruct IH as (w & Hw & Hp & Hc & Hall & Hb & Hn).
    exists (a :: w). cbn [List.length forallb app]. rewrite Ha, Hall.
    split; [rewrite Hs, Hw; reflexivity|]. split; [rewrite Hp; lia|].
    split; [exact Hc|]. split; [reflexivity|]. split.
    + intros h Eh Hle. destruct mx as [[|h']|]; try congruence.
      assert (h = S h') by congruence. subst h.
      cbn [option_map Nat.pred] in Hb. specialize (Hb h' eq_refl). lia.
    + intros ->. specialize (Hn eq_refl). lia.
Qed.

(** The rest of the input is the input from the offset on; a group whose
    body matched captures the text the body consumed. *)
Lemma matches_skipn ic r base (s0 : jsstring) prev pos s c p' pos' s' c' :
  matches ic r base (prev, pos, s, c) (p', pos', s', c') ->
  id s = skipn pos s0 -> id s' = skipn pos' s0.
Proof.
  intros H I. apply matches_extends in H. cbn [fst snd] in H.
  destruct H as [(w & Hs & ->) _]. unfold id in *.
  rewrite Nat.add_comm, <- skipn_skipn, <- I, Hs.
  rewrite skipn_app, skipn_all, Nat.sub_diag. reflexivity.
Qed.

Lemma group_capture ic r base (s0 : jsstring) prev pos s c p' pos' s' c' :
  matches ic r base (prev, pos, s, c) (p', pos', s', c') ->
  id s = skipn pos s0 ->
  exists w, id s = w ++ s' /\ capText s0 (Some (pos, pos')) = Some w.
Proof.
  intros H I. apply matches_extends in H. cbn [fst snd] in H.
  destruct H as [(w & Hs & ->) _]. exists w. split; [exact Hs|].
  unfold id in I. unfold capText, slice. rewrite <- I, Hs.
  replace (pos + List.length w - pos)%nat with (List.length w + 0)%nat by lia.
  rewrite firstn_app_2. cbn [firstn]. now rewrite app_nil_r.
Qed.

Lemma matchAt_sound_id x prev s len c :
  matchAt x prev s = Some (len, c) ->
  id s = skipn 0 s
  /\ exists p' s',
       matches (ignoreCase x) (pattern x) 0
         (prev, 0%nat, s, repeat None (ngroups (pattern x))) (p', len, s', c).
Proof. intros H. split; [reflexivity|]. now apply matchAt_sound. Qed.

(** Taking apart the hypothesis that a pattern in constructor form matched:
    first the sequences, groups and alternatives, then the atoms. *)
Ltac mdecomp_step :=
  match goal with
  | H : matches _ (Seq _ _) _ (_, ?pos, ?s, _) _, I : id ?s = skipn ?pos ?s0 |- _ =>
      let st := fresh "st" in
      let H1 := fresh "M" in
      destruct H as (st & H1 & H); destruct st as [[[? ?] ?] ?];
      pose proof (matches_skipn _ _ _ s0 _ _ _ _ _ _ _ _ H1 I)
  | H : matches _ (Group _) _ (_, ?pos, ?s, _) _, I : id ?s = skipn ?pos ?s0 |- _ =>
      let st := fresh "st" in
      let H1 := fresh "M" in
      let E := fresh "E" in
      let w := fresh "w" in
      let Hw := fresh "Hw" in
      let C := fresh "C" in
      destruct H as (st & H1 & E); destruct st as [[[? ?] ?] ?];
      cbn [fst snd] in E;
      destruct (group_capture _ _ _ s0 _ _ _ _ _ _ _ _ H1 I) as (w & Hw & C);
      inversion E; subst; clear E
  | H : matches _ (Alt _ _) _ _ _ |- _ => destruct H as [H|H]
  end.

Ltac matom_step :=
  match goal with
  | H : matches _ WordB _ _ _ |- _ =>
      let E := fresh "E" in
      destruct H as [_ E]; inversion E; subst; clear E
  | H : matches _ Bol _ _ _ |- _ =>
      let E := fresh "E" in
      destruct H as [_ E]; inversion E; subst; clear E
  | H : matches _ Eol _ _ _ |- _ =>
      let E := fresh "E" in
      let E' := fresh "E" in
      destruct H as [E' E]; cbn [fst snd] in E'; inversion E; subst; clear E
  | H : matches _ Eps _ _ _ |- _ =>
      cbn [matches] in H; inversion H; subst; clear H
  | H : matches _ (Chr _) _ _ _ |- _ =>
      let a := fresh "a" in
      let s := fresh "s" in
      let Hs := fresh "Hs" in
      let Ha := fresh "Ha" in
      let E := fresh "E" in
      destruct H as (a & s & Hs & Ha & E); cbn [fst snd] in Hs, E;
      inversion E; subst; clear E
  | H : matches _ (Rep _ _ (Chr _)) _ _ _ |- _ =>
      let w := fresh "w" in
      let Hs := fresh "Hs" in
      let Hp := fresh "Hp" in
      let Hc := fresh "Hc" in
      let Hall := fresh "Hall" in
      let Hb := fresh "Hb" in
      let Hn := fresh "Hn" in
      apply iter_chars in H; cbn [fst snd] in H;
      destruct H as (w & Hs & Hp & Hc & Hall & Hb & Hn); subst
  | H : matches _ (Rep _ _ _) _ _ _ |- _ =>
      let w := fresh "w" in
      let Hs := fresh "Hs" in
      let Hp := fresh "Hp" in
      let Hc := fresh "Hc" in
      apply matches_extends in H; cbn [fst snd] in H;
      destruct H as [(w & Hs & Hp) Hc]; specialize (Hc eq_refl); subst
  end.

(** The text a group captured, read off the equation between what its body
    consumed and the rest of the input. *)
Ltac prefix_of X t :=
  lazymatch X with
  | t => constr:(@nil N)
  | ?a :: ?X' => let p := prefix_of X' t in constr:(a :: p)
  | ?u ++ ?X' => let p := prefix_of X' t in constr:(u ++ p)
  end.

Ltac solve_words :=
  unfold id in *;
  repeat match goal with
         | H : ?X = ?w ++ ?t |- _ =>
             is_var w;
             let p := prefix_of X t in
             assert (w = p)
               by (apply (app_inv_tail t); rewrite <- H;
                   repeat (progress (cbn [app]; rewrite <- ?app_assoc));
                   reflexivity);
             clear H; subst w
         end.

Ltac use_caps :=
  repeat match goal with
         | H : _ = skipn _ _ |- _ => clear H
         end;
  rewrite ?app_nil_r in *;
  cbn [List.map nth groups group Nat.sub];
  repeat match goal with
         | C : capText _ _ = _ |- _ => rewrite ?C; clear C
         end.

Ltac minvert := repeat mdecomp_step; repeat matom_step; solve_words; use_caps.

Ltac exec_inv x P :=
  unfold exec;
  let G := fresh "G" in
  assert (G : forall s prev idx m, searchFrom x prev s idx = Some m -> P m);
  [apply (searchFrom_inv x P);
   let H := fresh "H" in
   let I := fresh "I" in
   intros ? ? ? ? ? H; apply matchAt_sound_id in H; destruct H as (I & ? & ? & H);
   cbn [groups];
   let r := eval cbv in (pattern x) in change (pattern x) with r in H;
   cbn [ignoreCase x re rei ngroups Nat.add repeat] in H
  |intros s m; apply G].

(** ** The calendar *)

Ltac divlia := Z.div_mod_to_equations; lia.

Lemma yoe_inv (yoe doy : Z) :
  (0 <= yoe < 400)%Z -> (0 <= doy)%Z ->
  (doy < 365
   \/ (doy = 365 /\ (yoe + 1) mod 4 = 0
       /\ ((yoe + 1) mod 100 <> 0 \/ yoe = 399)))%Z ->
  (0 <= yoe * 365 + yoe / 4 - yoe / 100 + doy < 146097
   /\ ((yoe * 365 + yoe / 4 - yoe / 100 + doy)
       - (yoe * 365 + yoe / 4 - yoe / 100 + doy) / 1460
       + (yoe * 365 + yoe / 4 - yoe / 100 + doy) / 36524
       - (yoe * 365 + yoe / 4 - yoe / 100 + doy) / 146096) / 365 = yoe)%Z.
Proof.
  intros Hy Hd Hl.
  set (q := (yoe / 4)%Z).
  assert (Hq : (4 * q <= yoe < 4 * q + 4)%Z) by (unfold q; divlia).
  set (c := (yoe / 100)%Z).
  assert (Hc : (100 * c <= yoe < 100 * c + 100)%Z) by (unfold c; divlia).
  assert (Hl' : (doy < 365
                 \/ (doy = 365 /\ yoe = 4 * q + 3
                     /\ (yoe <> 100 * c + 99 \/ yoe = 399)))%Z).
  { destruct Hl as [?|[? [Hm Hn]]]; [now left|right]. split; [assumption|].
    split; [revert Hm; divlia|]. destruct Hn as [Hn|Hn]; [left|now right].
    revert Hn. divlia. }
  clearbody q c. clear Hl.
  set (doe := (yoe * 365 + q - c + doy)%Z).
  assert (Hdoe : (0 <= doe < 146097)%Z) by (unfold doe; lia).
  split; [exact Hdoe|].
  set (a := (doe / 1460)%Z). set (b := (doe / 36524)%Z). set (e := (doe / 146096)%Z).
  assert (Ha : (1460 * a <= doe < 1460 * a + 1460)%Z) by (unfold a; divlia).
  assert (Hb : (36524 * b <= doe < 36524 * b + 36524)%Z) by (unfold b; divlia).
  assert (He : (146096 * e <= doe < 146096 * e + 146096)%Z) by (unfold e; divlia).
  clearbody a b e.
  assert (G : (365 * yoe <= doe - a + b - e < 365 * yoe + 365)%Z); [|divlia].
  unfold doe in *. lia.
Qed.

(** Reading back a day number that was built from an era, a year of the era
    and a day of the year counted from the first of March. *)
Lemma civilFromDays_eq (era yoe doy : Z) :
  (0 <= yoe < 400)%Z -> (0 <= doy)%Z ->
  (doy < 365
   \/ (doy = 365 /\ (yoe + 1) mod 4 = 0
       /\ ((yoe + 1) mod 100 <> 0 \/ yoe = 399)))%Z ->
  JsDate.civilFromDays
    (era * 146097 + (yoe * 365 + yoe / 4 - yoe / 100 + doy) - 719468)
  = ((if ((if ((5 * doy + 2) / 153 <? 10)%Z then ((5 * doy + 2) / 153 + 3)%Z
           else ((5 * doy + 2) / 153 - 9)%Z) <=? 2)%Z
      then (yoe + era * 400 + 1)%Z else (yoe + era * 400)%Z),
     (if ((5 * doy + 2) / 153 <? 10)%Z then ((5 * doy + 2) / 153 + 3)%Z
      else ((5 * doy + 2) / 153 - 9)%Z),
     (doy - (153 * ((5 * doy + 2) / 153) + 2) / 5 + 1)%Z).
Proof.
  intros Hy Hd Hl. destruct (yoe_inv yoe doy Hy Hd Hl) as [Hdoe Hyoe].
  unfold JsDate.civilFromDays.
  set (doe := (yoe * 365 + yoe / 4 - yoe / 100 + doy)%Z) in *.
  replace (era * 146097 + doe - 719468 + 719468)%Z with (era * 146097 + doe)%Z by lia.
  assert (E : ((era * 146097 + doe) / 146097 = era)%Z) by divlia.
  cbv zeta. rewrite E.
  replace (era * 146097 + doe - era * 146097)%Z with doe by lia.
  rewrite Hyoe.
  replace (doe - (365 * yoe + yoe / 4 - yoe / 100))%Z with doy by (unfold doe; lia).
  reflexivity.
Qed.

Lemma leap_feb (y : Z) :
  isLeapYear y = true ->
  ((y - 1 - (y - 1) / 400 * 400 + 1) mod 4 = 0
   /\ ((y - 1 - (y - 1) / 400 * 400 + 1) mod 100 <> 0
       \/ y - 1 - (y - 1) / 400 * 400 = 399))%Z.
Proof.
  unfold isLeapYear. rewrite andb_true_iff, orb_true_iff, negb_true_iff.
  rewrite !Z.eqb_eq, Z.eqb_neq. intros [H4 H]. split.
  - revert H4. divlia.
  - destruct H as [H|H]; [left|right]; revert H; divlia.
Qed.

Ltac read_back mp :=
  match goal with
  | |- JsDate.civilFromDays
         (?era * 146097 + (?yoe * 365 + _ - _ + ?doy) - 719468) = _ =>
      let Hy := fresh "Hy" in
      let H0 := fresh "H0" in
      let E := fresh "E" in
      assert (Hy : (0 <= yoe < 400)%Z) by divlia;
      assert (H0 : (0 <= doy)%Z) by divlia;
      assert (E : ((5 * doy + 2) / 153 = mp)%Z) by divlia;
      rewrite (civilFromDays_eq era yoe doy Hy H0);
      [rewrite E;
       repeat match goal with
              | |- context [(?a <=? ?b)%Z] => destruct (Z.leb_spec a b)
              | |- context [(?a <? ?b)%Z] => destruct (Z.ltb_spec a b)
              end;
       repeat f_equal; divlia|]
  end.

Lemma civil_inverse (y m d : Z) :
  (1 <= m <= 12)%Z -> (1 <= d <= daysInMonth y m)%Z ->
  JsDate.civilFromDays (JsDate.daysFromCivil y m d) = (y, m, d).
Proof.
  intros Hm Hd.
  assert (Hc : (m = 1 \/ m = 2 \/ m = 3 \/ m = 4 \/ m = 5 \/ m = 6 \/ m = 7
                \/ m = 8 \/ m = 9 \/ m = 10 \/ m = 11 \/ m = 12)%Z) by lia.
  unfold JsDate.daysFromCivil.
  destruct Hc as [->|[->|Hc]].
  - cbn -[Z.div Z.mul Z.add Z.sub] in *. read_back 10%Z. left. divlia.
  - cbn -[Z.div Z.mul Z.add Z.sub isLeapYear] in *.
    destruct (isLeapYear y) eqn:L; read_back 11%Z; [|left; divlia].
    destruct (Z.eq_dec d 29) as [->|Hn]; [right|left; divlia].
    split; [divlia|]. exact (leap_feb y L).
  - repeat (destruct Hc as [->|Hc]); [..|subst m];
      cbn -[Z.div Z.mul Z.add Z.sub] in *.
    + read_back 0%Z. left. divlia.
    + read_back 1%Z. left. divlia.
    + read_back 2%Z. left. divlia.
    + read_back 3%Z. left. divlia.
    + read_back 4%Z. left. divlia.
    + read_back 5%Z. left. divlia.
    + read_back 6%Z. left. divlia.
    + read_back 7%Z. left. divlia.
    + read_back 8%Z. left. divlia.
    + read_back 9%Z. left. divlia.
Qed.

Lemma daysFromCivil_shift (y m d k : Z) :
  JsDate.daysFromCivil y m (d + k) = (JsDate.daysFromCivil y m d + k)%Z.
Proof. unfold JsDate.daysFromCivil. cbv zeta. lia. Qed.

Lemma isLeapYear_spec (y : Z) :
  (isLeapYear y = true
   /\ (y mod 4 = 0 /\ (y mod 100 <> 0 \/ y mod 400 = 0))%Z)
  \/ (isLeapYear y = false
      /\ (y mod 4 <> 0 \/ (y mod 100 = 0 /\ y mod 400 <> 0))%Z).
Proof.
  unfold isLeapYear.
  destruct (Z.eqb_spec (y mod 4) 0), (Z.eqb_spec (y mod 100) 0),
    (Z.eqb_spec (y mod 400) 0); cbn; intuition auto.
Qed.

(** The day after the last day of a month is the first of the next month. *)
Lemma next_month (y m : Z) :
  (1 <= m <= 12)%Z ->
  JsDate.daysFromCivil y m (daysInMonth y m + 1)
  = JsDate.daysFromCivil (y + m / 12) (m mod 12 + 1) 1.
Proof.
  intros Hm.
  assert (Hc : (m = 1 \/ m = 2 \/ m = 3 \/ m = 4 \/ m = 5 \/ m = 6 \/ m = 7
                \/ m = 8 \/ m = 9 \/ m = 10 \/ m = 11 \/ m = 12)%Z) by lia.
  repeat (destruct Hc as [->|Hc]); [..|subst m];
    match goal with
    | |- context [(?a / 12)%Z] =>
        let v := eval cbv in (a / 12)%Z in change (a / 12)%Z with v
    end;
    match goal with
    | |- context [(?a mod 12 + 1)%Z] =>
        let v := eval cbv in (a mod 12 + 1)%Z in change (a mod 12 + 1)%Z with v
    end;
    unfold daysInMonth, JsDate.daysFromCivil;
    cbn -[Z.div Z.mul Z.add Z.sub isLeapYear];
    try (destruct (isLeapYear_spec y) as [[-> H]|[-> H]]);
    divlia.
Qed.

Lemma daysInMonth_bounds (y m : Z) : (28 <= daysInMonth y m <= 31)%Z.
Proof.
  unfold daysInMonth. destruct (m =? 2)%Z; [destruct (isLeapYear y); lia|].
  destruct ((m =? 4) || (m =? 6) || (m =? 9) || (m =? 11))%Z; lia.
Qed.

Lemma make_eq (y mi d : Z) :
  (y < 0 \/ 100 <= y)%Z ->
  JsDate.make y mi d
  = (JsDate.daysFromCivil (y + mi / 12) (mi mod 12 + 1) 1 + d - 1)%Z.
Proof.
  intros Hy. unfold JsDate.make.
  destruct (Z.leb_spec 0 y), (Z.leb_spec y 99); cbn [andb]; try reflexivity; lia.
Qed.

(** [new Date(y, m, 0).getDate()] is the length of month [m]. *)
Lemma getDate_dim (y m : Z) :
  (y < 0 \/ 100 <= y)%Z -> (1 <= m <= 12)%Z ->
  JsDate.getDate (JsDate.make y m 0) = daysInMonth y m.
Proof.
  intros Hy Hm. rewrite (make_eq _ _ _ Hy), <- (next_month _ _ Hm).
  pose proof (daysInMonth_bounds y m) as B.
  replace (JsDate.daysFromCivil y m (daysInMonth y m + 1) + 0 - 1)%Z
    with (JsDate.daysFromCivil y m (daysInMonth y m))
    by (rewrite daysFromCivil_shift; lia).
  unfold JsDate.getDate. rewrite civil_inverse by lia. reflexivity.
Qed.

Lemma isValidYMD_month_range (y m d : Z) :
  (m < 1 \/ 12 < m)%Z -> isValidYMD y m d = false.
Proof.
  intros Hm. unfold isValidYMD. rewrite Z.gtb_ltb.
  destruct (Z.ltb_spec m 1), (Z.ltb_spec 12 m); cbn [orb]; try reflexivity; lia.
Qed.

Lemma isValidYMD_dim (y m d : Z) :
  (y < 0 \/ 100 <= y)%Z -> (1 <= m <= 12)%Z ->
  isValidYMD y m d = ((1 <=? d) && (d <=? daysInMonth y m))%Z.
Proof.
  intros Hy Hm. unfold isValidYMD. rewrite Z.gtb_ltb.
  destruct (Z.ltb_spec m 1); [lia|]. destruct (Z.ltb_spec 12 m); [lia|].
  cbn [orb]. now rewrite getDate_dim.
Qed.

Lemma roundTrips_gregorian (y m d : Z) :
  (y < 0 \/ 100 <= y)%Z -> (1 <= m <= 12)%Z -> (1 <= d <= 31)%Z ->
  roundTrips y m d = (d <=? daysInMonth y m)%Z.
Proof.
  intros Hy Hm Hd. unfold roundTrips. rewrite (make_eq _ _ _ Hy).
  assert (E1 : ((m - 1) / 12 = 0)%Z) by divlia.
  assert (E2 : ((m - 1) mod 12 + 1 = m)%Z) by divlia.
  rewrite E1, E2, Z.add_0_r.
  replace (JsDate.daysFromCivil y m 1 + d - 1)%Z with (JsDate.daysFromCivil y m d)
    by (replace d with (1 + (d - 1))%Z at 1 by lia; rewrite daysFromCivil_shift; lia).
  pose proof (daysInMonth_bounds y m) as B.
  destruct (Z.leb_spec d (daysInMonth y m)) as [Hle|Hgt].
  - unfold JsDate.getFullYear, JsDate.getMonth, JsDate.getDate.
    rewrite civil_inverse by lia. cbn [fst snd].
    rewrite !Z.eqb_refl. reflexivity.
  - assert (Hm12 : (m <= 11)%Z).
    { destruct (Z.eq_dec m 12) as [->|]; [|lia]. cbn in Hgt. lia. }
    assert (E3 : (m / 12 = 0)%Z) by divlia.
    assert (E4 : (m mod 12 + 1 = m + 1)%Z) by divlia.
    replace (JsDate.daysFromCivil y m d)
      with (JsDate.daysFromCivil y (m + 1) (d - daysInMonth y m)).
    2:{ replace d with (daysInMonth y m + 1 + (d - daysInMonth y m - 1))%Z at 2 by lia.
        rewrite daysFromCivil_shift, (next_month _ _ Hm), E3, E4, Z.add_0_r.
        replace (d - daysInMonth y m)%Z with (1 + (d - daysInMonth y m - 1))%Z at 1 by lia.
        rewrite daysFromCivil_shift. reflexivity. }
    pose proof (daysInMonth_bounds y (m + 1)) as B'.
    unfold JsDate.getFullYear, JsDate.getMonth, JsDate.getDate.
    rewrite civil_inverse by lia. cbn [fst snd].
    assert ((m + 1 - 1 =? m - 1)%Z = false) as -> by (apply Z.eqb_neq; lia).
    now rewrite andb_false_r.
Qed.

Lemma isValidYMD_roundTrips_eq (y m d : Z) :
  (y < 0 \/ 100 <= y)%Z ->
  isValidYMD y m d
  = ((1 <=? m) && (m <=? 12) && (1 <=? d) && (d <=? 31) && roundTrips y m d)%Z.
Proof.
  intros Hy. pose proof (daysInMonth_bounds y m) as B.
  destruct (Z.leb_spec 1 m); [|apply isValidYMD_month_range; lia].
  destruct (Z.leb_spec m 12);
    [|rewrite andb_false_r; apply isValidYMD_month_range; lia].
  rewrite isValidYMD_dim by (assumption || lia).
  destruct (Z.leb_spec 1 d); [|reflexivity]. cbn [andb].
  destruct (Z.leb_spec d 31).
  - cbn [andb]. now rewrite roundTrips_gregorian by lia.
  - cbn [andb]. apply Z.leb_gt. lia.
Qed.

(** ** Numeric dates *)

(** Words of bounded length are taken apart code unit by code unit. *)
Ltac words_upto2 :=
  repeat match goal with
         | Hb : forall h : nat, Some ?k = Some h -> _ -> _ <= List.length ?w <= h,
           Hn : Some ?k = None -> _ |- _ =>
             specialize (Hb _ eq_refl); clear Hn;
             destruct w as [|? [|? [|? ?]]]; cbn [List.length] in Hb;
             try (exfalso; lia); clear Hb
         end;
  cbn [forallb app] in *.

Lemma cmem_is_char ic c a : cmem ic (CChar c) a = true -> ic = false -> a = c.
Proof.
  intros H ->. cbv [cmem] in H. cbn [andb orb] in H. rewrite orb_false_r in H.
  apply N.eqb_eq in H. now symmetry.
Qed.

Ltac char_facts :=
  repeat match goal with
         | H : (_ && _)%bool = true |- _ => apply andb_prop in H; destruct H
         | H : cmem _ CDigit _ = true |- _ => rewrite cmem_digit in H
         | H : cmem false (CChar _) _ = true |- _ =>
             apply cmem_is_char in H; [subst|reflexivity]
         | H : cmem false (CUnion (CChar 45) (CUnion (CChar 47) (CChar 46))) _ = true |- _ =>
             clear H
         end;
  repeat match goal with
         | H : isDigit _ = true |- _ => rewrite H; clear H
         end;
  rewrite ?N.eqb_refl; cbn [andb orb].

Lemma exec_reNumYMD_inv s m :
  exec reNumYMD s = Some m ->
  exists Y M D,
    groups m = [Some Y; Some M; Some D]
    /\ isCenturyYear Y = true /\ isDigits12 M = true /\ isDigits12 D = true.
Proof.
  revert s m.
  exec_inv reNumYMD (fun m => exists Y M D,
    groups m = [Some Y; Some M; Some D]
    /\ isCenturyYear Y = true /\ isDigits12 M = true /\ isDigits12 D = true).
  minvert; words_upto2; eexists _, _, _; (split; [reflexivity|]);
    cbn [isCenturyYear isDigits12]; char_facts; repeat split; reflexivity.
Qed.


Lemma exec_reNumABY_inv s m :
  exec reNumABY s = Some m ->
  exists A B Y,
    groups m = [Some A; Some B; Some Y]
    /\ isDigits12 A = true /\ isDigits12 B = true /\ isCenturyYear Y = true.
Proof.
  revert s m.
  exec_inv reNumABY (fun m => exists A B Y,
    groups m = [Some A; Some B; Some Y]
    /\ isDigits12 A = true /\ isDigits12 B = true /\ isCenturyYear Y = true).
  minvert; words_upto2; eexists _, _, _; (split; [reflexivity|]);
    cbn [isCenturyYear isDigits12]; char_facts; repeat split; reflexivity.
Qed.

Lemma exec_reNumYM_inv s m :
  exec reNumYM s = Some m ->
  exists Y M,
    groups m = [Some Y; Some M]
    /\ isCenturyYear Y = true /\ isDigits12 M = true.
Proof.
  revert s m.
  exec_inv reNumYM (fun m => exists Y M,
    groups m = [Some Y; Some M]
    /\ isCenturyYear Y = true /\ isDigits12 M = true).
  minvert; words_upto2; eexists _, _; (split; [reflexivity|]);
    cbn [isCenturyYear isDigits12]; char_facts; repeat split; reflexivity.
Qed.

Lemma exec_reNumY_inv s m :
  exec reNumY s = Some m ->
  exists Y, groups m = [Some Y] /\ isCenturyYear Y = true.
Proof.
  revert s m.
  exec_inv reNumY (fun m => exists Y, groups m = [Some Y] /\ isCenturyYear Y = true).
  minvert; words_upto2; eexists; (split; [reflexivity|]);
    cbn [isCenturyYear isDigits12]; char_facts; repeat split; reflexivity.
Qed.

(** X6: for every year that [Date] can represent, from -271820 to
    275759, other than 0..99 (which [Date] reads as 19xx), [isValidYMD]
    accepts exactly the days of the Gregorian calendar: a month in 1..12 and
    a day between 1 and the length of that month, February having 29 days in
    leap years only. *)
Theorem isValidYMD_gregorian (y m d : Z) :
  (-271820 <= y < 0 \/ 100 <= y <= 275759)%Z ->
  isValidYMD y m d
  = ((1 <=? m) && (m <=? 12) && (1 <=? d) && (d <=? daysInMonth y m))%Z.
Proof.
  intros Hy. assert (Hy' : (y < 0 \/ 100 <= y)%Z) by lia.
  destruct (Z.leb_spec 1 m); [|apply isValidYMD_month_range; lia].
  destruct (Z.leb_spec m 12); [|apply isValidYMD_month_range; lia].
  cbn [andb]. apply isValidYMD_dim; [exact Hy'|lia].
Qed.

Lemma isValidYMD_gregorian_witness :
  isValidYMD 1900 2 29 = false /\ isValidYMD 2024 2 29 = true.
Proof.
  split.
  - exact (isValidYMD_gregorian 1900 2 29
             (or_intror (conj (Zle_bool_imp_le 100 1900 eq_refl)
                              (Zle_bool_imp_le 1900 275759 eq_refl)))).
  - exact (isValidYMD_gregorian 2024 2 29
             (or_intror (conj (Zle_bool_imp_le 100 2024 eq_refl)
                              (Zle_bool_imp_le 2024 275759 eq_refl)))).
Defined.

(** X7: the two validity checks of the repository agree.  On a string of
    the form YYYY-MM-DD whose year is at least 100, [isValidISO] of the
    sanitizer, which builds a [Date] and reads it back, gives the same answer
    as [isValidYMD] of the PDF parser, which compares the day with the length
    of the month. *)
Theorem validity_checks_agree (s : jsstring) :
  isDayShape s = true ->
  (100 <= toNumber (slice s 0 4))%Z ->
  isValidISO s
  = isValidYMD (toNumber (slice s 0 4)) (toNumber (slice s 5 7))
      (toNumber (slice s 8 10)).
Proof.
  intros Hs Hy. rewrite (isValidISO_day _ Hs).
  rewrite isValidYMD_roundTrips_eq by (right; exact Hy). reflexivity.
Qed.

Lemma validity_checks_agree_witness :
  isValidISO (js "2023-02-29") = isValidYMD 2023 2 29.
Proof.
  exact (validity_checks_agree (js "2023-02-29") eq_refl
           (Zle_bool_imp_le 100 2023 eq_refl)).
Defined.

Lemma isValidYMD_roundTrips y m d :
  (1900 <= y < 2100)%Z ->
  isValidYMD y m d
  = ((1 <=? m) && (m <=? 12) && (1 <=? d) && (d <=? 31) && roundTrips y m d)%Z.
Proof. intros Hy. apply isValidYMD_roundTrips_eq. lia. Qed.

Ltac grp :=
  first [assumption
        |match goal with
         | H : groups _ = _ |- _ => unfold group; rewrite H; reflexivity
         end].

Lemma capInt_group m i A :
  group m i = Some A -> forallb isDigit A = true -> A <> [] ->
  capInt m i = toNumber A.
Proof.
  intros E F N. unfold capInt. rewrite E. cbn [orEmpty].
  now rewrite (parseInt_digits _ F N).
Qed.

Lemma pad2_facts A :
  isDigits12 A = true ->
  exists x y, padStart0 2 A = [x; y] /\ isDigit x = true /\ isDigit y = true
              /\ toNumber [x; y] = toNumber A.
Proof.
  intros H. destruct (isDigits12_cases _ H) as [(a & -> & Ha)|(a & a' & -> & Ha & Ha')].
  - exists 48%N, a. repeat split; try reflexivity; exact Ha.
  - exists a, a'. repeat split; try reflexivity; assumption.
Qed.

Lemma parseYearMonthOrYear_cases s d :
  parseYearMonthOrYear s = Some d ->
  (exists Y M D, isCenturyYear Y = true /\ isDigits12 M = true
      /\ isDigits12 D = true
      /\ isValidYMD (toNumber Y) (toNumber M) (toNumber D) = true
      /\ d = Y ++ dash ++ padStart0 2 M ++ dash ++ padStart0 2 D)
  \/ (exists Y M, isCenturyYear Y = true /\ isDigits12 M = true
      /\ (1 <= toNumber M <= 12)%Z
      /\ d = Y ++ dash ++ padStart0 2 M)
  \/ (isCenturyYear d = true).
Proof.
  unfold parseYearMonthOrYear.
  destruct (exec reNumYM s) as [m|] eqn:E.
  - destruct (exec_reNumYM_inv _ _ E) as (Y & M & Hg & HY & HM).
    destruct (century_digits _ HY) as [FY NY].
    destruct (isDigits12_forallb _ HM) as [FM NM].
    rewrite (capInt_group m 1 Y), (capInt_group m 2 M) by grp.
    rewrite (stringOfZ_century _ HY), (pad2_digits _ HM).
    destruct ((1 <=? toNumber M) && (toNumber M <=? 12))%Z eqn:C.
    + intros Hd. right. left. apply andb_prop in C. destruct C as [L U].
      apply Z.leb_le in L, U. exists Y, M. repeat split; try assumption. congruence.
    + destruct (exec reNumY s) as [m'|] eqn:E'; [|discriminate].
      destruct (exec_reNumY_inv _ _ E') as (Y' & Hg' & HY').
      unfold group. rewrite Hg'. cbn. intros Hd. right. right. congruence.
  - destruct (exec reNumY s) as [m'|] eqn:E'; [|discriminate].
    destruct (exec_reNumY_inv _ _ E') as (Y' & Hg' & HY').
    unfold group. rewrite Hg'. cbn. intros Hd. right. right. congruence.
Qed.

(** What [parseNumericDate] can return. *)
Lemma parseNumericDate_cases s d :
  parseNumericDate s = Some d ->
  (exists Y M D, isCenturyYear Y = true /\ isDigits12 M = true
      /\ isDigits12 D = true
      /\ isValidYMD (toNumber Y) (toNumber M) (toNumber D) = true
      /\ d = Y ++ dash ++ padStart0 2 M ++ dash ++ padStart0 2 D)
  \/ (exists Y M, isCenturyYear Y = true /\ isDigits12 M = true
      /\ (1 <= toNumber M <= 12)%Z
      /\ d = Y ++ dash ++ padStart0 2 M)
  \/ (isCenturyYear d = true).
Proof.
  unfold parseNumericDate.
  assert (Hymd : forall d,
    match exec reNumYMD s with
    | Some m =>
        if isValidYMD (capInt m 1) (capInt m 2) (capInt m 3)
        then Some (stringOfZ (capInt m 1) ++ dash ++ pad2 (capInt m 2) ++ dash
                   ++ pad2 (capInt m 3))
        else None
    | None => None
    end = Some d ->
    exists Y M D, isCenturyYear Y = true /\ isDigits12 M = true
      /\ isDigits12 D = true
      /\ isValidYMD (toNumber Y) (toNumber M) (toNumber D) = true
      /\ d = Y ++ dash ++ padStart0 2 M ++ dash ++ padStart0 2 D).
  { intros d'. destruct (exec reNumYMD s) as [m|] eqn:E; [|discriminate].
    destruct (exec_reNumYMD_inv _ _ E) as (Y & M & D & Hg & HY & HM & HD).
    destruct (century_digits _ HY) as [FY NY].
    destruct (isDigits12_forallb _ HM) as [FM NM].
    destruct (isDigits12_forallb _ HD) as [FD ND].
    rewrite (capInt_group m 1 Y), (capInt_group m 2 M), (capInt_group m 3 D) by grp.
    destruct (isValidYMD _ _ _) eqn:V; [|discriminate].
    rewrite (stringOfZ_century _ HY), (pad2_digits _ HM), (pad2_digits _ HD).
    intros Hd. exists Y, M, D. repeat split; try assumption. congruence. }
  destruct (match exec reNumYMD s with Some _ => _ | None => _ end) as [r|] eqn:E1.
  { intros Hd. left. apply Hymd. congruence. }
  clear Hymd E1. unfold parseDayMonthYear.
  destruct (exec reNumABY s) as [m|] eqn:E2.
  - destruct (exec_reNumABY_inv _ _ E2) as (A & B & Y & Hg & HA & HB & HY).
    destruct (century_digits _ HY) as [FY NY].
    destruct (isDigits12_forallb _ HA) as [FA NA].
    destruct (isDigits12_forallb _ HB) as [FB NB].
    rewrite (capInt_group m 1 A), (capInt_group m 2 B), (capInt_group m 3 Y) by grp.
    rewrite (stringOfZ_century _ HY), (pad2_digits _ HA), (pad2_digits _ HB).
    destruct ((toNumber A >? 12)%Z && isValidYMD (toNumber Y) (toNumber B) (toNumber A))%bool
      eqn:C1.
    { intros Hd. left. apply andb_prop in C1. destruct C1 as [_ C1].
      exists Y, B, A. repeat split; try assumption. congruence. }
    destruct ((toNumber B >? 12)%Z && isValidYMD (toNumber Y) (toNumber A) (toNumber B))%bool
      eqn:C2.
    { intros Hd. left. apply andb_prop in C2. destruct C2 as [_ C2].
      exists Y, A, B. repeat split; try assumption. congruence. }
    destruct ((1 <=? toNumber A) && (toNumber A <=? 12))%Z eqn:C3.
    { intros Hd. right. left. apply andb_prop in C3. destruct C3 as [L U].
      apply Z.leb_le in L, U.
      exists Y, A. repeat split; try assumption. congruence. }
    apply parseYearMonthOrYear_cases.
  - apply parseYearMonthOrYear_cases.
Qed.

Lemma iso_day_valid Y M D :
  isCenturyYear Y = true -> isDigits12 M = true -> isDigits12 D = true ->
  isValidYMD (toNumber Y) (toNumber M) (toNumber D) = true ->
  isDayShape (Y ++ dash ++ padStart0 2 M ++ dash ++ padStart0 2 D) = true
  /\ slice (Y ++ dash ++ padStart0 2 M ++ dash ++ padStart0 2 D) 0 4 = Y
  /\ isValidISO (Y ++ dash ++ padStart0 2 M ++ dash ++ padStart0 2 D) = true.
Proof.
  intros HY HM HD V.
  destruct (century_split _ HY) as (a & b & c & d & EY & Ha & Hb & Hc & Hd & Hr).
  destruct (pad2_facts _ HM) as (m1 & m2 & EM & Hm1 & Hm2 & TM).
  destruct (pad2_facts _ HD) as (d1 & d2 & ED & Hd1 & Hd2 & TD).
  rewrite (isValidYMD_roundTrips _ _ _ Hr) in V.
  rewrite EM, ED. rewrite <- TM, <- TD in V. rewrite EY in V |- *.
  assert (S : isDayShape ([a; b; c; d] ++ dash ++ [m1; m2] ++ dash ++ [d1; d2]) = true).
  { cbn. rewrite Ha, Hb, Hc, Hd, Hm1, Hm2, Hd1, Hd2. reflexivity. }
  split; [exact S|]. split; [reflexivity|].
  rewrite (isValidISO_day _ S). exact V.
Qed.

Lemma iso_month_valid Y M :
  isCenturyYear Y = true -> isDigits12 M = true -> (1 <= toNumber M <= 12)%Z ->
  isMonthShape (Y ++ dash ++ padStart0 2 M) = true
  /\ slice (Y ++ dash ++ padStart0 2 M) 0 4 = Y
  /\ isValidISO (Y ++ dash ++ padStart0 2 M) = true.
Proof.
  intros HY HM V.
  destruct (century_split _ HY) as (a & b & c & d & EY & Ha & Hb & Hc & Hd & Hr).
  destruct (pad2_facts _ HM) as (m1 & m2 & EM & Hm1 & Hm2 & TM).
  rewrite EM. rewrite <- TM in V. rewrite EY.
  assert (S : isMonthShape ([a; b; c; d] ++ dash ++ [m1; m2]) = true).
  { cbn. rewrite Ha, Hb, Hc, Hd, Hm1, Hm2. reflexivity. }
  split; [exact S|]. split; [reflexivity|].
  rewrite (isValidISO_month _ S). apply andb_true_intro.
  split; apply Z.leb_le; apply V.
Qed.

Lemma iso_year_valid Y :
  isCenturyYear Y = true ->
  isYearShape Y = true /\ slice Y 0 4 = Y /\ isValidISO Y = true.
Proof.
  intros HY. pose proof (isYearShape_century _ HY) as S.
  split; [exact S|]. split.
  - destruct (century_split _ HY) as (a & b & c & d & -> & _). reflexivity.
  - unfold isValidISO. now rewrite test_reYearOnly, S.
Qed.

(** X8: a date returned by [parseNumericDate] is a year, a year and month, or
    a full date in ISO form; its year is a 19xx or 20xx year, and it passes
    the validity check of the sanitizer: the month lies in 1..12 and a full
    date exists in the calendar. *)
Theorem parseNumericDate_valid (s d : jsstring) :
  parseNumericDate s = Some d ->
  (isYearShape d || isMonthShape d || isDayShape d)%bool = true
  /\ isCenturyYear (slice d 0 4) = true
  /\ isValidISO d = true.
Proof.
  intros H. destruct (parseNumericDate_cases _ _ H)
    as [(Y & M & D & HY & HM & HD & V & ->)|[(Y & M & HY & HM & V & ->)|HY]].
  - destruct (iso_day_valid _ _ _ HY HM HD V) as (S & E & I).
    rewrite S, E, !orb_true_r. auto.
  - destruct (iso_month_valid _ _ HY HM V) as (S & E & I).
    rewrite S, E, !orb_true_r. auto.
  - destruct (iso_year_valid _ HY) as (S & E & I). rewrite S, E. auto.
Qed.

Lemma parseNumericDate_valid_witness :
  parseNumericDate (js "Posted 13/05/2024, revised") = Some (js "2024-05-13")
  /\ isValidISO (js "2024-05-13") = true.
Proof.
  split; [vm_compute; reflexivity|].
  exact (proj2 (proj2 (parseNumericDate_valid (js "Posted 13/05/2024, revised")
                         (js "2024-05-13") eq_refl))).
Defined.

(** ** Dates with a month name *)

Ltac words_bounded :=
  repeat match goal with
         | Hb : forall h : nat, Some ?k = Some h -> _ -> _ <= List.length ?w <= h,
           Hn : Some ?k = None -> _ |- _ =>
             specialize (Hb _ eq_refl); clear Hn;
             destruct w as [|? [|? [|? [|? [|? ?]]]]]; cbn [List.length] in Hb;
             try (exfalso; lia); clear Hb
         end;
  cbn [forallb app] in *.

Lemma cmem_ci_letter c a :
  cmem true (CChar c) a = true -> isLetter c = true -> isLetter a = true.
Proof.
  cbv [cmem]. cbn [andb]. unfold swapCase. intros H Hc.
  destruct (isUpper a) eqn:U; [unfold isLetter; now rewrite U|].
  destruct (isLower a) eqn:L; [unfold isLetter; now rewrite L, orb_true_r|].
  rewrite orb_diag in H. apply N.eqb_eq in H. subst a.
  unfold isLetter in Hc. rewrite U, L in Hc. discriminate.
Qed.

Ltac char_arith2 :=
  unfold isDigit, isSpace, isWordChar, isLetter, isUpper, isLower, inRange in *;
  repeat (progress
            rewrite ?andb_true_iff, ?orb_false_iff, ?andb_false_iff, ?orb_true_iff,
              ?N.eqb_neq, ?N.leb_le, ?N.leb_gt, ?N.eqb_eq in *);
  lia.

Lemma parseInt_letter a w : isLetter a = true -> parseInt (a :: w) = None.
Proof.
  intros H. unfold parseInt, trimStart. cbn [dropWhile].
  assert (isSpace a = false) as -> by char_arith2.
  assert (N.eqb a 45 = false) as -> by char_arith2.
  assert (N.eqb a 43 = false) as -> by char_arith2.
  cbn [takeWhile]. assert (isDigit a = false) as -> by char_arith2.
  reflexivity.
Qed.

Ltac first_letter :=
  match goal with
  | |- isLetter ?a = true =>
      match goal with
      | H : cmem true (CChar _) a = true |- _ =>
          exact (cmem_ci_letter _ _ H eq_refl)
      end
  end.

Ltac digits12 :=
  cbn [isDigits12];
  repeat match goal with
         | H : (_ && _)%bool = true |- _ => apply andb_prop in H; destruct H
         | H : cmem _ CDigit _ = true |- _ => rewrite cmem_digit in H
         end;
  repeat match goal with
         | H : isDigit _ = true |- _ => rewrite H; clear H
         end;
  reflexivity.

Lemma exec_reMDY_inv s m :
  exec reMDY s = Some m ->
  exists mo D Y,
    groups m = [Some mo; Some mo; Some D; Some Y] /\ isDigits12 D = true.
Proof.
  revert s m.
  exec_inv reMDY (fun m => exists mo D Y,
    groups m = [Some mo; Some mo; Some D; Some Y] /\ isDigits12 D = true).
  minvert; words_bounded; eexists _, _, _; (split; [reflexivity|]); digits12.
Qed.

Lemma exec_reDMY_inv s m :
  exec reDMY s = Some m ->
  exists D a w Y,
    groups m = [Some D; Some (a :: w); Some (a :: w); Some Y]
    /\ isLetter a = true.
Proof.
  revert s m.
  exec_inv reDMY (fun m => exists D a w Y,
    groups m = [Some D; Some (a :: w); Some (a :: w); Some Y]
    /\ isLetter a = true).
  minvert; eexists _, _, _, _; (split; [reflexivity|]); first_letter.
Qed.

Lemma exec_reMY_inv s m :
  exec reMY s = Some m ->
  exists a w Y,
    groups m = [Some (a :: w); Some (a :: w); Some Y] /\ isLetter a = true.
Proof.
  revert s m.
  exec_inv reMY (fun m => exists a w Y,
    groups m = [Some (a :: w); Some (a :: w); Some Y] /\ isLetter a = true).
  minvert; eexists _, _, _; (split; [reflexivity|]); first_letter.
Qed.

(** The year argument that each branch hands to [toISO] is never a year:
    it is the day of the month, or the name of the month. *)
Lemma toISO_mdy now s m :
  exec reMDY s = Some m ->
  toISO now (orEmpty (group m 3)) (group m 1) (group m 2) = None.
Proof.
  intros H. destruct (exec_reMDY_inv _ _ H) as (mo & D & Y & Hg & HD).
  unfold group. rewrite Hg. cbn [nth Nat.sub orEmpty].
  destruct (isDigits12_forallb _ HD) as [F N].
  apply (toISO_year_bound _ _ _ _ (toNumber D)); [now apply parseInt_digits|].
  left. destruct (pad2_facts _ HD) as (x & y & _ & Hx & Hy & <-).
  unfold toNumber. cbn [digitsValue].
  assert (48 <= x <= 57 /\ 48 <= y <= 57)%N by (split; char_arith2). lia.
Qed.

Lemma toISO_nan now y m d : parseInt y = None -> toISO now y m d = None.
Proof. intros H. unfold toISO. now rewrite H. Qed.

Lemma toISO_dmy now s m :
  exec reDMY s = Some m ->
  toISO now (orEmpty (group m 3)) (group m 2) (group m 1) = None.
Proof.
  intros H. destruct (exec_reDMY_inv _ _ H) as (D & a & w & Y & Hg & Ha).
  unfold group. rewrite Hg. cbn [nth Nat.sub orEmpty].
  apply toISO_nan. now apply parseInt_letter.
Qed.

Lemma toISO_my now s m :
  exec reMY s = Some m ->
  toISO now (orEmpty (group m 2)) (group m 1) None = None.
Proof.
  intros H. destruct (exec_reMY_inv _ _ H) as (a & w & Y & Hg & Ha).
  unfold group. rewrite Hg. cbn [nth Nat.sub orEmpty].
  apply toISO_nan. now apply parseInt_letter.
Qed.

(** ** The ranked date detector *)

Lemma numeric_truthy s d : parseNumericDate s = Some d -> truthy (Some d) = true.
Proof.
  intros H. destruct (parseNumericDate_cases _ _ H)
    as [(Y & M & D & HY & _ & _ & _ & ->)|[(Y & M & HY & _ & _ & ->)|HY]];
    destruct (century_split _ HY) as (a & b & c & e & E & _); rewrite E; reflexivity.
Qed.

Lemma lineShapes_eq now line i s1 s2 s3 s4 :
  lineShapes now line i s1 s2 s3 s4
  = if hasMonthNameDate line then Some []
    else match parseNumericDate line with
         | Some num => Some [mkCand num s4 i]
         | None => None
         end.
Proof.
  unfold lineShapes, hasMonthNameDate, test.
  destruct (exec reMDY line) as [m|] eqn:E1.
  { rewrite (toISO_mdy _ _ _ E1). reflexivity. }
  destruct (exec reDMY line) as [m|] eqn:E2.
  { rewrite (toISO_dmy _ _ _ E2). reflexivity. }
  destruct (exec reMY line) as [m|] eqn:E3.
  { rewrite (toISO_my _ _ _ E3). reflexivity. }
  cbn [orb]. destruct (parseNumericDate line) as [num|] eqn:E4; [|reflexivity].
  unfold add. rewrite (numeric_truthy _ _ E4). reflexivity.
Qed.

Lemma scanCues_eq now fuel z :
  scanCues now (S fuel) z
  = match exec cueRe z with
    | None => None
    | Some m =>
        if hasMonthNameDate (firstn 180 (skipn (index m) z)) then Some None
        else match parseNumericDate (firstn 180 (skipn (index m) z)) with
             | Some num => Some (Some num)
             | None => scanCues now fuel (skipn (S (index m)) z)
             end
    end.
Proof.
  cbn [scanCues]. destruct (exec cueRe z) as [m|]; [|reflexivity].
  unfold hasMonthNameDate, test.
  destruct (exec reMDY _) as [x|] eqn:E1.
  { rewrite (toISO_mdy _ _ _ E1). reflexivity. }
  destruct (exec reDMY _) as [x|] eqn:E2.
  { rewrite (toISO_dmy _ _ _ E2). reflexivity. }
  destruct (exec reMY _) as [x|] eqn:E3.
  { rewrite (toISO_my _ _ _ E3). reflexivity. }
  reflexivity.
Qed.

(** X9: a line in which one of the month-name patterns matches contributes no
    candidate to the ranking: the year handed to [toISO] is the day of the
    month or the name of the month, so no date is formed, and the numeric
    parser is not tried on that line. *)
Theorem month_name_line_has_no_candidate (now : Z) (line : jsstring) (i : nat) :
  hasMonthNameDate line = true -> lineCands now line i = [].
Proof.
  intros H. unfold lineCands. rewrite !lineShapes_eq, H.
  destruct (test cueRe line); [reflexivity|].
  destruct (looksLikeRef line); reflexivity.
Qed.

Lemma month_name_line_has_no_candidate_witness :
  hasMonthNameDate (js "Published 12 March 2021, revised 2021-04-02") = true
  /\ lineCands 2026 (js "Published 12 March 2021, revised 2021-04-02") 0 = [].
Proof.
  split; [vm_compute; reflexivity|].
  apply month_name_line_has_no_candidate. vm_compute. reflexivity.
Defined.

(** X10: when the first cue phrase of the header is followed, within 180 code
    units, by a match of a month-name pattern, [findRankedDate] returns null,
    whatever else the header and the text contain. *)
Theorem cue_with_month_name_returns_null (now : Z) (header full : jsstring)
    (m : MatchResult) :
  exec cueRe (slice header 0 (N.to_nat 12000)) = Some m ->
  hasMonthNameDate
    (firstn 180 (skipn (index m) (slice header 0 (N.to_nat 12000)))) = true ->
  findRankedDate now header full = None.
Proof.
  intros Hc Hm. unfold findRankedDate, scanZone.
  rewrite scanCues_eq, Hc, Hm. reflexivity.
Qed.

Lemma cue_with_month_name_returns_null_witness :
  findRankedDate 2026 cueThenMonthName cueThenMonthName = None.
Proof.
  eapply (cue_with_month_name_returns_null 2026 cueThenMonthName cueThenMonthName).
  - vm_compute. reflexivity.
  - vm_compute. reflexivity.
Defined.

Lemma scanCues_numeric now fuel : forall z d,
  scanCues now fuel z = Some (Some d) ->
  exists i m,
    exec cueRe (skipn i z) = Some m
    /\ parseNumericDate (firstn 180 (skipn (i + index m) z)) = Some d.
Proof.
  induction fuel as [|fuel IH]; intros z d; [discriminate|].
  rewrite scanCues_eq. destruct (exec cueRe z) as [m|] eqn:Em; [|discriminate].
  destruct (hasMonthNameDate _); [discriminate|].
  destruct (parseNumericDate _) as [num|] eqn:E.
  - intros Hd. exists 0%nat, m. cbn [skipn Nat.add]. split; [exact Em|congruence].
  - intros H. destruct (IH _ _ H) as (i & m' & Hm' & Hw).
    exists (i + S (index m))%nat, m'. rewrite skipn_skipn in Hm', Hw. split; [exact Hm'|].
    replace (i + S (index m) + index m')%nat with (i + index m' + S (index m))%nat
      by lia.
    exact Hw.
Qed.

Lemma lineCands_numeric now line i c :
  In c (lineCands now line i) ->
  parseNumericDate line = Some (cand_iso c)
  /\ (test cueRe line = true \/ looksLikeRef line = false).
Proof.
  unfold lineCands. rewrite !lineShapes_eq.
  destruct (hasMonthNameDate line).
  { destruct (test cueRe line); [intros []|].
    destruct (looksLikeRef line); intros []. }
  destruct (parseNumericDate line) as [num|].
  - destruct (test cueRe line).
    + intros [<-|[]]. auto.
    + destruct (looksLikeRef line); [intros []|]. intros [<-|[]]. auto.
  - destruct (test cueRe line); destruct (looksLikeRef line); intros [].
Qed.

Lemma collectCands_numeric now ls : forall i c,
  In c (collectCands now ls i) ->
  exists line, In line ls /\ parseNumericDate line = Some (cand_iso c)
               /\ (test cueRe line = true \/ looksLikeRef line = false).
Proof.
  induction ls as [|l ls IH]; intros i c; cbn [collectCands]; [intros []|].
  rewrite in_app_iff. intros [H|H].
  - exists l. split; [now left|]. eapply lineCands_numeric; eauto.
  - destruct (IH _ _ H) as (line & Hin & E). exists line. split; [now right|exact E].
Qed.

Lemma bestCand_member cs c : bestCand cs = Some c -> In c cs.
Proof.
  destruct cs as [|c0 cs]; [discriminate|]. cbn [bestCand]. intros [= <-].
  revert c0. induction cs as [|x cs IH]; intros c0; cbn [fold_left]; [now left|].
  destruct (ranksBefore x c0).
  - destruct (IH x) as [E|H]; [right; left; exact E|right; right; exact H].
  - destruct (IH c0) as [E|H]; [left; exact E|right; right; exact H].
Qed.

(** X11: every date [findRankedDate] returns is what the numeric parser makes
    of a text [w] taken from the input: the 180 code units that start at a
    cue word in the first 12000 code units of the header or the first 20000
    of the full text, or else one of the lines scanned (those of the header
    part and the first 80 of the text part) that holds a cue or does not
    look like a reference.  So the date is a year, a year and month, or a
    full date in ISO form, with a 19xx or 20xx year, a month in 1..12 and a
    day that exists in the calendar. *)
Theorem findRankedDate_valid (now : Z) (header full d : jsstring) :
  findRankedDate now header full = Some d ->
  (exists w,
     parseNumericDate w = Some d
     /\ ((exists zone i m,
            (zone = slice header 0 (N.to_nat 12000)
             \/ zone = slice full 0 (N.to_nat 20000))
            /\ exec cueRe (skipn i zone) = Some m
            /\ w = firstn 180 (skipn (i + index m) zone))
         \/ (In w (toLines (slice header 0 (N.to_nat 12000))
                   ++ firstn 80 (toLines (slice full 0 (N.to_nat 20000))))
             /\ (test cueRe w = true \/ looksLikeRef w = false))))
  /\ (isYearShape d || isMonthShape d || isDayShape d)%bool = true
  /\ isCenturyYear (slice d 0 4) = true
  /\ isValidISO d = true.
Proof.
  intros H.
  assert (Hw : exists w,
     parseNumericDate w = Some d
     /\ ((exists zone i m,
            (zone = slice header 0 (N.to_nat 12000)
             \/ zone = slice full 0 (N.to_nat 20000))
            /\ exec cueRe (skipn i zone) = Some m
            /\ w = firstn 180 (skipn (i + index m) zone))
         \/ (In w (toLines (slice header 0 (N.to_nat 12000))
                   ++ firstn 80 (toLines (slice full 0 (N.to_nat 20000))))
             /\ (test cueRe w = true \/ looksLikeRef w = false)))).
  { revert H. unfold findRankedDate, scanZone.
    destruct (scanCues now _ (slice header 0 (N.to_nat 12000))) as [r|] eqn:E1.
    { intros ->. destruct (scanCues_numeric _ _ _ _ E1) as (i & m & Hm & Hd).
      eexists. split; [exact Hd|]. left. exists (slice header 0 (N.to_nat 12000)), i, m.
      auto. }
    destruct (scanCues now _ (slice full 0 (N.to_nat 20000))) as [r|] eqn:E2.
    { intros ->. destruct (scanCues_numeric _ _ _ _ E2) as (i & m & Hm & Hd).
      eexists. split; [exact Hd|]. left. exists (slice full 0 (N.to_nat 20000)), i, m.
      auto. }
    destruct (bestCand _) as [c|] eqn:E3; [|discriminate].
    destruct (nonEmpty (cand_iso c)); [|discriminate]. intros Hd.
    assert (d = cand_iso c) as -> by congruence.
    apply bestCand_member in E3. apply in_map_iff in E3.
    destruct E3 as (c0 & <- & Hin). cbn [withBonus cand_iso].
    destruct (collectCands_numeric _ _ _ _ Hin) as (line & Hl & E & Hr).
    exists line. split; [exact E|]. right. auto. }
  split; [exact Hw|]. destruct Hw as (w & Hw & _). clear H.
  destruct (parseNumericDate_cases _ _ Hw)
    as [(Y & M & D & HY & HM & HD & V & ->)|[(Y & M & HY & HM & V & ->)|HY]].
  - destruct (iso_day_valid _ _ _ HY HM HD V) as (S & E & I).
    rewrite S, E, !orb_true_r. auto.
  - destruct (iso_month_valid _ _ HY HM V) as (S & E & I).
    rewrite S, E, !orb_true_r. auto.
  - destruct (iso_year_valid _ HY) as (S & E & I). rewrite S, E. auto.
Qed.

Lemma findRankedDate_valid_witness :
  findRankedDate 2026 (js "Received 13/05/2024") (js "Received 13/05/2024")
  = Some (js "2024-05-13")
  /\ isValidISO (js "2024-05-13") = true.
Proof.
  split; [vm_compute; reflexivity|].
  refine (proj2 (proj2 (proj2 (findRankedDate_valid 2026 (js "Received 13/05/2024")
                                 (js "Received 13/05/2024") (js "2024-05-13") _)))).
  vm_compute. reflexivity.
Defined.

(** ** The author zone *)

Lemma firstStopCue_some ls : forall i n j,
  firstStopCue ls i n = Some j ->
  exists k L, j = (i + k)%nat /\ (k < n)%nat
    /\ forallb (fun L => negb (isStopCue L)) (firstn k ls) = true
    /\ nth_error ls k = Some L /\ isStopCue L = true.
Proof.
  induction ls as [|L ls IH]; intros i n j; destruct n as [|n]; cbn [firstStopCue];
    try discriminate.
  destruct (isStopCue L) eqn:E.
  - intros [= <-]. exists 0%nat, L. repeat split; try lia; try reflexivity. exact E.
  - intros H. destruct (IH _ _ _ H) as (k & L' & -> & Hk & Hall & Hn & Hs).
    exists (S k), L'. cbn [firstn forallb nth_error]. rewrite E, Hall.
    repeat split; try lia; assumption.
Qed.

Lemma firstStopCue_none ls : forall i n,
  firstStopCue ls i n = None ->
  forallb (fun L => negb (isStopCue L)) (firstn n ls) = true.
Proof.
  induction ls as [|L ls IH]; intros i n; destruct n as [|n]; cbn [firstStopCue firstn];
    try reflexivity.
  destruct (isStopCue L) eqn:E; [discriminate|].
  intros H. cbn [forallb]. rewrite E, (IH _ _ H). reflexivity.
Qed.

Lemma forallb_firstn_le (A : Type) (p : A -> bool) (l : list A) (a b : nat) :
  (a <= b)%nat -> forallb p (firstn b l) = true -> forallb p (firstn a l) = true.
Proof.
  revert a b. induction l as [|x l IH]; intros [|a] [|b] Hab; cbn; try reflexivity;
    try lia.
  rewrite !andb_true_iff. intros [Hx Hl]. split; [exact Hx|].
  apply (IH a b); [lia|exact Hl].
Qed.

Lemma skipContinuations_bounds ls : forall i b,
  (i <= skipContinuations ls i b <= i + b)%nat.
Proof.
  induction ls as [|L ls IH]; intros i [|b]; cbn [skipContinuations]; try lia.
  destruct (looksLikeTitleContinuation L); [|lia].
  specialize (IH (S i) b). lia.
Qed.

Lemma nth_error_skipn_add (A : Type) (l : list A) : forall a k,
  nth_error l (a + k) = nth_error (skipn a l) k.
Proof.
  induction l as [|x l IH]; intros [|a] k; cbn; try reflexivity.
  - now destruct k.
  - apply IH.
Qed.

Lemma toLines_nonEmpty header L : In L (toLines header) -> L <> [].
Proof.
  unfold toLines. intros H. apply filter_In in H. destruct H as [_ H].
  destruct L; [discriminate|discriminate].
Qed.

(** X12: the author zone is a run of at most 39 consecutive header lines that
    starts after the title line and at most three continuation lines; none
    of its lines is empty or begins a section (abstract, keywords,
    references, ...); and a zone of more than 12 lines is always followed by
    such a section line. *)
Theorem author_zone_lines (header : jsstring) :
  let lines := toLines header in
  let z := authorZoneLines header in
  sliceAuthorZone header = join newline z
  /\ z = firstn (List.length z) (skipn (zoneStart lines) lines)
  /\ (forall t, titleIndex lines = Some t ->
        (t < zoneStart lines <= t + 4)%nat)
  /\ (List.length z <= 39)%nat
  /\ (forall L, In L z -> isStopCue L = false /\ L <> [])
  /\ ((12 < List.length z)%nat ->
      exists L, nth_error lines (zoneStart lines + List.length z) = Some L
                /\ isStopCue L = true).
Proof.
  intros lines z. split; [reflexivity|].
  assert (Hstart : forall t, titleIndex lines = Some t ->
                     (t < zoneStart lines <= t + 4)%nat).
  { intros t Ht. unfold zoneStart. rewrite Ht.
    pose proof (skipContinuations_bounds (skipn (S t) lines) (S t) 3). lia. }
  set (start := zoneStart lines) in *.
  assert (Hz : z = firstn (zoneEnd lines start - start) (skipn start lines))
    by reflexivity.
  assert (Hin : forall L, In L z -> In L lines).
  { intros L H. rewrite Hz in H. apply In_firstn_looser in H.
    revert H. apply (In_skipn_looser). }
  unfold zoneEnd in Hz.
  destruct (firstStopCue (skipn start lines) start 40) as [j|] eqn:E.
  - destruct (firstStopCue_some _ _ _ _ E) as (k & L & -> & Hk & Hall & Hn & Hs).
    replace (start + k - start)%nat with k in Hz by lia.
    assert (Hlen : List.length z = k).
    { rewrite Hz. apply firstn_length_le. apply Nat.lt_le_incl.
      apply nth_error_Some. congruence. }
    split; [rewrite Hlen; exact Hz|]. split; [exact Hstart|].
    split; [lia|]. split.
    + intros L' HL. split; [|apply (toLines_nonEmpty header), Hin, HL].
      rewrite Hz in HL. rewrite forallb_forall in Hall.
      apply negb_true_iff. apply (Hall _ HL).
    + intros _. exists L. rewrite Hlen. split; [|exact Hs].
      rewrite <- Hn. apply nth_error_skipn_add.
  - pose proof (firstStopCue_none _ _ _ E) as Hall.
    assert (Hle : (Nat.min (List.length lines) (start + 12) - start <= 12)%nat) by lia.
    assert (Hlen : (List.length z <= 12)%nat).
    { rewrite Hz. rewrite length_firstn. lia. }
    split.
    { rewrite Hz at 1. rewrite Hz, length_firstn, length_skipn.
      f_equal. lia. }
    split; [exact Hstart|]. split; [lia|]. split; [|lia].
    intros L' HL. split; [|apply (toLines_nonEmpty header), Hin, HL].
    rewrite Hz in HL.
    pose proof (forallb_firstn_le _ _ _
                  (Nat.min (List.length lines) (start + 12) - start) 40
                  ltac:(lia) Hall) as Hall'.
    rewrite forallb_forall in Hall'. apply negb_true_iff. apply (Hall' _ HL).
Qed.

(** ** Merging the two answers of the language model *)

Lemma dropWhile_head p s :
  match dropWhile p s with
  | [] => True
  | c :: _ => p c = false
  end.
Proof.
  induction s as [|a s IH]; cbn [dropWhile]; [exact I|].
  destruct (p a) eqn:E; [exact IH|exact E].
Qed.

Lemma dropWhile_id p s :
  match s with [] => True | c :: _ => p c = false end -> dropWhile p s = s.
Proof. destruct s as [|c s]; cbn [dropWhile]; [reflexivity|]. now intros ->. Qed.

(** The result of [trim] neither starts nor ends with white space, so
    trimming it again changes nothing. *)
Lemma trim_idem s : trim (trim s) = trim s.
Proof.
  unfold trim, trimEnd, trimStart.
  set (u := dropWhile isSpace s).
  pose proof (dropWhile_head isSpace s) as Hu. fold u in Hu.
  set (v := dropWhile isSpace (rev u)).
  pose proof (dropWhile_head isSpace (rev u)) as Hv. fold v in Hv.
  assert (E1 : dropWhile isSpace (rev v) = rev v).
  { apply dropWhile_id. destruct (dropWhile_suffix isSpace (rev u)) as [pre E].
    fold v in E. destruct v as [|c v']; [exact I|].
    destruct u as [|a u']; [destruct pre; discriminate|].
    assert (Er : rev (c :: v') ++ rev pre = a :: u').
    { rewrite <- rev_app_distr, <- E, rev_involutive. reflexivity. }
    destruct (rev (c :: v')) as [|x r] eqn:Ex.
    - apply (f_equal (@List.length N)) in Ex. rewrite length_rev in Ex. discriminate.
    - cbn in Er. injection Er as -> _. exact Hu. }
  rewrite E1, rev_involutive. rewrite (dropWhile_id isSpace v Hv). reflexivity.
Qed.

Lemma trimmedOrEmpty_trim x : trim (LlmIndex.trimmedOrEmpty x) = LlmIndex.trimmedOrEmpty x.
Proof.
  unfold LlmIndex.trimmedOrEmpty. destruct (LlmIndex.isNonEmptyString x); [|reflexivity].
  destruct x; try reflexivity. apply trim_idem.
Qed.

Lemma trimmedOrEmpty_nonEmpty x :
  nonEmpty (LlmIndex.trimmedOrEmpty x) = LlmIndex.isNonEmptyString x.
Proof.
  unfold LlmIndex.trimmedOrEmpty. destruct (LlmIndex.isNonEmptyString x) eqn:E; [|reflexivity].
  destruct x; try discriminate. exact E.
Qed.

(** X13: [LlmIndex.pickString] returns null exactly when neither value is a string
    with something other than white space in it.  Otherwise it returns the
    trimmed text of one of the two values: it is not empty, has no white
    space at either end, and is as long as the longer of the two trimmed
    texts, the first value winning a tie. *)
Theorem pickString_result (aVal bVal : LlmIndex.JsAny) :
  (LlmIndex.pickString aVal bVal = None
   <-> LlmIndex.isNonEmptyString aVal = false /\ LlmIndex.isNonEmptyString bVal = false)
  /\ (forall s, LlmIndex.pickString aVal bVal = Some s ->
        s <> [] /\ trim s = s
        /\ (s = LlmIndex.trimmedOrEmpty aVal \/ s = LlmIndex.trimmedOrEmpty bVal)
        /\ List.length s
           = Nat.max (List.length (LlmIndex.trimmedOrEmpty aVal))
                     (List.length (LlmIndex.trimmedOrEmpty bVal))
        /\ (List.length (LlmIndex.trimmedOrEmpty bVal) <= List.length (LlmIndex.trimmedOrEmpty aVal)
            -> LlmIndex.isNonEmptyString aVal = true -> s = LlmIndex.trimmedOrEmpty aVal)%nat).
Proof.
  unfold LlmIndex.pickString.
  pose proof (trimmedOrEmpty_nonEmpty aVal) as Ha.
  pose proof (trimmedOrEmpty_nonEmpty bVal) as Hb.
  pose proof (trimmedOrEmpty_trim aVal) as Ta.
  pose proof (trimmedOrEmpty_trim bVal) as Tb.
  destruct (LlmIndex.trimmedOrEmpty aVal) as [|a0 a] eqn:Ea,
           (LlmIndex.trimmedOrEmpty bVal) as [|b0 b] eqn:Eb;
    cbn [nonEmpty] in Ha, Hb; rewrite <- Ha, <- Hb; cbn [nonEmpty negb andb].
  - split; [tauto|discriminate].
  - split; [split; [discriminate|intros [_ ?]; discriminate]|].
    intros s [= <-]. cbn [List.length Nat.max].
    repeat split; auto; try discriminate.
  - split; [split; [discriminate|intros [? _]; discriminate]|].
    intros s [= <-]. cbn [List.length]. rewrite Nat.max_0_r.
    repeat split; auto; try discriminate.
  - split; [split; [destruct (Nat.leb _ _); discriminate|intros [? _]; discriminate]|].
    intros s. destruct (Nat.leb_spec (List.length (b0 :: b)) (List.length (a0 :: a)));
      intros [= <-].
    + repeat split; auto; try discriminate. lia.
    + repeat split; auto; try discriminate; try lia.
Qed.

Lemma dedupeExact_spec xs : forall seen,
  NoDup (LlmIndex.dedupeExact seen xs)
  /\ (forall n, In n (LlmIndex.dedupeExact seen xs) <-> In n xs /\ ~ In n seen).
Proof.
  induction xs as [|x xs IH]; intros seen; cbn [LlmIndex.dedupeExact].
  - split; [constructor|]. intros n. cbn. tauto.
  - assert (Hx : existsb (str_eqb x) seen = true <-> In x seen).
    { rewrite existsb_exists. split.
      - intros (y & Hy & E). unfold str_eqb in E.
        destruct (list_eq_dec N.eq_dec x y); [now subst|discriminate].
      - intros H. exists x. split; [exact H|]. unfold str_eqb.
        destruct (list_eq_dec N.eq_dec x x); congruence. }
    destruct (existsb (str_eqb x) seen) eqn:E.
    + destruct (IH seen) as [H1 H2]. split; [exact H1|].
      intros n. rewrite H2. cbn [In]. split; [tauto|].
      intros [[<-|H] Hn]; [exfalso; apply Hn, Hx; reflexivity|tauto].
    + destruct (IH (x :: seen)) as [H1 H2].
      assert (Hnx : ~ In x seen) by (intros H; apply Hx in H; discriminate).
      split.
      * constructor; [|exact H1]. intros H. apply H2 in H. cbn [In] in H. tauto.
      * intros n. cbn [In]. rewrite H2. cbn [In].
        destruct (list_eq_dec N.eq_dec x n) as [->|Hne]; [tauto|]. tauto.
Qed.

Lemma dedupeExact_length xs : forall seen,
  (List.length (LlmIndex.dedupeExact seen xs) <= List.length xs)%nat.
Proof.
  induction xs as [|x xs IH]; intros seen; cbn [LlmIndex.dedupeExact List.length]; [lia|].
  destruct (existsb _ _); cbn [List.length].
  - specialize (IH seen). lia.
  - specialize (IH (x :: seen)). lia.
Qed.

Lemma llm_cleanAuthors_facts arr :
  NoDup (LlmIndex.cleanAuthors arr)
  /\ (List.length (LlmIndex.cleanAuthors arr) <= 24)%nat
  /\ (forall n, In n (LlmIndex.cleanAuthors arr) ->
        exists entries e,
          LlmIndex.authorEntries arr = Some entries /\ In e entries
          /\ n = LlmIndex.titleCaseIfAllCaps (LlmIndex.normalizeEntry e)
          /\ LlmIndex.looksPersonal (LlmIndex.normalizeEntry e) = true
          /\ test LlmIndex.affiliationWord (LlmIndex.normalizeEntry e) = false
          /\ test LlmIndex.affiliationTail (LlmIndex.normalizeEntry e) = false).
Proof.
  unfold LlmIndex.cleanAuthors. destruct (LlmIndex.authorEntries arr) as [entries|].
  2:{ split; [constructor|]. split; [cbn; lia|intros n []]. }
  set (normalized := List.map LlmIndex.titleCaseIfAllCaps _).
  destruct (dedupeExact_spec normalized []) as [Hnd Hin].
  split; [now apply NoDup_firstn|]. split; [apply firstn_le_length|].
  intros n Hn. apply In_firstn_looser in Hn. apply Hin in Hn. destruct Hn as [Hn _].
  unfold normalized in Hn. apply in_map_iff in Hn. destruct Hn as (s & <- & Hs).
  apply filter_In in Hs. destruct Hs as [Hs Hp].
  apply filter_In in Hs. destruct Hs as [Hs Hw].
  apply filter_In in Hs. destruct Hs as [Hs Ht].
  apply filter_In in Hs. destruct Hs as [Hs _].
  apply in_map_iff in Hs. destruct Hs as (e & <- & He).
  exists entries, e. rewrite negb_true_iff in Hw, Ht. repeat split; auto.
Qed.

(** X14: [LlmIndex.pickAuthors] returns null exactly when both cleaned lists are
    empty.  Otherwise it returns a non-empty list without repeated names, of
    at most 48 names, that holds exactly the names of the two cleaned lists;
    each name is the (re-capitalized) form of the cleaned text of an entry
    of one of the two values, and that text passed the three filters of
    [LlmIndex.cleanAuthors]: the personal-name shape [LlmIndex.looksPersonal],
    and no match of either affiliation pattern. *)
Theorem pickAuthors_result (aVal bVal : LlmIndex.JsAny) :
  (LlmIndex.pickAuthors aVal bVal = None
   <-> LlmIndex.cleanAuthors aVal = [] /\ LlmIndex.cleanAuthors bVal = [])
  /\ (forall names, LlmIndex.pickAuthors aVal bVal = Some names ->
        names <> [] /\ NoDup names /\ (List.length names <= 48)%nat
        /\ (forall n, In n names
                      <-> In n (LlmIndex.cleanAuthors aVal)
                          \/ In n (LlmIndex.cleanAuthors bVal))
        /\ (forall n, In n names ->
              exists arr entries e,
                (arr = aVal \/ arr = bVal)
                /\ LlmIndex.authorEntries arr = Some entries /\ In e entries
                /\ n = LlmIndex.titleCaseIfAllCaps (LlmIndex.normalizeEntry e)
                /\ LlmIndex.looksPersonal (LlmIndex.normalizeEntry e) = true
                /\ test LlmIndex.affiliationWord (LlmIndex.normalizeEntry e) = false
                /\ test LlmIndex.affiliationTail (LlmIndex.normalizeEntry e) = false)).
Proof.
  unfold LlmIndex.pickAuthors.
  destruct (llm_cleanAuthors_facts aVal) as (Na & La & Pa0).
  destruct (llm_cleanAuthors_facts bVal) as (Nb & Lb & Pb0).
  assert (Pa : forall n, In n (LlmIndex.cleanAuthors aVal) ->
            exists arr entries e,
              (arr = aVal \/ arr = bVal)
              /\ LlmIndex.authorEntries arr = Some entries /\ In e entries
              /\ n = LlmIndex.titleCaseIfAllCaps (LlmIndex.normalizeEntry e)
              /\ LlmIndex.looksPersonal (LlmIndex.normalizeEntry e) = true
              /\ test LlmIndex.affiliationWord (LlmIndex.normalizeEntry e) = false
              /\ test LlmIndex.affiliationTail (LlmIndex.normalizeEntry e) = false).
  { intros n Hn. destruct (Pa0 n Hn) as (entries & e & H).
    exists aVal, entries, e. split; [now left|exact H]. }
  assert (Pb : forall n, In n (LlmIndex.cleanAuthors bVal) ->
            exists arr entries e,
              (arr = aVal \/ arr = bVal)
              /\ LlmIndex.authorEntries arr = Some entries /\ In e entries
              /\ n = LlmIndex.titleCaseIfAllCaps (LlmIndex.normalizeEntry e)
              /\ LlmIndex.looksPersonal (LlmIndex.normalizeEntry e) = true
              /\ test LlmIndex.affiliationWord (LlmIndex.normalizeEntry e) = false
              /\ test LlmIndex.affiliationTail (LlmIndex.normalizeEntry e) = false).
  { intros n Hn. destruct (Pb0 n Hn) as (entries & e & H).
    exists bVal, entries, e. split; [now right|exact H]. }
  clear Pa0 Pb0.
  assert (U : forall xs ys,
    NoDup (LlmIndex.unionOrdered xs ys)
    /\ (List.length (LlmIndex.unionOrdered xs ys) <= List.length xs + List.length ys)%nat
    /\ (forall n, In n (LlmIndex.unionOrdered xs ys) <-> In n xs \/ In n ys)).
  { intros xs ys. unfold LlmIndex.unionOrdered.
    destruct (dedupeExact_spec (xs ++ ys) []) as [H1 H2].
    split; [exact H1|]. split.
    - rewrite <- length_app. apply dedupeExact_length.
    - intros n. rewrite H2, in_app_iff. cbn [In]. tauto. }
  destruct (LlmIndex.cleanAuthors aVal) as [|a0 a] eqn:Ea,
           (LlmIndex.cleanAuthors bVal) as [|b0 b] eqn:Eb.
  - split; [tauto|discriminate].
  - split; [split; [discriminate|intros [_ ?]; discriminate]|].
    intros names [= <-]. split; [discriminate|]. split; [exact Nb|].
    split; [lia|]. split; [|exact Pb]. intros n. cbn [In]. tauto.
  - split; [split; [discriminate|intros [? _]; discriminate]|].
    intros names [= <-]. split; [discriminate|]. split; [exact Na|].
    split; [lia|]. split; [|exact Pa]. intros n. cbn [In]. tauto.
  - split; [split; [destruct (Nat.leb _ _); discriminate|intros [? _]; discriminate]|].
    intros names Hn.
    assert (Hu : names = LlmIndex.unionOrdered (a0 :: a) (b0 :: b)
                 \/ names = LlmIndex.unionOrdered (b0 :: b) (a0 :: a)).
    { destruct (Nat.leb _ _); [left|right]; congruence. }
    clear Hn.
    assert (Hin : forall n, In n names <-> In n (a0 :: a) \/ In n (b0 :: b)).
    { intros n. destruct Hu as [-> | ->]; rewrite (proj2 (proj2 (U _ _))); tauto. }
    split.
    { intros ->. apply (proj2 (Hin a0)). left. now left. }
    split; [destruct Hu as [-> | ->]; apply U|].
    split.
    { destruct Hu as [-> | ->];
        [pose proof (proj1 (proj2 (U (a0 :: a) (b0 :: b))))
        |pose proof (proj1 (proj2 (U (b0 :: b) (a0 :: a))))]; lia. }
    split; [exact Hin|].
    intros n Hn. apply Hin in Hn. destruct Hn as [Hn|Hn]; [exact (Pa n Hn)|exact (Pb n Hn)].
Qed.

(** ** The pipeline after parsing *)

(** X15: whatever the parser found and whatever the two answers of the
    language model were, fusion does not throw and [runPipeline] returns
    metadata in which the document type is a non-empty string; the date is
    null or a valid ISO date (year, year-month or full date) whose year lies
    between 1900 and next year; and the author list is null or holds between
    1 and 24 names, each accepted by [isLikelyPersonName]. *)
Theorem pipeline_metadata (now : Z) (parsed : ParsedDoc) (sections : Sections)
    (a b : LlmIndex.Raw) :
  exists md,
    runPipeline now parsed sections a b = Ok md
    /\ truthy (md_document_type md) = true
    /\ (forall d, md_document_date md = Some d ->
          isValidISO d = true
          /\ (isYearShape d || isMonthShape d || isDayShape d)%bool = true
          /\ exists y, yearOf d = Some y /\ (1900 <= y <= now + 1)%Z)
    /\ (forall names, md_authors md = Some names ->
          names <> [] /\ (List.length names <= 24)%nat
          /\ forall n, In n names -> isLikelyPersonName n = true).
Proof.
  unfold runPipeline.
  destruct (fuse_returns now (candidates parsed) (Some parsed)
              (LlmIndex.runLLMEnsemble a b) sections) as [fm Hf].
  { intros c s. unfold LlmIndex.runLLMEnsemble. cbn [authors].
    destruct (LlmIndex.pickAuthors _ _); discriminate. }
  rewrite Hf. cbn [bind]. exists (finalMeta fm). split; [reflexivity|].
  cbn [finalMeta md_document_type md_document_date md_authors].
  split; [exact (fused_type_truthy _ _ _ _ _ _ Hf)|]. split.
  - intros d Hd. split; [exact (fused_date_isValid _ _ _ _ _ _ _ Hf Hd)|].
    destruct (fuse_inv _ _ _ _ _ _ Hf) as (chosen & picked & _ & _ & E).
    rewrite E in Hd. exact (sanitize_shape _ _ _ _ _ Hd).
  - intros names Hn.
    destruct (fuse_authors_inv _ _ _ _ _ _ Hf) as (ap & al & Hap & Hal & Hc).
    assert (Hx : exists x, cleanAuthors x = Ok (Some names)).
    { apply chooseField_member in Hc. destruct Hc as [E|[E|[]]];
        rewrite <- E in Hn; cbn [value] in Hn; subst.
      - now exists (parsedAuthorsRaw (candidates parsed) (Some parsed)).
      - now exists (authors (LlmIndex.runLLMEnsemble a b)). }
    destruct Hx as (x & Hx). exact (cleanAuthors_members _ _ Hx).
Qed.

(** ** Dates and identifiers read by pattern *)

Lemma exec_reYearSepMonthSepDay_inv s m :
  exec reYearSepMonthSepDay s = Some m ->
  exists Y M D,
    groups m = [Some Y; Some M; Some D]
    /\ isCenturyYear Y = true /\ isDigits12 M = true /\ isDigits12 D = true.
Proof.
  revert s m.
  exec_inv reYearSepMonthSepDay (fun m => exists Y M D,
    groups m = [Some Y; Some M; Some D]
    /\ isCenturyYear Y = true /\ isDigits12 M = true /\ isDigits12 D = true).
  minvert; words_upto2; eexists _, _, _; (split; [reflexivity|]);
    cbn [isCenturyYear isDigits12]; char_facts; repeat split; reflexivity.
Qed.

Lemma exec_reYear_inv s m :
  exec reYear s = Some m ->
  exists Y, groups m = [Some Y] /\ isCenturyYear Y = true.
Proof.
  revert s m.
  exec_inv reYear (fun m => exists Y, groups m = [Some Y] /\ isCenturyYear Y = true).
  minvert; words_upto2; eexists; (split; [reflexivity|]);
    cbn [isCenturyYear isDigits12]; char_facts; repeat split; reflexivity.
Qed.

(** X16: whatever text it is given, [toISODate] returns null or a string of
    the form YYYY-MM-DD whose year is a 19xx or 20xx year; when the text
    holds a year but no year-month-day group, the month and day are both 01.
    The month and day are not checked against the calendar. *)
Theorem toISODate_shape (s : option jsstring) (r : jsstring) :
  toISODate s = Some r ->
  isDayShape r = true
  /\ isCenturyYear (slice r 0 4) = true
  /\ (exec reYearSepMonthSepDay (orEmpty s) = None ->
      slice r 4 10 = js "-01-01").
Proof.
  unfold toISODate. destruct (negb (truthy s)); [discriminate|].
  destruct (exec reYearSepMonthSepDay (orEmpty s)) as [m1|] eqn:E1.
  - destruct (exec_reYearSepMonthSepDay_inv _ _ E1) as (Y & M & D & Hg & HY & HM & HD).
    unfold group. rewrite Hg. cbn [nth Nat.sub orEmpty].
    destruct (century_split _ HY) as (a & b & c & d & -> & Ha & Hb & Hc & Hd & _).
    destruct (pad2_facts _ HM) as (m1' & m2' & -> & Hm1 & Hm2 & _).
    destruct (pad2_facts _ HD) as (d1' & d2' & -> & Hd1 & Hd2 & _).
    intros [= <-]. cbn. cbn [isCenturyYear] in HY.
    split; [now rewrite Ha, Hb, Hc, Hd, Hm1, Hm2, Hd1, Hd2|].
    split; [exact HY|discriminate].
  - destruct (exec reYear (orEmpty s)) as [m2|] eqn:E2; [|discriminate].
    destruct (exec_reYear_inv _ _ E2) as (Y & Hg & HY).
    unfold group. rewrite Hg. cbn [nth Nat.sub orEmpty].
    destruct (century_split _ HY) as (a & b & c & d & -> & Ha & Hb & Hc & Hd & _).
    intros [= <-]. cbn. cbn [isCenturyYear] in HY.
    split; [now rewrite Ha, Hb, Hc, Hd|].
    split; [exact HY|reflexivity].
Qed.

Lemma toISODate_shape_witness :
  toISODate (Some (js "on 2021/7/3, revised")) = Some (js "2021-07-03")
  /\ isDayShape (js "2021-07-03") = true.
Proof.
  split; [vm_compute; reflexivity|].
  exact (proj1 (toISODate_shape (Some (js "on 2021/7/3, revised"))
                  (js "2021-07-03") eq_refl)).
Defined.

(** A search that succeeds found its match at the reported index. *)
Lemma exec_inv_pre (x : RegExp) (P : jsstring -> MatchResult -> Prop) :
  (forall pre prev suf len c,
      matchAt x prev suf = Some (len, c) ->
      P (pre ++ suf)
        (mkMatch (List.length pre) (firstn len suf) (List.map (capText suf) c))) ->
  forall s m, exec x s = Some m -> P s m.
Proof.
  intros HP.
  assert (G : forall s prev pre m,
    searchFrom x prev s (List.length pre) = Some m -> P (pre ++ s) m).
  { induction s as [|a s IH]; intros prev pre m; cbn [searchFrom].
    - destruct (matchAt x prev []) as [[len c]|] eqn:E; [|discriminate].
      intros [= <-]. apply HP with (prev := prev). exact E.
    - destruct (matchAt x prev (a :: s)) as [[len c]|] eqn:E.
      + intros [= <-]. apply HP with (prev := prev). exact E.
      + intros H. replace (pre ++ a :: s) with ((pre ++ [a]) ++ s)
          by (rewrite <- app_assoc; reflexivity).
        apply (IH (Some a)). rewrite length_app. cbn [List.length].
        rewrite Nat.add_1_r. exact H. }
  intros s m H. apply (G s None [] m). exact H.
Qed.

Lemma startsWith_app w post : startsWith w (w ++ post) = true.
Proof. induction w as [|a w IH]; cbn; [reflexivity|]. now rewrite N.eqb_refl. Qed.

Lemma includes_app pre w post : includes (pre ++ w ++ post) w = true.
Proof.
  induction pre as [|a pre IH].
  - cbn [app]. destruct (w ++ post) eqn:E; cbn [includes];
      rewrite <- E, startsWith_app; reflexivity.
  - cbn [app includes]. rewrite IH. apply orb_true_r.
Qed.

Ltac exec_inv_pre x P :=
  let G := fresh "G" in
  assert (G : forall s m, exec x s = Some m -> P s m);
  [apply (exec_inv_pre x P);
   let H := fresh "H" in
   let I := fresh "I" in
   intros ? ? ? ? ? H; apply matchAt_sound_id in H; destruct H as (I & ? & ? & H);
   cbn [groups matched index];
   let r := eval cbv in (pattern x) in change (pattern x) with r in H;
   cbn [ignoreCase x re rei ngroups Nat.add repeat] in H
  |intros s m; apply G].

Lemma exec_rePdfDate_inv s m :
  exec rePdfDate s = Some m ->
  exists a b c d e f g h,
    groups m = [Some [a; b; c; d]; Some [e; f]; Some [g; h]]
    /\ forallb isDigit [a; b; c; d; e; f; g; h] = true
    /\ includes s (js "D:" ++ [a; b; c; d; e; f; g; h]) = true.
Proof.
  revert s m.
  exec_inv_pre rePdfDate (fun s m => exists a b c d e f g h,
    groups m = [Some [a; b; c; d]; Some [e; f]; Some [g; h]]
    /\ forallb isDigit [a; b; c; d; e; f; g; h] = true
    /\ includes s (js "D:" ++ [a; b; c; d; e; f; g; h]) = true).
  minvert; words_bounded. do 8 eexists. split; [reflexivity|].
  apply cmem_is_char in Ha0, Ha; try reflexivity. subst a0 a.
  repeat match goal with
         | H : (_ && _)%bool = true |- _ => apply andb_prop in H; destruct H
         | H : cmem _ CDigit _ = true |- _ => rewrite cmem_digit in H
         end.
  split.
  - cbn [forallb]. rewrite !andb_true_iff. repeat split; assumption.
  - apply (includes_app pre (js "D:" ++ [n3; n4; n5; n6; n1; n2; n; n0]) j3).
Qed.

(** X17: [parsePdfCreationDate] returns null or a string of the form
    YYYY-MM-DD made of the eight digits that follow [D:] in the PDF
    creation date; the month and day are not checked. *)
Theorem parsePdfCreationDate_shape (d : option jsstring) (r : jsstring) :
  parsePdfCreationDate d = Some r ->
  isDayShape r = true
  /\ includes (orEmpty d)
       (js "D:" ++ slice r 0 4 ++ slice r 5 7 ++ slice r 8 10) = true.
Proof.
  unfold parsePdfCreationDate. destruct (negb (truthy d)); [discriminate|].
  destruct (exec rePdfDate (orEmpty d)) as [m|] eqn:E; [|discriminate].
  destruct (exec_rePdfDate_inv _ _ E) as (a & b & c & e & f & g & h & i & Hg & Hd & Hi).
  unfold group. rewrite Hg. cbn [nth Nat.sub orEmpty]. intros [= <-].
  split; [|exact Hi].
  cbn [forallb] in Hd. rewrite !andb_true_iff in Hd.
  destruct Hd as (Ha & Hb & Hc & He & Hf & Hg' & Hh & Hi' & _).
  cbn. now rewrite Ha, Hb, Hc, He, Hf, Hg', Hh, Hi'.
Qed.

Lemma parsePdfCreationDate_shape_witness :
  parsePdfCreationDate (Some (js "D:20231305120000Z")) = Some (js "2023-13-05")
  /\ isDayShape (js "2023-13-05") = true.
Proof.
  split; [vm_compute; reflexivity|].
  exact (proj1 (parsePdfCreationDate_shape (Some (js "D:20231305120000Z"))
                  (js "2023-13-05") eq_refl)).
Defined.

Lemma whole_match ic r base prev s c p' len s' c' :
  matches ic r base (prev, 0%nat, s, c) (p', len, s', c') ->
  exists w, id s = w ++ s' /\ firstn len s = w.
Proof.
  intros H. apply matches_extends in H. cbn [fst snd] in H.
  destruct H as [(w & Hs & ->) _]. exists w. split; [exact Hs|].
  rewrite Hs. cbn [Nat.add]. replace (List.length w) with (List.length w + 0)%nat by lia.
  rewrite firstn_app_2. cbn [firstn]. apply app_nil_r.
Qed.

Ltac exec_inv_whole x P :=
  let G := fresh "G" in
  assert (G : forall s m, exec x s = Some m -> P s m);
  [apply (exec_inv_pre x P);
   let H := fresh "H" in
   let I := fresh "I" in
   let Hw := fresh "Hw" in
   let Hm := fresh "Hm" in
   intros ? ? ? ? ? H; apply matchAt_sound_id in H; destruct H as (I & ? & ? & H);
   destruct (whole_match _ _ _ _ _ _ _ _ _ _ H) as (? & Hw & Hm);
   cbn [groups matched index]; rewrite Hm; clear Hm;
   let r := eval cbv in (pattern x) in change (pattern x) with r in H;
   cbn [ignoreCase x re rei ngroups Nat.add repeat] in H
  |intros s m; apply G].

Lemma cmem_is_char_ci c a :
  cmem true (CChar c) a = true -> isLetter c = false -> a = c.
Proof.
  cbv [cmem]. cbn [andb]. unfold swapCase. intros H Hc.
  destruct (isUpper a) eqn:U.
  - apply orb_prop in H. destruct H as [H|H]; apply N.eqb_eq in H; subst c;
      [unfold isLetter in Hc; rewrite U in Hc; discriminate|].
    exfalso. clear - U Hc. char_arith2.
  - destruct (isLower a) eqn:L.
    + apply orb_prop in H. destruct H as [H|H]; apply N.eqb_eq in H; subst c;
        [unfold isLetter in Hc; rewrite L, orb_true_r in Hc; discriminate|].
      exfalso. clear - L Hc. char_arith2.
    + rewrite orb_diag in H. apply N.eqb_eq in H. now symmetry.
Qed.

Lemma exec_DOI_inv s m :
  exec DOI_RE s = Some m ->
  includes s (matched m) = true
  /\ exists ds suf,
       matched m = js "10." ++ ds ++ js "/" ++ suf
       /\ (4 <= List.length ds <= 9)%nat /\ forallb isDigit ds = true
       /\ suf <> [] /\ forallb (cmem true doiSuffixChar) suf = true.
Proof.
  revert s m.
  exec_inv_whole DOI_RE (fun s m =>
    includes s (matched m) = true
    /\ exists ds suf,
         matched m = js "10." ++ ds ++ js "/" ++ suf
         /\ (4 <= List.length ds <= 9)%nat /\ forallb isDigit ds = true
         /\ suf <> [] /\ forallb (cmem true doiSuffixChar) suf = true).
  minvert. split.
  - match goal with
    | |- includes (_ ++ ?X) ?W = true =>
        replace X with (W ++ j3)
          by (repeat (progress (cbn [app]; rewrite <- ?app_assoc)); reflexivity)
    end.
    apply includes_app.
  - apply cmem_is_char_ci in Ha2, Ha1, Ha0, Ha; try reflexivity. subst a2 a1 a0 a.
    exists w0, w. split; [reflexivity|].
    split; [exact (Hb0 9%nat eq_refl ltac:(lia))|].
    split; [|split; [|exact Hall]].
    + clear - Hall0. induction w0 as [|c w0 IH]; [reflexivity|].
      cbn [forallb] in *. apply andb_prop in Hall0. destruct Hall0 as [Hc Hw].
      rewrite cmem_digit in Hc. now rewrite Hc, IH.
    + specialize (Hn eq_refl). intros ->. cbn in Hn. lia.
Qed.

(** X18: a DOI returned by [extractDOI] occurs in the text and has the form
    [10.], four to nine digits, a slash, and a non-empty suffix drawn from
    letters, digits and the punctuation [-._;()/:], so it holds no white
    space. *)
Theorem extractDOI_shape (text doi : jsstring) :
  extractDOI text = Some doi ->
  includes text doi = true
  /\ exists ds suf,
       doi = js "10." ++ ds ++ js "/" ++ suf
       /\ (4 <= List.length ds <= 9)%nat /\ forallb isDigit ds = true
       /\ suf <> [] /\ forallb (cmem true doiSuffixChar) suf = true.
Proof.
  unfold extractDOI. destruct (exec DOI_RE text) as [m|] eqn:E; [|discriminate].
  intros [= <-]. exact (exec_DOI_inv _ _ E).
Qed.

Lemma extractDOI_shape_witness :
  extractDOI (js "see https://doi.org/10.1016/j.cell.2020.01.001. Abstract")
  = Some (js "10.1016/j.cell.2020.01.001")
  /\ includes (js "see https://doi.org/10.1016/j.cell.2020.01.001. Abstract")
       (js "10.1016/j.cell.2020.01.001") = true.
Proof.
  split; [vm_compute; reflexivity|].
  exact (proj1 (extractDOI_shape
                  (js "see https://doi.org/10.1016/j.cell.2020.01.001. Abstract")
                  (js "10.1016/j.cell.2020.01.001") eq_refl)).
Defined.

(** ** The Crossref date *)

Lemma stringOfN_4 n :
  (1000 <= n <= 9999)%N ->
  exists a b c d, stringOfN n = [a; b; c; d]
    /\ isDigit a = true /\ isDigit b = true /\ isDigit c = true /\ isDigit d = true
    /\ toNumber [a; b; c; d] = Z.of_N n.
Proof.
  intros Hn. unfold stringOfN.
  assert (Hl : (9 <= N.log2 n)%N).
  { change 9%N with (N.log2 512). apply N.log2_le_mono. lia. }
  destruct (N.to_nat (N.log2 n)) as [|[|[|[|k]]]] eqn:E; try lia.
  cbn [digitsFuel].
  assert (H1 : (n <? 10)%N = false) by (apply N.ltb_ge; lia). rewrite H1.
  pose proof (N.mod_lt n 10 ltac:(lia)) as M0.
  pose proof (N.mod_lt (n / 10) 10 ltac:(lia)) as M1.
  pose proof (N.mod_lt (n / 10 / 10) 10 ltac:(lia)) as M2.
  pose proof (N.mod_lt (n / 10 / 10 / 10) 10 ltac:(lia)) as M3.
  pose proof (N.div_mod n 10 ltac:(lia)) as D0.
  pose proof (N.div_mod (n / 10) 10 ltac:(lia)) as D1.
  pose proof (N.div_mod (n / 10 / 10) 10 ltac:(lia)) as D2.
  pose proof (N.div_mod (n / 10 / 10 / 10) 10 ltac:(lia)) as D3.
  clear E Hl H1.
  unfold isDigit, inRange, toNumber. cbn [digitsValue].
  set (r0 := (n mod 10)%N) in *. set (r1 := ((n / 10) mod 10)%N) in *.
  set (r2 := ((n / 10 / 10) mod 10)%N) in *.
  set (r3 := ((n / 10 / 10 / 10) mod 10)%N) in *.
  set (q4 := (n / 10 / 10 / 10 / 10)%N) in *.
  set (q3 := (n / 10 / 10 / 10)%N) in *.
  set (q2 := (n / 10 / 10)%N) in *. set (q1 := (n / 10)%N) in *.
  clearbody r0 r1 r2 r3 q4 q3 q2 q1.
  assert (H2 : (q1 <? 10)%N = false) by (apply N.ltb_ge; lia). rewrite H2.
  assert (H3 : (q2 <? 10)%N = false) by (apply N.ltb_ge; lia). rewrite H3.
  assert (H4 : (q3 <? 10)%N = true) by (apply N.ltb_lt; lia). rewrite H4.
  do 4 eexists. split; [reflexivity|].
  rewrite !andb_true_iff, !N.leb_le. repeat split; lia.
Qed.

Lemma stringOfZ_4 y :
  (1000 <= y <= 9999)%Z ->
  exists a b c d, stringOfZ y = [a; b; c; d]
    /\ isDigit a = true /\ isDigit b = true /\ isDigit c = true /\ isDigit d = true
    /\ toNumber [a; b; c; d] = y.
Proof.
  intros Hy. destruct y as [|p|p]; try lia. cbn [stringOfZ].
  destruct (stringOfN_4 (Z.to_N (Z.pos p)) ltac:(lia))
    as (a & b & c & d & E & Ha & Hb & Hc & Hd & T).
  exists a, b, c, d. rewrite T. repeat split; try assumption; lia.
Qed.

Lemma pad2_small v :
  (0 <= v < 0 + Z.of_nat 100)%Z ->
  (match pad2 v with
   | [x; y] => isDigit x && isDigit y && (toNumber [x; y] =? v)%Z
   | _ => false
   end) = true.
Proof.
  apply (forallb_range
           (fun v => match pad2 v with
                     | [x; y] => isDigit x && isDigit y && (toNumber [x; y] =? v)%Z
                     | _ => false
                     end) 0 100).
  vm_compute. reflexivity.
Qed.

Lemma pad2_two v :
  (0 <= v <= 99)%Z ->
  exists x y, pad2 v = [x; y] /\ isDigit x = true /\ isDigit y = true
              /\ toNumber [x; y] = v.
Proof.
  intros Hv. pose proof (pad2_small v ltac:(lia)) as H.
  destruct (pad2 v) as [|x [|y [|? ?]]]; try discriminate.
  rewrite !andb_true_iff, Z.eqb_eq in H. destruct H as [[Hx Hy] T].
  exists x, y. auto.
Qed.

Lemma firstFormatted_inv cands : forall r,
  firstFormatted cands = Some r ->
  exists pre d post,
    cands = pre ++ d :: post /\ formatParts d = Some r
    /\ forall c, In c pre -> formatParts c = None.
Proof.
  induction cands as [|d cands IH]; intros r; cbn [firstFormatted]; [discriminate|].
  destruct (formatParts d) as [r'|] eqn:E.
  - intros [= <-]. exists [], d, cands. repeat split; auto. intros c [].
  - intros H. destruct (IH _ H) as (pre & d' & post & -> & Hd & Hpre).
    exists (d :: pre), d', post. repeat split; auto.
    intros c [<-|Hc]; auto.
Qed.

Lemma formatParts_none d : formatParts d = None -> passedOver d = true.
Proof.
  destruct d as [[|y rest]|]; cbn [formatParts passedOver]; try reflexivity.
  destruct (y =? 0)%Z; [reflexivity|].
  destruct (negb _ && negb _)%bool; [discriminate|].
  destruct (negb _); discriminate.
Qed.

(** X19: the date [pickDate] returns comes from the first of the four
    Crossref dates, in the order print, online, issued, created, that has
    parts and a non-zero year; the dates before it are missing, have no
    parts, or have a zero year.  When the parts of that date are as a
    calendar gives them (a four-digit year, month and day below 100), the
    result is YYYY-MM-DD when month and day are both present, YYYY-MM when
    only the month is (a day without a month is dropped), and YYYY
    otherwise, with the year, month and day of those parts. *)
Theorem pickDate_result (obj : option CrossrefDates) (r : jsstring) :
  pickDate obj = Some r ->
  exists pre y rest post,
    crossrefCandidates obj = pre ++ Some (y :: rest) :: post
    /\ forallb passedOver pre = true
    /\ y <> 0%Z
    /\ (calendarLike (Some (y :: rest)) = true ->
        toNumber (slice r 0 4) = y
        /\ (nth 0 rest 0%Z <> 0%Z -> nth 1 rest 0%Z <> 0%Z ->
            isDayShape r = true /\ toNumber (slice r 5 7) = nth 0 rest 0%Z
            /\ toNumber (slice r 8 10) = nth 1 rest 0%Z)
        /\ (nth 0 rest 0%Z <> 0%Z -> nth 1 rest 0%Z = 0%Z ->
            isMonthShape r = true /\ toNumber (slice r 5 7) = nth 0 rest 0%Z)
        /\ (nth 0 rest 0%Z = 0%Z -> isYearShape r = true)).
Proof.
  unfold pickDate. fold (crossrefCandidates obj). intros H.
  destruct (firstFormatted_inv _ _ H) as (pre & d & post & E & Hd & Hpre).
  destruct d as [[|y rest]|]; try discriminate Hd.
  exists pre, y, rest, post. split; [exact E|]. split.
  { apply forallb_forall. intros c Hc. apply formatParts_none. now apply Hpre. }
  cbn [formatParts] in Hd.
  destruct (Z.eqb_spec y 0) as [|Hy0]; [discriminate|]. split; [exact Hy0|].
  intros Hc. cbn [calendarLike] in Hc.
  rewrite !andb_true_iff, !Z.leb_le in Hc. destruct Hc as [[Hy1 Hy2] Hrest].
  destruct (stringOfZ_4 y ltac:(lia)) as (a & b & c & e & Ey & Ha & Hb & Hc' & He & Ty).
  assert (Hm : (0 <= nth 0 rest 0 <= 99)%Z /\ (0 <= nth 1 rest 0 <= 99)%Z).
  { destruct rest as [|m [|dd rest']]; cbn [firstn forallb nth] in *;
      rewrite ?andb_true_iff, ?Z.leb_le in Hrest; lia. }
  destruct Hm as [Hm Hdd].
  destruct (pad2_two _ Hm) as (m1 & m2 & Em & Hm1 & Hm2 & Tm).
  destruct (pad2_two _ Hdd) as (d1 & d2 & Ed & Hd1 & Hd2 & Td).
  rewrite Ey, Em, Ed in Hd.
  destruct (Z.eqb_spec (nth 0 rest 0%Z) 0) as [M0|M0];
    destruct (Z.eqb_spec (nth 1 rest 0%Z) 0) as [D0|D0]; cbn [negb andb] in Hd;
    injection Hd as <-; cbn; rewrite ?Ha, ?Hb, ?Hc', ?He, ?Hm1, ?Hm2, ?Hd1, ?Hd2;
    (split; [exact Ty|]); repeat split; try reflexivity; try assumption;
    try (intros; exfalso; congruence); try (intros; congruence).
Qed.

Lemma pickDate_result_witness :
  pickDate (Some (mkCrossrefDates (Some [0; 5; 17]%Z) (Some []) None
                                  (Some [2021; 3; 9]%Z)))
  = Some (js "2021-03-09")
  /\ exists pre y rest post,
       crossrefCandidates
         (Some (mkCrossrefDates (Some [0; 5; 17]%Z) (Some []) None
                                (Some [2021; 3; 9]%Z)))
       = pre ++ Some (y :: rest) :: post
       /\ forallb passedOver pre = true /\ y <> 0%Z.
Proof.
  split; [vm_compute; reflexivity|].
  destruct (pickDate_result
              (Some (mkCrossrefDates (Some [0; 5; 17]%Z) (Some []) None
                                     (Some [2021; 3; 9]%Z)))
              (js "2021-03-09") eq_refl)
    as (pre & y & rest & post & E & Hp & Hy & _).
  exists pre, y, rest, post. auto.
Defined.

(** ** Text fields and document types *)

(** X20: the text field scorer never returns an empty string: the value is
    null or a non-empty text of at most 1200 code units, namely the first
    1200 code units of the input with white space collapsed and trimmed.  The
    confidence is 0.5, 0.85 or 0.9, and it is 0.9 exactly when the text was
    longer than 1200 code units and has been cut. *)
Theorem qualityTextField_value (v : option jsstring) (prov : Provenance) :
  let txt := trim (collapseSpaces (orEmpty v)) in
  let f := qualityTextField v prov in
  provenance f = prov
  /\ (value f = if nonEmpty txt then Some (firstn 1200 txt) else None)
  /\ (forall t, value f = Some t -> t <> [] /\ (List.length t <= 1200)%nat)
  /\ (confidence f = 0.5%Q \/ confidence f = 0.85%Q \/ confidence f = 0.9%Q)
  /\ (confidence f = 0.9%Q <-> (1200 < List.length txt)%nat).
Proof.
  intros txt f.
  assert (Hv : value f = if nonEmpty txt then Some (firstn 1200 txt) else None).
  { unfold f, qualityTextField. cbn [value]. fold txt.
    destruct v as [[|c s]|]; cbn [truthy orEmpty].
    - assert (txt = []) as -> by reflexivity. reflexivity.
    - fold txt. change (orEmpty (Some (c :: s))) with (c :: s). fold txt.
      destruct txt as [|a t] eqn:E; cbn [truthy orEmpty andb nonEmpty]; [reflexivity|].
      destruct (Nat.ltb_spec 1200 (List.length (a :: t))) as [Hl|Hl].
      + reflexivity.
      + rewrite firstn_all2 by lia. reflexivity.
    - assert (txt = []) as -> by reflexivity. reflexivity. }
  split; [reflexivity|]. split; [exact Hv|]. split.
  { intros t. rewrite Hv. destruct txt as [|a t'] eqn:E; cbn [nonEmpty]; [discriminate|].
    intros Ht. assert (Et : t = firstn 1200 (a :: t')) by congruence.
    rewrite Et. split; [|apply firstn_le_length].
    change 1200%nat with (S 1199). cbn [firstn]. discriminate. }
  assert (Hlen : forall x : option jsstring,
            match x with Some t => List.length t | None => 0%nat end
            = List.length (orEmpty x)) by (intros [t|]; reflexivity).
  unfold f, qualityTextField. cbn [confidence].
  set (tx := if truthy v then Some (trim (collapseSpaces (orEmpty v))) else None).
  assert (Etx : List.length (orEmpty tx) = List.length txt).
  { unfold tx, txt. destruct v as [[|c s]|]; reflexivity. }
  rewrite Hlen, Etx.
  destruct (truthy tx && test (rei (Chr lowerAZ)) (orEmpty tx))%bool;
    destruct (Nat.leb 30 (List.length txt));
    destruct (Nat.ltb_spec 1200 (List.length txt)); cbn [andb];
    unfold mathMax; cbn;
    (split; [auto|split; [intros; try discriminate; auto|intros; try reflexivity; try lia]]).
Qed.

Lemma toLowerCase_app a b : toLowerCase (a ++ b) = toLowerCase a ++ toLowerCase b.
Proof. unfold toLowerCase. apply flat_map_app. Qed.

Lemma startsWith_inv k : forall t, startsWith k t = true -> exists q, t = k ++ q.
Proof.
  induction k as [|a k IH]; intros t; cbn [startsWith]; [now exists t|].
  destruct t as [|b t]; [discriminate|]. rewrite andb_true_iff, N.eqb_eq.
  intros [-> H]. destruct (IH _ H) as [q ->]. now exists q.
Qed.

Lemma includes_inv k : forall t, includes t k = true -> exists p q, t = p ++ k ++ q.
Proof.
  induction t as [|b t IH]; cbn [includes]; rewrite orb_true_iff.
  - intros [H|H]; [|discriminate]. destruct (startsWith_inv _ _ H) as [q ->].
    now exists [], q.
  - intros [H|H].
    + destruct (startsWith_inv _ _ H) as [q ->]. now exists [], q.
    + destruct (IH H) as (p & q & ->). now exists (b :: p), q.
Qed.

Lemma includes_mono pre t post k :
  includes t k = true -> includes (pre ++ t ++ post) k = true.
Proof.
  intros H. destruct (includes_inv _ _ H) as (p & q & ->).
  replace (pre ++ (p ++ k ++ q) ++ post) with ((pre ++ p) ++ k ++ (q ++ post))
    by (rewrite <- !app_assoc; reflexivity).
  apply includes_app.
Qed.

Lemma includes_trim_lower s k :
  includes (toLowerCase s) k = false -> includes (toLowerCase (trim s)) k = false.
Proof.
  intros H. destruct (includes (toLowerCase (trim s)) k) eqn:E; [|reflexivity].
  destruct (trim_sub s) as (pre & post & Es).
  rewrite Es, !toLowerCase_app, (includes_mono _ _ _ _ E) in H. discriminate.
Qed.

(** X21: normalizing a document type is stable: when [normalizeDocType]
    returns a non-empty string, normalizing that string again returns it
    unchanged. *)
Theorem normalizeDocType_stable (s : option jsstring) (r : jsstring) :
  normalizeDocType s = Some r -> r <> [] ->
  normalizeDocType (Some r) = Some r.
Proof.
  unfold normalizeDocType at 1. destruct (negb (truthy s)); [discriminate|].
  destruct (includes (toLowerCase (orEmpty s)) (js "preprint")) eqn:E1.
  { intros H _. apply (f_equal orEmpty) in H. cbn [orEmpty] in H. subst r.
    vm_compute. reflexivity. }
  destruct (includes (toLowerCase (orEmpty s)) (js "conference")
            || includes (toLowerCase (orEmpty s)) (js "proceedings")
            || includes (toLowerCase (orEmpty s)) (js "abstract"))%bool eqn:E2.
  { intros H _. apply (f_equal orEmpty) in H. cbn [orEmpty] in H. subst r.
    vm_compute. reflexivity. }
  destruct (includes (toLowerCase (orEmpty s)) (js "journal")) eqn:E3.
  { intros H _. apply (f_equal orEmpty) in H. cbn [orEmpty] in H. subst r.
    vm_compute. reflexivity. }
  destruct (includes (toLowerCase (orEmpty s)) (js "thesis")
            || includes (toLowerCase (orEmpty s)) (js "dissertation"))%bool eqn:E4.
  { intros H _. apply (f_equal orEmpty) in H. cbn [orEmpty] in H. subst r.
    vm_compute. reflexivity. }
  intros H Hne. apply (f_equal orEmpty) in H. cbn [orEmpty] in H. subst r.
  apply orb_false_elim in E2, E4. destruct E2 as [E2 E2c], E4 as [E4a E4b].
  apply orb_false_elim in E2. destruct E2 as [E2a E2b].
  unfold normalizeDocType.
  destruct (trim (orEmpty s)) as [|c t] eqn:Et; [congruence|].
  cbn [truthy negb orEmpty]. rewrite <- Et.
  rewrite !includes_trim_lower by assumption. cbn [orb].
  now rewrite trim_idem.
Qed.

Lemma normalizeDocType_stable_witness :
  normalizeDocType (Some (js "  Technical Report ")) = Some (js "Technical Report")
  /\ normalizeDocType (Some (js "Technical Report")) = Some (js "Technical Report").
Proof.
  split; [vm_compute; reflexivity|].
  apply (normalizeDocType_stable (Some (js "  Technical Report "))).
  - vm_compute. reflexivity.
  - discriminate.
Defined.

(** ** Text normalisation *)

Lemma run_Rep_eq ic R mn mx r1 base prev pos s c (k : cont R) :
  run ic (Rep mn mx r1) base prev pos s c k
  = @repLoop ic R r1 base k (S (mn + List.length s)) mn mx prev pos s c.
Proof. reflexivity. Qed.

Lemma repLoop_S ic R r1 base (k : cont R) fuel mn mx prev pos s c :
  @repLoop ic R r1 base k (S fuel) mn mx prev pos s c
  = match mx with
    | Some O => k prev pos s c
    | _ =>
        let iter :=
          run ic r1 base prev pos s (clearCaps base (ngroups r1) c)
            (fun p' pos' s' c' =>
               if (Nat.eqb mn 0 && Nat.eqb pos' pos)%bool then None
               else @repLoop ic R r1 base k fuel (Nat.pred mn)
                      (option_map Nat.pred mx) p' pos' s' c') in
        if Nat.ltb 0 mn then iter
        else match iter with
             | Some x => Some x
             | None => k prev pos s c
             end
    end.
Proof. reflexivity. Qed.

Ltac here := solve [do 2 eexists; split; [reflexivity|lia]].

(** A starred character class always matches, possibly the empty word. *)
Lemma star_loop ic cs base fuel :
  forall prev pos s c,
  exists n c',
    @repLoop ic (nat * caps) (Chr cs) base (fun _ pos _ c => Some (pos, c))
      (S fuel) 0 None prev pos s c = Some (n, c')
    /\ (pos <= n)%nat.
Proof.
  induction fuel as [|fuel IH]; intros prev pos s c; rewrite repLoop_S;
    cbn [Nat.ltb Nat.leb run]; cbv zeta;
    (destruct s as [|a s]; [here|]); (destruct (cmem ic cs a); [|here]);
    replace (Nat.eqb 0 0 && Nat.eqb (S pos) pos)%bool with false
      by (symmetry; apply andb_false_iff; right; apply Nat.eqb_neq; lia).
  - cbn [repLoop]. here.
  - cbn [Nat.pred option_map].
    destruct (IH (Some a) (S pos) s (clearCaps base (ngroups (Chr cs)) c))
      as (n & c' & -> & Hn).
    exists n, c'. split; [reflexivity|lia].
Qed.

Lemma matchAt_plus_class ic cs prev a s :
  cmem ic cs a = true ->
  exists n c, matchAt (mkRegExp (Plus (Chr cs)) ic) prev (a :: s) = Some (S n, c).
Proof.
  intros Ha. unfold matchAt, Plus. cbn [pattern ignoreCase].
  rewrite run_Rep_eq. cbn [List.length Nat.add].
  rewrite repLoop_S. cbn [Nat.ltb Nat.leb run]. cbv zeta. rewrite Ha.
  cbn [Nat.eqb andb Nat.pred option_map].
  destruct (star_loop ic cs 0 (S (List.length s)) (Some a) 1%nat s
              (clearCaps 0 (ngroups (Chr cs)) (repeat None (ngroups (Rep 1 None (Chr cs))))))
    as (n & c' & E & Hn).
  destruct n as [|n]; [lia|]. exists n, c'. exact E.
Qed.

Lemma matchAt_chr ic cs prev a s :
  matchAt (mkRegExp (Chr cs) ic) prev (a :: s)
  = if cmem ic cs a then Some (1%nat, []) else None.
Proof. reflexivity. Qed.

(** When the pattern matches a non-empty word wherever the input starts with
    a code unit of a class, no code unit of the class survives the global
    replacement. *)
Lemma replaceFrom_removes x rep (P : N -> bool) c :
  (forall prev a s, P a = true ->
     exists n cp, matchAt x prev (a :: s) = Some (S n, cp)) ->
  forall s prev skip,
    In c (replaceFrom x rep prev s skip) ->
    (In c s /\ P c = false) \/ In c rep.
Proof.
  intros Hm. induction s as [|a s IH]; intros prev skip; cbn [replaceFrom].
  - destruct skip; [|intros []]. destruct (matchAt x prev []); [auto|intros []].
  - destruct skip as [|n].
    + destruct (P a) eqn:Pa.
      * destruct (Hm prev a s Pa) as (n & cp & ->). rewrite in_app_iff.
        intros [H|H]; [auto|]. destruct (IH _ _ H) as [[H1 H2]|H1]; cbn [In]; auto.
      * destruct (matchAt x prev (a :: s)) as [[[|n] cp]|]; rewrite ?in_app_iff;
          cbn [In]; intros H;
          repeat match goal with
                 | H : _ \/ _ |- _ => destruct H as [H|H]
                 end; subst; auto;
          destruct (IH _ _ H) as [[H1 H2]|H1]; auto.
    + intros H. destruct (IH _ _ H) as [[H1 H2]|H1]; cbn [In]; auto.
Qed.

(** A consuming pattern advances the offset. *)
Lemma consuming_advances ic r :
  consuming r = true ->
  forall base st st', matches ic r base st st' ->
    (snd (fst (fst st)) < snd (fst (fst st')))%nat.
Proof.
  induction r as [|cs|r1 IH1 r2 IH2|r1 IH1 r2 IH2|mn mx r1 IH1|r1 IH1| | |];
    cbn [consuming]; try discriminate; intros Hc base st st'; cbn [matches].
  - intros (a & s' & _ & _ & ->). cbn [fst snd]. lia.
  - intros (st1 & H1 & H2).
    pose proof (matches_extends _ _ _ _ _ H1) as [(w1 & _ & E1) _].
    pose proof (matches_extends _ _ _ _ _ H2) as [(w2 & _ & E2) _].
    apply orb_true_iff in Hc. destruct Hc as [Hc|Hc].
    + specialize (IH1 Hc _ _ _ H1). lia.
    + specialize (IH2 Hc _ _ _ H2). lia.
  - apply andb_true_iff in Hc. destruct Hc as [Hc1 Hc2].
    intros [H|H]; eauto.
  - apply andb_true_iff in Hc. destruct Hc as [Hc Hmx].
    apply andb_true_iff in Hc. destruct Hc as [Hmn Hc]. apply Nat.ltb_lt in Hmn.
    intros H. inversion H as [mn' mx' st0 Hstop|mn' mx' st0 st1 st2 Hne H1 H2]; subst.
    + destruct Hstop as [E|E]; [lia|rewrite E in Hmx; discriminate].
    + specialize (IH1 Hc _ _ _ H1). cbn [fst snd] in IH1.
      change (matches ic (Rep (Nat.pred mn) (option_map Nat.pred mx) r1) base st1 st')
        in H2.
      pose proof (matches_extends _ _ _ _ _ H2) as [(w2 & _ & E2) _]. lia.
  - intros (st1 & H1 & ->). cbn [fst snd]. eauto.
Qed.

Lemma consuming_matchAt x prev s n c :
  consuming (pattern x) = true -> matchAt x prev s = Some (n, c) -> (1 <= n)%nat.
Proof.
  intros Hc H. apply matchAt_sound in H. destruct H as (p' & s' & H).
  apply (consuming_advances _ _ Hc) in H. cbn [fst snd] in H. lia.
Qed.

(** Replacing the matches of a consuming pattern by at most one code unit
    each does not lengthen the text. *)
Lemma replaceFrom_length x rep :
  consuming (pattern x) = true -> (List.length rep <= 1)%nat ->
  forall s prev skip,
    (List.length (replaceFrom x rep prev s skip) <= List.length s - skip)%nat.
Proof.
  intros Hc Hr. induction s as [|a s IH]; intros prev skip; cbn [replaceFrom].
  - destruct skip; [|cbn; lia].
    destruct (matchAt x prev []) as [[n cp]|] eqn:E; [|cbn; lia].
    pose proof (consuming_matchAt _ _ _ _ _ Hc E) as Hn.
    apply matchAt_sound in E. destruct E as (p' & s' & E).
    apply matches_extends in E. cbn [fst snd] in E.
    destruct E as [(w & Hw & Hlen) _]. destruct w; [cbn in Hlen; lia|discriminate].
  - destruct skip as [|n].
    + destruct (matchAt x prev (a :: s)) as [[[|n] cp]|] eqn:E.
      * apply (consuming_matchAt _ _ _ _ _ Hc) in E. lia.
      * rewrite length_app. specialize (IH (Some a) n). cbn [List.length]. lia.
      * specialize (IH (Some a) 0%nat). cbn [List.length]. lia.
    + specialize (IH (Some a) n). cbn [List.length]. lia.
Qed.

Lemma cchar_false a c : cmem false (CChar a) c = false -> a <> c.
Proof.
  unfold cmem. intros H. apply orb_false_elim in H. now apply N.eqb_neq.
Qed.

Lemma control_free c :
  cmem false controlUnits c = false ->
  (c < 32)%N -> c = 9%N \/ c = 10%N \/ c = 13%N.
Proof.
  unfold controlUnits, unions, cmem, inRange. rewrite !andb_false_l, !orb_false_r.
  intros H Hlt.
  repeat match type of H with
         | (_ || _)%bool = false => apply orb_false_elim in H; destruct H as [? H]
         end.
  repeat match goal with
         | H : (_ && _)%bool = false |- _ => apply andb_false_iff in H
         | H : N.eqb _ _ = false |- _ => apply N.eqb_neq in H
         end.
  rewrite ?N.leb_gt in *. lia.
Qed.

Lemma replaceAll_class ic cs rep c s :
  In c (replaceAll (mkRegExp (Chr cs) ic) rep s) ->
  (In c s /\ cmem ic cs c = false) \/ In c rep.
Proof.
  apply replaceFrom_removes. intros prev a s' Ha.
  rewrite matchAt_chr, Ha. eauto.
Qed.

Lemma replaceAll_class_runs ic cs rep c s :
  In c (replaceAll (mkRegExp (Plus (Chr cs)) ic) rep s) ->
  (In c s /\ cmem ic cs c = false) \/ In c rep.
Proof.
  apply replaceFrom_removes. intros prev a s' Ha.
  now apply matchAt_plus_class.
Qed.

(** X22: the normalised text of a PDF contains no carriage return, tab,
    no-break space or control character: every code unit below 32 is a line
    feed.  Its code units come from the input, apart from spaces and line
    feeds, and it is never longer than the input.  Two line feeds in a row
    can remain, since control characters are removed after the runs of line
    feeds are collapsed. *)
Theorem normalizeText_clean (txt : jsstring) :
  (forall c, In c (normalizeText txt) ->
     (In c txt \/ c = 32%N \/ c = 10%N)
     /\ c <> 9%N /\ c <> 13%N /\ c <> 160%N /\ ((c < 32)%N -> c = 10%N))
  /\ (List.length (normalizeText txt) <= List.length txt)%nat
  /\ normalizeText breaksAroundControl = [97; 10; 10; 98]%N.
Proof.
  split; [|split; [|reflexivity]].
  - intros c H. unfold normalizeText in H.
    apply replaceAll_class in H. destruct H as [[H Hctl]|[]].
    apply replaceFrom_units in H.
    assert (H4 : c = 10%N \/
                 In c (replaceAll reNbsp (js " ") (replaceAll reCrTab (js " ") txt))).
    { destruct H as [H|H]; [right|left; destruct H as [<-|[]]; reflexivity].
      apply replaceFrom_units in H. destruct H as [H|[]].
      apply replaceFrom_units in H. destruct H as [H|[]]. exact H. }
    clear H. destruct H4 as [->|H].
    { repeat split; auto; discriminate. }
    apply replaceAll_class in H. destruct H as [[H Hnb]|[<-|[]]].
    2:{ repeat split; auto; discriminate. }
    apply replaceAll_class_runs in H. destruct H as [[H Hrt]|[<-|[]]].
    2:{ repeat split; auto; discriminate. }
    change (cmem false (CChar 13) c || cmem false (CChar 9) c = false)%bool in Hrt.
    apply orb_false_elim in Hrt. destruct Hrt as [H13 H9].
    apply cchar_false in Hnb, H13, H9.
    repeat split; auto.
    intros Hlt. destruct (control_free _ Hctl Hlt) as [E|[E|E]]; congruence.
  - unfold normalizeText, replaceAll.
    repeat match goal with
           | |- context [replaceFrom ?x ?rep None ?s 0] =>
               lazymatch goal with
               | H : (List.length (replaceFrom x rep None s 0) <= _)%nat |- _ => fail
               | _ =>
                   pose proof (replaceFrom_length x rep eq_refl
                                 ltac:(cbn; lia) s None 0%nat)
               end
           end.
    lia.
Qed.

(** ** Crossref title sanity check *)

(** A word without the replacement character that starts the result of a
    global replacement starts the input, *)
Lemma replaceFrom_prefix x sp :
  forall s w prev,
    ~ In sp w ->
    startsWith w (replaceFrom x [sp] prev s 0) = true -> startsWith w s = true.
Proof.
  assert (Hsp : forall w rest, ~ In sp w -> startsWith w (sp :: rest) = true -> w = []).
  { intros [|b w] rest Hn; [reflexivity|]. cbn [startsWith].
    rewrite andb_true_iff, N.eqb_eq. intros [-> _]. destruct Hn. now left. }
  induction s as [|a s IH]; intros w prev Hn; cbn [replaceFrom].
  - destruct (matchAt x prev []).
    + intros H. now rewrite (Hsp _ _ Hn H).
    + destruct w; [reflexivity|discriminate].
  - destruct (matchAt x prev (a :: s)) as [[[|n] cp]|]; cbn [app].
    + intros H. now rewrite (Hsp _ _ Hn H).
    + intros H. now rewrite (Hsp _ _ Hn H).
    + destruct w as [|b w]; [reflexivity|]. cbn [startsWith].
      rewrite !andb_true_iff. intros [E H]. split; [exact E|].
      apply (IH _ (Some a)); [|exact H]. intros Hin. apply Hn. now right.
Qed.

(** and one that occurs in the result occurs in the input. *)
Lemma replaceFrom_includes x sp w :
  w <> [] -> ~ In sp w ->
  forall s prev skip,
    includes (replaceFrom x [sp] prev s skip) w = true -> includes s w = true.
Proof.
  intros Hne Hn.
  assert (Hsp : forall rest, startsWith w (sp :: rest) = false).
  { intros rest. destruct w as [|b w]; [contradiction|]. cbn [startsWith].
    apply andb_false_iff. left. apply N.eqb_neq. intros ->. apply Hn. now left. }
  assert (Hnil : startsWith w [] = false) by (destruct w; [contradiction|reflexivity]).
  assert (Hhead : forall a s prev,
             startsWith w (a :: replaceFrom x [sp] prev s 0) = true ->
             startsWith w (a :: s) = true).
  { intros a s prev. destruct w as [|b w]; [contradiction|]. cbn [startsWith].
    rewrite !andb_true_iff. intros [E H]. split; [exact E|].
    apply (replaceFrom_prefix x sp s w prev); [|exact H].
    intros Hin. apply Hn. now right. }
  induction s as [|a s IH]; intros prev skip; cbn [replaceFrom].
  - destruct skip; [|cbn [includes]; now rewrite Hnil].
    destruct (matchAt x prev []); cbn [includes]; rewrite ?Hsp, ?Hnil; discriminate.
  - destruct skip as [|n].
    + destruct (matchAt x prev (a :: s)) as [[[|n] cp]|]; cbn [app includes];
        rewrite ?Hsp; cbn [orb]; rewrite ?orb_true_iff; intros H.
      * destruct H as [H|H]; [left; eapply Hhead; eassumption|right; eauto].
      * right. eauto.
      * destruct H as [H|H]; [left; eapply Hhead; eassumption|right; eauto].
    + intros H. cbn [includes]. rewrite (IH _ _ H). apply orb_true_r.
Qed.

(** The pieces of a split at spaces contain no space and occur in the
    text. *)
Lemma splitFrom_space tok :
  forall s prev cur,
    ~ In 32%N cur ->
    In tok (splitFrom (re (Chr (CChar 32))) prev s 0 cur) ->
    ~ In 32%N tok /\ exists p q, rev cur ++ s = p ++ tok ++ q.
Proof.
  induction s as [|a s IH]; intros prev cur Hc; cbn [splitFrom].
  - intros [<-|[]]. split; [now rewrite <- in_rev|]. exists [], [].
    now rewrite !app_nil_r.
  - unfold re. rewrite matchAt_chr. destruct (cmem false (CChar 32) a) eqn:Ea.
    + intros [<-|H].
      * split; [now rewrite <- in_rev|]. now exists [], (a :: s).
      * destruct (IH (Some a) [] (fun f => f) H) as (Hn & p & q & E). split; [exact Hn|].
        cbn [rev app] in E. exists (rev cur ++ a :: p), q. rewrite E.
        now rewrite <- app_assoc.
    + apply cchar_false in Ea. intros H.
      destruct (IH (Some a) (a :: cur)) as (Hn & p & q & E); [|exact H|].
      * intros [->|Hin]; [now apply Ea|now apply Hc].
      * split; [exact Hn|]. exists p, q. rewrite <- E. cbn [rev].
        now rewrite <- app_assoc.
Qed.

Lemma split_space tok t :
  In tok (split (re (Chr (CChar 32))) t) ->
  ~ In 32%N tok /\ exists p q, t = p ++ tok ++ q.
Proof.
  unfold split. destruct t as [|a t].
  - cbn. intros [<-|[]]. split; [intros []|]. now exists [], [].
  - intros H. exact (splitFrom_space _ _ _ [] (fun f => f) H).
Qed.

(** Every token of the title is a word of at least three code units that
    occurs in the lower-cased title. *)
Lemma titleTokens_in_title title w :
  In w (titleTokens title) ->
  (3 <= List.length w)%nat /\ includes (toLowerCase title) w = true.
Proof.
  unfold titleTokens. intros H. apply filter_In in H. destruct H as [H Hlen].
  apply Nat.leb_le in Hlen. split; [exact Hlen|].
  destruct (split_space _ _ H) as (Hn & p & q & E).
  assert (Hne : w <> []) by (intros ->; cbn in Hlen; lia).
  unfold titleKey in E.
  destruct (trim_sub (collapseSpaces
                        (replaceAll reNotAlnumSpace (js " ") (toLowerCase title))))
    as (pre & post & Et).
  rewrite E in Et.
  assert (Hi : includes (collapseSpaces
                 (replaceAll reNotAlnumSpace (js " ") (toLowerCase title))) w = true).
  { rewrite Et.
    replace (pre ++ (p ++ w ++ q) ++ post) with ((pre ++ p) ++ w ++ (q ++ post))
      by (rewrite <- !app_assoc; reflexivity).
    apply includes_app. }
  unfold collapseSpaces, replaceAll in Hi.
  apply (replaceFrom_includes _ 32%N w Hne Hn) in Hi.
  apply (replaceFrom_includes _ 32%N w Hne Hn) in Hi. exact Hi.
Qed.

(** The code units of a token are lower-case letters and digits. *)
Lemma titleTokens_alnum title w c :
  In w (titleTokens title) -> In c w -> (isLower c || isDigit c)%bool = true.
Proof.
  unfold titleTokens. intros H Hc. apply filter_In in H. destruct H as [H _].
  destruct (split_space _ _ H) as (Hn & p & q & E).
  assert (H32 : c <> 32%N) by (intros ->; contradiction).
  unfold titleKey in E.
  destruct (trim_sub (collapseSpaces
                        (replaceAll reNotAlnumSpace (js " ") (toLowerCase title))))
    as (pre & post & Et).
  rewrite E in Et.
  assert (Hi : In c (collapseSpaces
                 (replaceAll reNotAlnumSpace (js " ") (toLowerCase title)))).
  { rewrite Et, !in_app_iff. auto. }
  apply replaceAll_class_runs in Hi.
  destruct Hi as [[Hi Hs]|[E32|[]]]; [|now symmetry in E32].
  apply replaceAll_class in Hi.
  destruct Hi as [[Hi Hu]|[E32|[]]]; [|now symmetry in E32].
  change (negb ((inRange 97 122 c || false && inRange 97 122 (swapCase c))
                || ((inRange 48 57 c || false && inRange 48 57 (swapCase c))
                    || isSpace c)) = false)%bool in Hu.
  change (isSpace c = false) in Hs.
  apply negb_false_iff in Hu. rewrite Hs in Hu. cbn [andb] in Hu.
  rewrite !orb_false_r in Hu. exact Hu.
Qed.

Lemma includes_trans h t w :
  includes h t = true -> includes t w = true -> includes h w = true.
Proof.
  intros H1 H2. destruct (includes_inv _ _ H1) as (p & q & ->).
  now apply includes_mono.
Qed.

Lemma filter_all (A : Type) (f : A -> bool) (l : list A) :
  (forall x, In x l -> f x = true) -> filter f l = l.
Proof.
  induction l as [|x l IH]; intros H; cbn [filter]; [reflexivity|].
  rewrite (H x (or_introl eq_refl)), IH; [reflexivity|].
  intros y Hy. apply H. now right.
Qed.

Lemma filter_length_mono (A : Type) (f g : A -> bool) (l : list A) :
  (forall x, In x l -> f x = true -> g x = true) ->
  (List.length (filter f l) <= List.length (filter g l))%nat.
Proof.
  induction l as [|x l IH]; intros H; cbn [filter]; [lia|].
  assert (IH' := IH (fun y Hy => H y (or_intror Hy))).
  pose proof (H x (or_introl eq_refl)) as Hx.
  destruct (f x); [rewrite Hx by reflexivity|destruct (g x)]; cbn [List.length]; lia.
Qed.

Lemma titleTokens_empty_key title : titleKey title = [] -> titleTokens title = [].
Proof. unfold titleTokens. now intros ->. Qed.

(** The test on the quotient, in whole numbers. *)
Lemma looksLikeSameWork_iff title header :
  looksLikeSameWork title header = true
  <-> titleTokens title <> []
      /\ (13 * List.length (titleTokens title) <= 20 * tokenHits title header)%nat.
Proof.
  unfold looksLikeSameWork. destruct (titleKey title) as [|k0 k] eqn:K.
  - rewrite (titleTokens_empty_key _ K). split; [discriminate|]. now intros [[] _].
  - destruct (titleTokens title) as [|t0 toks] eqn:T.
    + split; [discriminate|]. now intros [[] _].
    + rewrite Qle_bool_iff. unfold Qle. cbn [Qnum Qden List.length].
      rewrite <- Pos.of_nat_succ, Zpos_P_of_succ_nat.
      split; [intros H; split; [discriminate|]|intros [_ H]]; lia.
Qed.

(** X23: the title check looks up the words of the Crossref title that have
    at least three letters or digits.  These words occur in the lower-cased
    title, so a header that contains the title in any letter case is
    accepted whenever the title has such a word; a title without one is
    always rejected; the check accepts exactly when at least 65% of the
    words occur in the lower-cased header, and text added around the header
    never turns an accepted title into a rejected one. *)
Theorem looksLikeSameWork_words (title header : jsstring) :
  (forall w, In w (titleTokens title) ->
     (3 <= List.length w)%nat
     /\ (forall c, In c w -> (isLower c || isDigit c)%bool = true)
     /\ includes (toLowerCase title) w = true)
  /\ (titleTokens title = [] -> looksLikeSameWork title header = false)
  /\ (titleTokens title <> [] ->
      includes (toLowerCase header) (toLowerCase title) = true ->
      looksLikeSameWork title header = true)
  /\ (looksLikeSameWork title header = true
      <-> titleTokens title <> []
          /\ (13 * List.length (titleTokens title)
              <= 20 * tokenHits title header)%nat)
  /\ (forall a b, looksLikeSameWork title header = true ->
        looksLikeSameWork title (a ++ header ++ b) = true).
Proof.
  split; [|split; [|split; [|split]]].
  - intros w Hw. destruct (titleTokens_in_title _ _ Hw) as [Hlen Hin].
    split; [exact Hlen|]. split; [|exact Hin].
    intros c Hc. exact (titleTokens_alnum _ _ _ Hw Hc).
  - intros E. destruct (looksLikeSameWork title header) eqn:L; [|reflexivity].
    apply looksLikeSameWork_iff in L. now destruct L.
  - intros Hne Hin. apply looksLikeSameWork_iff. split; [exact Hne|].
    unfold tokenHits. rewrite filter_all; [lia|].
    intros w Hw. apply (includes_trans _ _ _ Hin).
    now apply titleTokens_in_title.
  - apply looksLikeSameWork_iff.
  - intros a b L. apply looksLikeSameWork_iff in L. destruct L as [Hne Hle].
    apply looksLikeSameWork_iff. split; [exact Hne|].
    assert (tokenHits title header <= tokenHits title (a ++ header ++ b))%nat; [|lia].
    unfold tokenHits. apply filter_length_mono. intros w _ Hw.
    rewrite !toLowerCase_app. now apply includes_mono.
Qed.

(** ** A fused date outside the declared type *)

(** On a string or [null], the sanitizer for arbitrary date values is the
    sanitizer. *)
Lemma sanitizeAny_typed now d sections force :
  sanitizeDocumentDateAny now (option_map DString d) sections force
  = Ok (option_map DString (sanitizeDocumentDate now d sections force)).
Proof. destruct d as [s|]; reflexivity. Qed.

Lemma truthyValue_typed v : truthyValue (option_map DString v) = truthy v.
Proof. destruct v as [[|c s]|]; reflexivity. Qed.

Lemma dateFitnessAny_typed v : dateFitnessAny (option_map DString v) = dateFitness v.
Proof. destruct v as [[|c s]|]; reflexivity. Qed.

(** The chooser commutes with a change of the type of values that keeps the
    fitness. *)
Section ChooseFieldMap.

Variables T U : Type.
Variable g : T -> U.
Variable fitT : option T -> Q.
Variable fitU : option U -> Q.
Hypothesis fit_g : forall v, fitU (option_map g v) = fitT v.

Let mapField (f : Field T) : Field U :=
  mkField (option_map g (value f)) (confidence f) (provenance f).

Lemma chooseStep_map b c :
  chooseStep fitU (mapField b) (mapField c) = mapField (chooseStep fitT b c).
Proof.
  unfold chooseStep, replaces, mapField. cbn [value confidence].
  rewrite !fit_g. now destruct (_ || _)%bool.
Qed.

Lemma fold_chooseStep_map rest : forall c0,
  fold_left (chooseStep fitU) (List.map mapField rest) (mapField c0)
  = mapField (fold_left (chooseStep fitT) rest c0).
Proof.
  induction rest as [|c rest IH]; intros c0; cbn [fold_left List.map]; [reflexivity|].
  now rewrite chooseStep_map, IH.
Qed.

Lemma chooseField_map cands r :
  chooseField fitT cands = Ok r ->
  chooseField fitU (List.map mapField cands) = Ok (mapField r).
Proof.
  destruct cands as [|c0 rest]; [discriminate|]. cbn [chooseField List.map].
  intros [= <-]. now rewrite fold_chooseStep_map.
Qed.

End ChooseFieldMap.

(** For a language-model date of the declared type, step 3 for arbitrary
    date values gives the date field of [fuseCandidates]. *)
Lemma fusedDateAny_typed now base parser l sections fm :
  fuseCandidates now base parser l sections = Ok fm ->
  fusedDateAny now base parser (option_map DString (llmDateRaw l)) sections
  = Ok (asDateField (fused_document_date fm)).
Proof.
  intros Hf. destruct (fuse_date_inv _ _ _ _ _ _ Hf) as (picked & Hp & E).
  unfold fusedDateAny. rewrite sanitizeAny_typed. cbn [bind].
  rewrite !truthyValue_typed.
  pose proof (chooseField_map _ _ DString dateFitness dateFitnessAny
                dateFitnessAny_typed _ _ Hp) as Hq.
  cbn [List.map value confidence provenance] in Hq. rewrite Hq. cbn [bind value].
  rewrite sanitizeAny_typed. cbn [bind]. rewrite truthyValue_typed, E.
  reflexivity.
Qed.

(** Claim C9 read for every value of [llm: any]: with a [document_date]
    that is the array [["2024"]] and nothing else in [llm], the other steps
    of [fuseCandidates] return, and the date step returns the array itself
    as the value of the field, which is not a string. *)
Lemma fused_date_array_value :
  (exists fm,
     fuseCandidates 2026 noCandidates None (LlmObj emptyLlm) noEvidence = Ok fm)
  /\ fusedDateAny 2026 noCandidates None (Some (DArray [js "2024"])) noEvidence
     = Ok (mkField (Some (DArray [js "2024"])) 0.7%Q llm)
  /\ (forall s, Some (DArray [js "2024"]) <> Some (DString s)).
Proof.
  split; [eexists; vm_compute; reflexivity|].
  split; [vm_compute; reflexivity|]. intros s. discriminate.
Qed.

(** Claim C10 as worded, at a year beyond the bound: ["published in 2099"]
    is not ISO-shaped and holds the year 2099 without a month or day, and
    [toISODate] makes ["2099-01-01"] of it, yet in 2026 the sanitizer returns
    [null], with or without permission to keep the day: neither ["2099-01"]
    nor ["2099-01-01"]. *)
Lemma sanitize_future_year_text :
  test isoLike (js "published in 2099") = false
  /\ exec reYearSepMonthSepDay (js "published in 2099") = None
  /\ firstYear (js "published in 2099") = Some (js "2099")
  /\ toISODate (Some (js "published in 2099")) = Some (js "2099-01-01")
  /\ sanitizeDocumentDate 2026 (Some (js "published in 2099")) noEvidence false
     = None
  /\ sanitizeDocumentDate 2026 (Some (js "published in 2099")) noEvidence true
     = None.
Proof. repeat split; vm_compute; reflexivity. Qed.

